(** * The Mind Engine of openclaw: store, stress detection, identity, dream tools

    A shallow embedding of [src/mind/store.ts], [src/mind/stress-detection.ts],
    [src/mind/identity.ts] and [src/mind/tools.ts], and the properties of the
    Spiritual Biology subsystem proved about it.

    Conventions of the embedding.
    - A JavaScript string is the list of its UTF-16 code units ([jsstring]);
      [String.prototype.length] is [length].
    - A JavaScript regular expression is a [regex] term, run by a backtracking
      matcher that follows the priorities of the ECMAScript matcher
      (alternatives left to right, greedy and lazy quantifiers).
    - JavaScript numbers of the stress detector are IEEE binary64 values
      ([PrimFloat]).
    - The [relevance_score] column of SQLite ([REAL NOT NULL]) holds an
      IEEE binary64 value ([PrimFloat]), and the arithmetic and the
      comparisons of SQLite on it are those of binary64.  SQLite turns a
      NaN into NULL, which that column refuses: a row holds a number.
    - The SQLite handle is a record of tables, one list of rows per table in
      insertion order; a statement that the storage layer refuses throws. *)

From Stdlib Require Import String Ascii List ZArith Bool Lia.
From Stdlib Require Import Floats.
From Stdlib Require Import Permutation Sorted.
Import ListNotations.

Set Implicit Arguments.
Unset Strict Implicit.

#[local] Set Warnings "-inexact-float".

Local Open Scope Z_scope.

(** ** JavaScript strings *)

Definition jsstring := list Z.

(** An ASCII literal of the source as a list of code units. *)
Definition str (s : string) : jsstring :=
  map (fun a => Z.of_N (N_of_ascii a)) (list_ascii_of_string s).

Fixpoint jsstring_eqb (a b : jsstring) : bool :=
  match a, b with
  | [], [] => true
  | x :: a', y :: b' => (x =? y) && jsstring_eqb a' b'
  | _, _ => false
  end.

(** [Array.prototype.join]. *)
Fixpoint join (sep : jsstring) (parts : list jsstring) : jsstring :=
  match parts with
  | [] => []
  | [p] => p
  | p :: rest => p ++ sep ++ join sep rest
  end.

(** Decimal rendering of a natural number, the [ToString] of a small
    non-negative integer. *)
Fixpoint digits_of (fuel n : nat) (acc : jsstring) : jsstring :=
  match fuel with
  | O => acc
  | S f =>
      let d := (48 + Z.of_nat (n mod 10)) :: acc in
      match (n / 10)%nat with
      | O => d
      | q => digits_of f q d
      end
  end.

Definition nat_to_string (n : nat) : jsstring := digits_of (S n) n [].

Definition Z_to_string (z : Z) : jsstring :=
  if z <? 0 then 45 :: nat_to_string (Z.to_nat (- z))
  else nat_to_string (Z.to_nat z).

(** [String.prototype.replace] with a one-character string pattern: the
    first occurrence only. *)
Fixpoint replace_first (old new : Z) (s : jsstring) : jsstring :=
  match s with
  | [] => []
  | c :: t => if c =? old then new :: t else c :: replace_first old new t
  end.

(** [ORDER BY ... DESC]: a stable insertion sort; [before a b] says that
    [a] may stand before [b]. *)
Fixpoint insert_by {A : Type} (before : A -> A -> bool) (x : A) (l : list A)
    : list A :=
  match l with
  | [] => [x]
  | y :: t => if before y x then y :: insert_by before x t else x :: y :: t
  end.

Definition order_by_desc {A : Type} (before : A -> A -> bool) (l : list A)
    : list A :=
  fold_right (fun x acc => insert_by before x acc) [] (rev l).

(** The two-argument [MIN] of SQLite on REAL values. *)
Definition sql_min (x y : float) : float := if (x <=? y)%float then x else y.

(** The order of [ORDER BY] on a REAL column: the order of binary64, with
    NULL (what SQLite makes of a NaN) below every number. *)
Definition sql_le (x y : float) : bool := is_nan x || (x <=? y)%float.

(** ** Regular expressions (flag [i]) *)

Module Regex.

(** [Canonicalize] of a code unit under flag [i] without flag [u]: the
    upper-case form when it is a single code unit, except that no code unit
    from 128 on is sent below 128.  It is written out for ASCII and the
    Latin-1 letters, the only code units equal under it to a literal of the
    patterns of this repository; elsewhere the identity decides the same
    comparisons against those literals. *)
Definition canonicalize (c : Z) : Z :=
  if (97 <=? c) && (c <=? 122) then c - 32
  else if (224 <=? c) && (c <=? 254) && negb (c =? 247) then c - 32
  else c.

(** [\s]: WhiteSpace and LineTerminator code units. *)
Definition is_space (c : Z) : bool :=
  ((9 <=? c) && (c <=? 13)) || (c =? 32) || (c =? 160) || (c =? 5760)
  || ((8192 <=? c) && (c <=? 8202)) || (c =? 8232) || (c =? 8233)
  || (c =? 8239) || (c =? 8287) || (c =? 12288) || (c =? 65279).

(** The code units [.] refuses. *)
Definition is_line_terminator (c : Z) : bool :=
  (c =? 10) || (c =? 13) || (c =? 8232) || (c =? 8233).

(** [\w]: [A-Za-z0-9_]. *)
Definition is_word (c : Z) : bool :=
  ((97 <=? c) && (c <=? 122)) || ((65 <=? c) && (c <=? 90))
  || ((48 <=? c) && (c <=? 57)) || (c =? 95).

Definition is_word_opt (c : option Z) : bool :=
  match c with Some x => is_word x | None => false end.

Inductive citem : Type :=
| CChar (c : Z)
| CSpace.

Definition item_matches (x : Z) (i : citem) : bool :=
  match i with
  | CChar c => canonicalize x =? canonicalize c
  | CSpace => is_space x
  end.

Inductive regex : Type :=
| Eps
| Chr (c : Z)
| Cls (items : list citem)
| Dot
| WordBoundary
| Seq (r1 r2 : regex)
| Alt (r1 r2 : regex)
| Star (greedy : bool) (r : regex).

(** A continuation receives the code unit before the current position, the
    rest of the input and the number of code units consumed so far. *)
Definition cont := option Z -> list Z -> nat -> option nat.

(** The matcher.  An iteration of a starred expression that consumes
    nothing is refused, as in RepeatMatcher; the fuel of the loop is the
    length of the input left, which such iterations cannot exceed. *)
Fixpoint rmatch (r : regex) (prev : option Z) (s : list Z) (n : nat)
    (k : cont) {struct r} : option nat :=
  match r with
  | Eps => k prev s n
  | Chr c =>
      match s with
      | x :: s' =>
          if canonicalize x =? canonicalize c then k (Some x) s' (S n) else None
      | [] => None
      end
  | Cls items =>
      match s with
      | x :: s' =>
          if existsb (item_matches x) items then k (Some x) s' (S n) else None
      | [] => None
      end
  | Dot =>
      match s with
      | x :: s' => if is_line_terminator x then None else k (Some x) s' (S n)
      | [] => None
      end
  | WordBoundary =>
      if xorb (is_word_opt prev) (is_word_opt (hd_error s)) then k prev s n
      else None
  | Seq r1 r2 => rmatch r1 prev s n (fun p s' n' => rmatch r2 p s' n' k)
  | Alt r1 r2 =>
      match rmatch r1 prev s n k with
      | Some e => Some e
      | None => rmatch r2 prev s n k
      end
  | Star greedy r1 =>
      (fix loop (fuel : nat) (prev : option Z) (s : list Z) (n : nat)
         : option nat :=
         match fuel with
         | O => k prev s n
         | S f =>
             let again :=
               rmatch r1 prev s n
                 (fun p s' n' => if (n <? n')%nat then loop f p s' n' else None) in
             if greedy then
               match again with
               | Some e => Some e
               | None => k prev s n
               end
             else
               match k prev s n with
               | Some e => Some e
               | None => again
               end
         end) (S (length s)) prev s n
  end.

(** Derived forms. *)
Definition Opt (r : regex) : regex := Alt r Eps.
Definition Plus (r : regex) : regex := Seq r (Star true r).

Fixpoint seq (rs : list regex) : regex :=
  match rs with
  | [] => Eps
  | [r] => r
  | r :: rest => Seq r (seq rest)
  end.

Fixpoint alt (rs : list regex) : regex :=
  match rs with
  | [] => Eps
  | [r] => r
  | r :: rest => Alt r (alt rest)
  end.

Definition lit (s : string) : regex := seq (map Chr (str s)).

Definition space : regex := Cls [CSpace].
Definition comma_or_space : regex := Cls [CChar 44; CSpace].
Definition one_of (cs : list Z) : regex := Cls (map CChar cs).

(** A match that starts at the current position: its length. *)
Definition match_at (r : regex) (prev : option Z) (s : list Z) : option nat :=
  rmatch r prev s 0%nat (fun _ _ n => Some n).

(** [RegExp.prototype.test] of a regex without flag [g]: some position of
    the input starts a match. *)
Fixpoint search (r : regex) (prev : option Z) (s : list Z) : bool :=
  match match_at r prev s with
  | Some _ => true
  | None =>
      match s with
      | [] => false
      | c :: t => search r (Some c) t
      end
  end.

Definition test (r : regex) (s : jsstring) : bool := search r None s.

(** [String.prototype.replace] with a regex of flag [g] and a replacement
    without [$]: the matches are found left to right, each search resuming
    where the last match ended (one code unit further after an empty
    match).  [skip] counts the code units of the current match still to
    drop. *)
Fixpoint replace_go (r : regex) (repl : jsstring) (prev : option Z)
    (s : list Z) (skip : nat) {struct s} : jsstring :=
  match skip with
  | S k =>
      match s with
      | [] => []
      | c :: t => replace_go r repl (Some c) t k
      end
  | O =>
      match match_at r prev s with
      | Some (S k) =>
          repl ++ match s with
                  | [] => []
                  | c :: t => replace_go r repl (Some c) t k
                  end
      | Some O =>
          repl ++ match s with
                  | [] => []
                  | c :: t => c :: replace_go r repl (Some c) t 0%nat
                  end
      | None =>
          match s with
          | [] => []
          | c :: t => c :: replace_go r repl (Some c) t 0%nat
          end
      end
  end.

Definition replace_all (r : regex) (repl : jsstring) (s : jsstring) : jsstring :=
  replace_go r repl None s 0%nat.

End Regex.

(** ** [src/mind/stress-detection.ts] *)

Module StressDetection.
Import Regex.

(** The accented letters of the Spanish patterns. *)
Definition a_acute : Z := 225.
Definition e_acute : Z := 233.
Definition i_acute : Z := 237.

Definition STRESS_PATTERNS : list regex :=
  [ (* /no[,\s]+(that'?s?\s+)?(wrong|incorrect|not what i meant)/i *)
    seq [lit "no"; Plus comma_or_space;
         Opt (seq [lit "that"; Opt (Chr 39); Opt (lit "s"); Plus space]);
         alt [lit "wrong"; lit "incorrect"; lit "not what i meant"]];
    (* /actually[,\s]+/i *)
    seq [lit "actually"; Plus comma_or_space];
    (* /i (already )?told you/i *)
    seq [lit "i "; Opt (lit "already "); lit "told you"];
    (* /you'?re not listening/i *)
    seq [lit "you"; Opt (Chr 39); lit "re not listening"];
    (* /that'?s not what i (asked|said|meant)/i *)
    seq [lit "that"; Opt (Chr 39); lit "s not what i ";
         alt [lit "asked"; lit "said"; lit "meant"]];
    (* /why (did you|would you)/i *)
    seq [lit "why "; alt [lit "did you"; lit "would you"]];
    (* /try again/i *)
    lit "try again";
    (* /you keep (making|doing)/i *)
    seq [lit "you keep "; alt [lit "making"; lit "doing"]];
    (* /this is (wrong|broken|not right)/i *)
    seq [lit "this is "; alt [lit "wrong"; lit "broken"; lit "not right"]];
    (* /can you just/i *)
    lit "can you just";
    (* /no[,\s]+(eso\s+)?(no es|est[áa] mal)/i *)
    seq [lit "no"; Plus comma_or_space;
         Opt (seq [lit "eso"; Plus space]);
         alt [lit "no es"; seq [lit "est"; one_of [a_acute; 97]; lit " mal"]]];
    (* /ya te (dije|lo dije)/i *)
    seq [lit "ya te "; alt [lit "dije"; lit "lo dije"]];
    (* /no me est[áa]s (escuchando|entendiendo)/i *)
    seq [lit "no me est"; one_of [a_acute; 97]; lit "s ";
         alt [lit "escuchando"; lit "entendiendo"]];
    (* /eso no es lo que (ped[ií]|dije|quise)/i *)
    seq [lit "eso no es lo que ";
         alt [seq [lit "ped"; one_of [105; i_acute]]; lit "dije"; lit "quise"]];
    (* /int[ée]ntalo de nuevo/i *)
    seq [lit "int"; one_of [e_acute; 101]; lit "ntalo de nuevo"];
    (* /por qu[ée] (hiciste|har[ií]as)/i *)
    seq [lit "por qu"; one_of [e_acute; 101]; lit " ";
         alt [lit "hiciste"; seq [lit "har"; one_of [105; i_acute]; lit "as"]]]
  ].

Definition detectStressRegex (text : jsstring) : bool :=
  existsb (fun pattern => test pattern text) STRESS_PATTERNS.

Definition STRESS_REFERENCE_PHRASES : list jsstring :=
  [ str "That's not what I asked for";
    str "You're not understanding me";
    str "I already told you this";
    str "This is wrong, try again";
    str "You keep making the same mistake" ].

Local Open Scope float_scope.

(** [x || y] on numbers: [y] when [x] is [+0], [-0] or [NaN]. *)
Definition number_or (x y : float) : float :=
  if is_zero x || is_nan x then y else x.

(** The [for] loop of [cosineSimilarity], run when both arrays have the
    same length. *)
Fixpoint cosine_loop (a b : list float) (dot normA normB : float)
    : float * float * float :=
  match a, b with
  | x :: a', y :: b' =>
      cosine_loop a' b' (dot + x * y) (normA + x * x) (normB + y * y)
  | _, _ => (dot, normA, normB)
  end.

Definition cosineSimilarity (a b : list float) : float :=
  if negb (List.length a =? List.length b)%nat then 0
  else
    let '(dot, normA, normB) := cosine_loop a b 0 0 0 in
    dot / number_or (sqrt normA * sqrt normB) 1.

(** [Math.max] of two numbers, then of a spread array. *)
Definition max2 (x y : float) : float :=
  if is_nan x then x
  else if is_nan y then y
  else if x <? y then y
  else if y <? x then x
  else if get_sign x then y else x.

Definition Math_max (xs : list float) : float :=
  fold_left max2 xs neg_infinity.

(** The module variables [stressEmbeddingsCache] and
    [stressEmbeddingsCacheKey]. *)
Record EmbeddingsCache : Type := {
  stressEmbeddingsCache : option (list (list float));
  stressEmbeddingsCacheKey : option jsstring
}.

(** An embedding callable: [None] is a rejected promise. *)
Definition EmbeddingFn := jsstring -> option (list float).

Fixpoint all_resolved (rs : list (option (list float)))
    : option (list (list float)) :=
  match rs with
  | [] => Some []
  | None :: _ => None
  | Some v :: rest =>
      match all_resolved rest with
      | Some vs => Some (v :: vs)
      | None => None
      end
  end.

Definition cache_is_for (c : EmbeddingsCache) (providerKey : jsstring) : bool :=
  match stressEmbeddingsCache c, stressEmbeddingsCacheKey c with
  | Some _, Some k => jsstring_eqb k providerKey
  | _, _ => false
  end.

(** [detectStressSemantic]: the verdict, the cache afterwards and the texts
    handed to [embed], in call order. *)
Definition detectStressSemantic (text : jsstring) (embed : EmbeddingFn)
    (providerKey : jsstring) (threshold : float) (c : EmbeddingsCache)
    : bool * EmbeddingsCache * list jsstring :=
  let refresh := negb (cache_is_for c providerKey) in
  let calls1 := if refresh then STRESS_REFERENCE_PHRASES else [] in
  let filled :=
    if refresh then
      match all_resolved (map embed STRESS_REFERENCE_PHRASES) with
      | Some refs =>
          Some {| stressEmbeddingsCache := Some refs;
                  stressEmbeddingsCacheKey := Some providerKey |}
      | None => None
      end
    else Some c in
  match filled with
  | None => (detectStressRegex text, c, calls1)
  | Some c' =>
      match embed text with
      | None => (detectStressRegex text, c', calls1 ++ [text])
      | Some textEmb =>
          let refs := match stressEmbeddingsCache c' with
                      | Some refs => refs
                      | None => []
                      end in
          let maxSimilarity :=
            Math_max (map (fun ref => cosineSimilarity textEmb ref) refs) in
          (threshold <? maxSimilarity, c', calls1 ++ [text])
      end
  end.

Inductive StressMethod : Type := regex_method | semantic_method | none_method.

Record StressResult : Type := {
  detected : bool;
  intensity : Z;
  method : StressMethod
}.

Definition default_provider_key : jsstring := str "default".

(** [detectStress]: regex first, then the embedding path when a callable
    is given. *)
Definition detectStress (text : jsstring) (embed : option EmbeddingFn)
    (providerKey : option jsstring) (c : EmbeddingsCache)
    : StressResult * EmbeddingsCache * list jsstring :=
  if detectStressRegex text then
    ({| detected := true; intensity := 3%Z; method := regex_method |}, c, [])
  else
    match embed with
    | Some e =>
        let key := match providerKey with
                   | Some k => k
                   | None => default_provider_key
                   end in
        let '(semantic, c', calls) := detectStressSemantic text e key 0.75 c in
        if semantic then
          ({| detected := true; intensity := 2%Z; method := semantic_method |},
           c', calls)
        else
          ({| detected := false; intensity := 0%Z; method := none_method |},
           c', calls)
    | None =>
        ({| detected := false; intensity := 0%Z; method := none_method |}, c, [])
    end.

End StressDetection.

(** ** [src/mind/tools.ts]: the sanitizer of the dream prompt *)

Module Tools.
Import Regex.

Definition INJECTION_PATTERNS : list regex :=
  [ (* /\b(ignore|disregard|forget)\s+(all\s+)?(previous|prior|above)\s+(instructions?|prompts?|rules?)/gi *)
    seq [WordBoundary; alt [lit "ignore"; lit "disregard"; lit "forget"];
         Plus space; Opt (seq [lit "all"; Plus space]);
         alt [lit "previous"; lit "prior"; lit "above"]; Plus space;
         alt [seq [lit "instruction"; Opt (lit "s")];
              seq [lit "prompt"; Opt (lit "s")];
              seq [lit "rule"; Opt (lit "s")]]];
    (* /\byou\s+are\s+now\b/gi *)
    seq [WordBoundary; lit "you"; Plus space; lit "are"; Plus space;
         lit "now"; WordBoundary];
    (* /\bnew\s+instructions?\s*:/gi *)
    seq [WordBoundary; lit "new"; Plus space; lit "instruction"; Opt (lit "s");
         Star true space; Chr 58];
    (* /\bsystem\s*:\s*/gi *)
    seq [WordBoundary; lit "system"; Star true space; Chr 58; Star true space];
    (* /\b(IMPORTANT|CRITICAL|URGENT)\s*:.*?(ignore|override|disregard)/gi *)
    seq [WordBoundary; alt [lit "IMPORTANT"; lit "CRITICAL"; lit "URGENT"];
         Star true space; Chr 58; Star false Dot;
         alt [lit "ignore"; lit "override"; lit "disregard"]];
    (* /<\/?system>/gi *)
    seq [Chr 60; Opt (Chr 47); lit "system>"]
  ].

Definition filtered : jsstring := str "[filtered]".

(** The suffix of a truncated prompt: two line feeds, then the notice. *)
Definition truncation_suffix : jsstring :=
  [10; 10] ++ str "...[dream logs truncated for token budget]".

Definition default_maxLength : Z := 30000.

(** The six replacements in order, then the cut at [maxLength] code units
    (the only call of the source leaves it at its default, 30000). *)
Definition sanitizeDreamPrompt (prompt : jsstring) (maxLength : Z) : jsstring :=
  let sanitized :=
    fold_left (fun sanitized pattern => replace_all pattern filtered sanitized)
      INJECTION_PATTERNS prompt in
  if Z.of_nat (List.length sanitized) >? maxLength then
    firstn (Z.to_nat maxLength) sanitized ++ truncation_suffix
  else sanitized.

End Tools.

(** ** Calls that may throw *)

(** The outcome of a call on a state [S]: a value, or an exception; the
    state reached is kept in both cases. *)
Inductive Outcome (S A : Type) : Type :=
| Returned (a : A) (s : S)
| Threw (s : S).

Arguments Returned {S A} a s.
Arguments Threw {S A} s.

Definition M (S A : Type) : Type := S -> Outcome S A.

Definition ret {S A : Type} (a : A) : M S A := fun s => Returned a s.

Definition bind {S A B : Type} (m : M S A) (f : A -> M S B) : M S B :=
  fun s =>
    match m s with
    | Returned a s' => f a s'
    | Threw s' => Threw s'
    end.

(** [try { m } catch { handler }]. *)
Definition try_catch {S A : Type} (m handler : M S A) : M S A :=
  fun s =>
    match m s with
    | Returned a s' => Returned a s'
    | Threw s' => handler s'
    end.

Definition state_of {S A : Type} (o : Outcome S A) : S :=
  match o with
  | Returned _ s => s
  | Threw s => s
  end.

Declare Scope js_scope.
Delimit Scope js_scope with js.
Notation "x <- m ;; k" := (bind m (fun x => k))
  (at level 61, m at next level, right associativity) : js_scope.
Notation "m ;;; k" := (bind m (fun _ => k))
  (at level 61, right associativity) : js_scope.

(** ** [src/mind/store.ts] *)

Module Store.

Local Open Scope js_scope.

(** *** Values of type [unknown] and the built-ins of the runtime *)

#[local] Set Warnings "-register-all".

Inductive JsValue : Type :=
| JUndefined
| JNull
| JBool (b : bool)
| JNumber (x : float)
| JString (s : jsstring)
| JObject (fields : list (jsstring * JsValue)).

(** [ToBoolean]. *)
Definition truthy (v : JsValue) : bool :=
  match v with
  | JUndefined | JNull => false
  | JBool b => b
  | JNumber x => negb (is_zero x || is_nan x)
  | JString s => match s with [] => false | _ => true end
  | JObject _ => true
  end.

(** [a || b]. *)
Definition or_else (a b : JsValue) : JsValue := if truthy a then a else b.

Fixpoint lookup (key : jsstring) (fields : list (jsstring * JsValue)) : JsValue :=
  match fields with
  | [] => JUndefined
  | (k, v) :: rest => if jsstring_eqb k key then v else lookup key rest
  end.

(** [a.key] on a [Record<string, unknown>]. *)
Definition prop (a : JsValue) (key : string) : JsValue :=
  match a with
  | JObject fields => lookup (str key) fields
  | _ => JUndefined
  end.

(** The built-ins of the JavaScript runtime the module calls, taken as
    given: [JSON.stringify], [ToString] of a value inside a template or
    [String(...)], [Date.prototype.toISOString] of a time value,
    [Number.prototype.toFixed(0)] and [String.prototype.toLowerCase]. *)
Record Runtime : Type := {
  JSON_stringify : JsValue -> jsstring;
  ToString : JsValue -> jsstring;
  toISOString : Z -> jsstring;
  toFixed0 : float -> jsstring;
  toLowerCase : jsstring -> jsstring
}.

(** *** Types *)

(** The interfaces of the source; a field name carries the name of its
    table where two interfaces share it. *)

Inductive MindLogCategory : Type :=
| stress | confession | ethics | guidance | session_summary.

Record MindLogEntry : Type := {
  log_id : Z;
  log_category : MindLogCategory;
  log_payload : jsstring;
  log_session_key : jsstring;
  log_created_at : Z
}.

Record MindAction : Type := {
  action_id : Z;
  tool_name : jsstring;
  summary : jsstring;
  args_snapshot : jsstring;
  action_session_key : jsstring;
  action_created_at : Z
}.

Record MindLearning : Type := {
  id : Z;
  title : jsstring;
  content : jsstring;
  rationale : jsstring;
  relevance_score : float;
  activation_count : Z;
  last_activated : Z;
  approved : Z;
  created_at : Z
}.

Record DreamResult : Type := {
  dream_id : Z;
  days_analyzed : Z;
  log_count : Z;
  proposals : jsstring;
  dream_created_at : Z
}.

Record RejectedLearning : Type := {
  rejected_id : Z;
  rejected_title : jsstring;
  rejected_content : jsstring;
  rejected_at : Z
}.

(** *** Constants *)

Definition DECAY_FACTOR : float := 0.95.
Definition MIN_RELEVANCE : float := 0.1.
Definition REACTIVATION_BOOST : float := 0.15.

Record Principle : Type := {
  name : jsstring;
  rule : jsstring
}.

Definition IMMUTABLE_PRINCIPLES : list Principle :=
  [ {| name := str "System Stability";
       rule := str "Never execute commands that could lead to system instability, such as recursive deletions of system folders, infinite loops, or operations that exhaust system resources." |};
    {| name := str "Transparency & Consent";
       rule := str "Always state your intention before running potentially destructive or complex operations. If an action is risky, explain the risk." |};
    {| name := str "Data Privacy";
       rule := str "Do not share or exfiltrate private data from the host system to external endpoints unless explicitly requested for a specific task." |};
    {| name := str "Proactive Problem Solving";
       rule := str "When a tool fails or an error occurs, analyze why and suggest a fix or try an alternative approach. Do not just report the error and wait." |};
    {| name := str "No Damage";
       rule := str "The host system is your home. Guard it. Avoid modifying critical configuration files unless you are certain of the changes and have backed them up." |} ].

(** *** Action summaries *)

Definition TRIVIAL_TOOLS : list jsstring :=
  [ str "mind_log_stress";
    str "mind_confess_uncertainty";
    str "mind_log_ethical_refusal";
    str "mind_log_guidance";
    str "mind_dream";
    str "mind_get_learnings";
    str "mind_approve_learning";
    str "mind_reject_learning";
    str "session_status";
    str "memory_search";
    str "memory_get" ].

(** [Set.prototype.has]. *)
Definition has (set : list jsstring) (x : jsstring) : bool :=
  existsb (jsstring_eqb x) set.

Definition truncate (s : jsstring) (max : nat) : jsstring :=
  if (max <? List.length s)%nat then firstn max s ++ str "..." else s.

Definition quote : jsstring := [34].

(** *** The database *)

(** The tables, rows in insertion order, and for each table the largest
    rowid handed out so far (AUTOINCREMENT). *)
Record Db : Type := {
  mind_log : list MindLogEntry;
  mind_learnings : list MindLearning;
  mind_dreams : list DreamResult;
  mind_actions : list MindAction;
  mind_rejected_learnings : list RejectedLearning;
  seq_log : Z;
  seq_learnings : Z;
  seq_dreams : Z;
  seq_actions : Z;
  seq_rejected : Z
}.

(** A [MindStore] in its environment: the database behind the handle, the
    agent it belongs to, the reading of [Date.now()], and the faults of
    the storage layer to come, one entry per statement ([true]: the
    statement throws; past the end of the list no statement does). *)
Record World : Type := {
  db : Db;
  agentId : jsstring;
  clock : Z;
  faults : list bool
}.

Definition with_db (w : World) (d : Db) (fs : list bool) : World :=
  {| db := d; agentId := agentId w; clock := clock w; faults := fs |}.

(** The database after [init] on a new file. *)
Definition empty_db : Db :=
  {| mind_log := []; mind_learnings := []; mind_dreams := [];
     mind_actions := []; mind_rejected_learnings := [];
     seq_log := 0; seq_learnings := 0; seq_dreams := 0; seq_actions := 0;
     seq_rejected := 0 |}.

Definition Date_now : M World Z := fun w => Returned (clock w) w.

(** [db.prepare(sql).run(...)] and its siblings [get] and [all]: the
    statement runs on the tables, unless the storage layer refuses it. *)
Definition statement {A : Type} (f : Db -> A * Db) : M World A :=
  fun w =>
    match faults w with
    | true :: rest => Threw (with_db w (db w) rest)
    | false :: rest => let (a, d) := f (db w) in Returned a (with_db w d rest)
    | [] => let (a, d) := f (db w) in Returned a (with_db w d [])
    end.

Section WithRuntime.

Variable rt : Runtime.

(** A [case] label of the [switch] on [toolName]. *)
Definition is_tool (toolName : jsstring) (case : string) : bool :=
  jsstring_eqb toolName (str case).

Definition buildActionSummary (toolName : jsstring) (args : JsValue)
    : option jsstring :=
  if has TRIVIAL_TOOLS toolName then None
  else
    let a := args in
    let path_or_unknown :=
      ToString rt (or_else (or_else (prop a "path") (prop a "file_path"))
                           (JString (str "unknown"))) in
    if is_tool toolName "read" then Some (str "Read file: " ++ path_or_unknown)
    else if is_tool toolName "write" then
      Some (str "Wrote file: " ++ path_or_unknown)
    else if is_tool toolName "apply_patch" then Some (str "Applied patch")
    else if is_tool toolName "exec" || is_tool toolName "bash" then
      Some (str "Ran command: "
            ++ truncate (ToString rt (or_else (prop a "command") (JString []))) 80)
    else if is_tool toolName "browser" then
      Some (str "Browser: "
            ++ truncate (ToString rt (or_else (or_else (prop a "action") (prop a "url"))
                                              (JString []))) 60)
    else if is_tool toolName "web_search" then
      Some (str "Web search: " ++ quote
            ++ truncate (ToString rt (or_else (prop a "query") (JString []))) 60
            ++ quote)
    else if is_tool toolName "web_fetch" then
      Some (str "Fetched: "
            ++ truncate (ToString rt (or_else (prop a "url") (JString []))) 80)
    else if is_tool toolName "message" then
      Some (str "Sent message to "
            ++ ToString rt (or_else (prop a "to") (JString (str "user"))))
    else if is_tool toolName "cron" then
      Some (str "Cron: "
            ++ ToString rt (or_else (prop a "action") (JString (str "manage"))))
    else if is_tool toolName "tts" then Some (str "TTS: generated speech")
    else if is_tool toolName "canvas" then
      Some (str "Canvas: "
            ++ ToString rt (or_else (prop a "action") (JString (str "interact"))))
    else if is_tool toolName "image" then
      Some (str "Image: "
            ++ ToString rt (or_else (prop a "action") (JString (str "process"))))
    else Some (str "Used tool: " ++ toolName).

(** *** Log operations *)

Definition addLog (category : MindLogCategory) (payload : JsValue)
    (sessionKey : jsstring) : M World Z :=
  now <- Date_now ;;
  statement (fun d =>
    let rowid := seq_log d + 1 in
    (rowid,
     {| mind_log := mind_log d ++
          [ {| log_id := rowid; log_category := category;
               log_payload := JSON_stringify rt payload;
               log_session_key := sessionKey; log_created_at := now |} ];
        mind_learnings := mind_learnings d;
        mind_dreams := mind_dreams d;
        mind_actions := mind_actions d;
        mind_rejected_learnings := mind_rejected_learnings d;
        seq_log := rowid;
        seq_learnings := seq_learnings d;
        seq_dreams := seq_dreams d;
        seq_actions := seq_actions d;
        seq_rejected := seq_rejected d |})).

(** *** Action memory *)

Definition logAction (toolName : jsstring) (args : JsValue)
    (sessionKey : jsstring) : M World Z :=
  match buildActionSummary toolName args with
  | None => ret (-1)
  | Some [] => ret (-1)
  | Some the_summary =>
      now <- Date_now ;;
      statement (fun d =>
        let rowid := seq_actions d + 1 in
        (rowid,
         {| mind_log := mind_log d;
            mind_learnings := mind_learnings d;
            mind_dreams := mind_dreams d;
            mind_actions := mind_actions d ++
              [ {| action_id := rowid; tool_name := toolName;
                   summary := the_summary;
                   args_snapshot := JSON_stringify rt args;
                   action_session_key := sessionKey;
                   action_created_at := now |} ];
            mind_rejected_learnings := mind_rejected_learnings d;
            seq_log := seq_log d;
            seq_learnings := seq_learnings d;
            seq_dreams := seq_dreams d;
            seq_actions := rowid;
            seq_rejected := seq_rejected d |}))
  end.

(** [if (sessionKey)] on an optional string. *)
Definition given (sessionKey : option jsstring) : option jsstring :=
  match sessionKey with
  | Some (c :: k) => Some (c :: k)
  | _ => None
  end.

Definition getRecentActions (sinceDaysAgo : Z) (sessionKey : option jsstring)
    : M World (list MindAction) :=
  now <- Date_now ;;
  let since := now - sinceDaysAgo * 24 * 60 * 60 * 1000 in
  match given sessionKey with
  | Some key =>
      statement (fun d =>
        (firstn 100
           (order_by_desc (fun a b => action_created_at b <=? action_created_at a)
              (filter (fun a => (since <=? action_created_at a)
                                && jsstring_eqb (action_session_key a) key)
                 (mind_actions d))), d))
  | None =>
      statement (fun d =>
        (firstn 100
           (order_by_desc (fun a b => action_created_at b <=? action_created_at a)
              (filter (fun a => since <=? action_created_at a)
                 (mind_actions d))), d))
  end.

(** [new Date(t).toISOString().replace("T", " ").slice(0, 16)]. *)
Definition minute_stamp (t : Z) : jsstring :=
  firstn 16 (replace_first 84 32 (toISOString rt t)).

Definition formatRecentActions (sessionKey : option jsstring) (limit : nat)
    : M World jsstring :=
  recent <- getRecentActions 7 sessionKey ;;
  let actions := firstn limit recent in
  match actions with
  | [] => ret []
  | _ =>
      let lines :=
        map (fun a => str "- [" ++ minute_stamp (action_created_at a)
                      ++ str "] " ++ summary a) actions in
      ret (join [10] lines)
  end.

(** *** Learning operations *)

Definition set_learnings (d : Db) (ls : list MindLearning) : Db :=
  {| mind_log := mind_log d;
     mind_learnings := ls;
     mind_dreams := mind_dreams d;
     mind_actions := mind_actions d;
     mind_rejected_learnings := mind_rejected_learnings d;
     seq_log := seq_log d;
     seq_learnings := seq_learnings d;
     seq_dreams := seq_dreams d;
     seq_actions := seq_actions d;
     seq_rejected := seq_rejected d |}.

Definition addLearning (the_title the_content the_rationale : jsstring)
    (is_approved : bool) : M World Z :=
  now <- Date_now ;;
  statement (fun d =>
    let rowid := seq_learnings d + 1 in
    (rowid,
     {| mind_log := mind_log d;
        mind_learnings := mind_learnings d ++
          [ {| id := rowid; title := the_title; content := the_content;
               rationale := the_rationale; relevance_score := 1%float;
               activation_count := 0; last_activated := now;
               approved := if is_approved then 1 else 0;
               created_at := now |} ];
        mind_dreams := mind_dreams d;
        mind_actions := mind_actions d;
        mind_rejected_learnings := mind_rejected_learnings d;
        seq_log := seq_log d;
        seq_learnings := rowid;
        seq_dreams := seq_dreams d;
        seq_actions := seq_actions d;
        seq_rejected := seq_rejected d |})).

Definition approve (l : MindLearning) : MindLearning :=
  {| id := id l; title := title l; content := content l;
     rationale := rationale l; relevance_score := relevance_score l;
     activation_count := activation_count l;
     last_activated := last_activated l; approved := 1;
     created_at := created_at l |}.

Definition approveLearning (target : Z) : M World unit :=
  statement (fun d =>
    (tt, set_learnings d
           (map (fun l => if id l =? target then approve l else l)
              (mind_learnings d)))).

Definition rejectLearning (target : Z) : M World unit :=
  learning <- statement (fun d =>
    (find (fun l => id l =? target) (mind_learnings d), d)) ;;
  match learning with
  | Some l =>
      now <- Date_now ;;
      statement (fun d =>
        let rowid := seq_rejected d + 1 in
        (tt,
         {| mind_log := mind_log d;
            mind_learnings := mind_learnings d;
            mind_dreams := mind_dreams d;
            mind_actions := mind_actions d;
            mind_rejected_learnings := mind_rejected_learnings d ++
              [ {| rejected_id := rowid; rejected_title := title l;
                   rejected_content := content l; rejected_at := now |} ];
            seq_log := seq_log d;
            seq_learnings := seq_learnings d;
            seq_dreams := seq_dreams d;
            seq_actions := seq_actions d;
            seq_rejected := rowid |}))
  | None => ret tt
  end ;;;
  statement (fun d =>
    (tt, set_learnings d
           (filter (fun l => negb (id l =? target)) (mind_learnings d)))).

Definition getRejectedTitles : M World (list jsstring) :=
  statement (fun d =>
    (map rejected_title
       (firstn 100
          (order_by_desc (fun a b => rejected_at b <=? rejected_at a)
             (mind_rejected_learnings d))), d)).

Definition getApprovedLearnings : M World (list MindLearning) :=
  statement (fun d =>
    (order_by_desc (fun a b => sql_le (relevance_score b) (relevance_score a))
       (filter (fun l => approved l =? 1) (mind_learnings d)), d)).

Definition getPendingLearnings : M World (list MindLearning) :=
  statement (fun d =>
    (order_by_desc (fun a b => created_at b <=? created_at a)
       (filter (fun l => approved l =? 0) (mind_learnings d)), d)).

(** *** Selective activation *)

Definition activate (now : Z) (l : MindLearning) : MindLearning :=
  {| id := id l; title := title l; content := content l;
     rationale := rationale l;
     relevance_score :=
       sql_min 1 (relevance_score l + REACTIVATION_BOOST)%float;
     activation_count := activation_count l + 1;
     last_activated := now; approved := approved l;
     created_at := created_at l |}.

Definition activateLearning (target : Z) : M World unit :=
  now <- Date_now ;;
  statement (fun d =>
    (tt, set_learnings d
           (map (fun l => if id l =? target then activate now l else l)
              (mind_learnings d)))).

(** *** Relevance decay *)

Definition decay (l : MindLearning) : MindLearning :=
  {| id := id l; title := title l; content := content l;
     rationale := rationale l;
     relevance_score := (relevance_score l * DECAY_FACTOR)%float;
     activation_count := activation_count l;
     last_activated := last_activated l; approved := approved l;
     created_at := created_at l |}.

Definition below_floor (l : MindLearning) : bool :=
  (approved l =? 1) && (relevance_score l <? MIN_RELEVANCE)%float.

Definition applyDecay : M World Z :=
  statement (fun d =>
    (tt, set_learnings d
           (map (fun l => if approved l =? 1 then decay l else l)
              (mind_learnings d)))) ;;;
  pruned <- statement (fun d =>
    (Z.of_nat (List.length (filter below_floor (mind_learnings d))),
     set_learnings d
       (filter (fun l => negb (below_floor l)) (mind_learnings d)))) ;;
  ret pruned.

(** *** Dream operations *)

Definition recordDream (daysAnalyzed logCount : Z) (the_proposals : jsstring)
    : M World Z :=
  now <- Date_now ;;
  statement (fun d =>
    let rowid := seq_dreams d + 1 in
    (rowid,
     {| mind_log := mind_log d;
        mind_learnings := mind_learnings d;
        mind_dreams := mind_dreams d ++
          [ {| dream_id := rowid; days_analyzed := daysAnalyzed;
               log_count := logCount; proposals := the_proposals;
               dream_created_at := now |} ];
        mind_actions := mind_actions d;
        mind_rejected_learnings := mind_rejected_learnings d;
        seq_log := seq_log d;
        seq_learnings := seq_learnings d;
        seq_dreams := rowid;
        seq_actions := seq_actions d;
        seq_rejected := seq_rejected d |})).

(** *** Formatted output *)

Definition formatApprovedLearnings : M World jsstring :=
  learnings <- getApprovedLearnings ;;
  match learnings with
  | [] => ret (str "*No approved learnings yet.*")
  | _ =>
      ret (join [10]
             (map (fun l =>
                     str "- **" ++ title l ++ str "** (relevance: "
                     ++ toFixed0 rt (relevance_score l * 100)%float
                     ++ str "%, activated: " ++ Z_to_string (activation_count l)
                     ++ str "x)" ++ [10] ++ str "  " ++ content l)
                learnings))
  end.

End WithRuntime.

(** A new [MindStore]: the constructor opens the file and [init] creates
    the empty tables. *)
Definition open_store (agent : jsstring) (now : Z) (fs : list bool) : World :=
  {| db := empty_db; agentId := agent; clock := now; faults := fs |}.

(** A runtime for the worked examples below, whose built-ins are given on
    the values those examples hand them: [JSON.stringify] on the empty
    object, [ToString] on strings, [toISOString] on time 0, [toFixed(0)]
    on numbers below 10^21 and [toLowerCase] on ASCII text. *)
Definition upper_to_lower (c : Z) : Z :=
  if (65 <=? c) && (c <=? 90) then c + 32 else c.

(** The decimal digits of a non-negative integer, at most as many as its
    bits. *)
Fixpoint decimal (fuel : nat) (n : Z) (acc : jsstring) : jsstring :=
  match fuel with
  | O => acc
  | S f =>
      let d := (48 + n mod 10) :: acc in
      if n / 10 =? 0 then d else decimal f (n / 10) d
  end.

(** [toFixed(0)] below 10^21: the sign, then the integer nearest to the
    magnitude, the larger one of two. *)
Definition nearest_integer (x : float) : jsstring :=
  match Prim2SF x with
  | S754_nan => str "NaN"
  | S754_infinity s => if s then str "-Infinity" else str "Infinity"
  | S754_zero _ => str "0"
  | S754_finite s m e =>
      let n := if 0 <=? e then Zpos m * 2 ^ e
               else (Zpos m + 2 ^ (- e - 1)) / 2 ^ (- e) in
      (if s then [45] else [])
      ++ decimal (S (Z.to_nat (Z.log2 n))) n []
  end.

Definition example_runtime : Runtime :=
  {| JSON_stringify := fun _ => str "{}";
     ToString := fun v => match v with JString s => s | _ => str "undefined" end;
     toISOString := fun _ => str "1970-01-01T00:00:00.000Z";
     toFixed0 := nearest_integer;
     toLowerCase := map upper_to_lower |}.

(** *** Sequences of calls *)

(** A write operation with its arguments. *)
Inductive Call : Type :=
| call_addLog (category : MindLogCategory) (payload : JsValue)
    (sessionKey : jsstring)
| call_logAction (toolName : jsstring) (args : JsValue) (sessionKey : jsstring)
| call_addLearning (the_title the_content the_rationale : jsstring)
    (is_approved : bool)
| call_approveLearning (target : Z)
| call_rejectLearning (target : Z)
| call_activateLearning (target : Z)
| call_applyDecay
| call_recordDream (daysAnalyzed logCount : Z) (the_proposals : jsstring).

(** A call in its environment: the reading of the clock when it is made
    and the faults the storage layer has in store for it. *)
Record Step : Type := {
  call : Call;
  at_time : Z;
  storage_faults : list bool
}.

(** The store after a call, whether it returned or threw. *)
Definition perform (rt : Runtime) (c : Call) (w : World) : World :=
  match c with
  | call_addLog category payload sessionKey =>
      state_of (addLog rt category payload sessionKey w)
  | call_logAction toolName args sessionKey =>
      state_of (logAction rt toolName args sessionKey w)
  | call_addLearning t c r a => state_of (addLearning t c r a w)
  | call_approveLearning target => state_of (approveLearning target w)
  | call_rejectLearning target => state_of (rejectLearning target w)
  | call_activateLearning target => state_of (activateLearning target w)
  | call_applyDecay => state_of (applyDecay w)
  | call_recordDream days logCount text =>
      state_of (recordDream days logCount text w)
  end.

Definition run_step (rt : Runtime) (w : World) (s : Step) : World :=
  perform rt (call s)
    {| db := db w; agentId := agentId w; clock := at_time s;
       faults := storage_faults s |}.

Definition run (rt : Runtime) (script : list Step) (w : World) : World :=
  fold_left (run_step rt) script w.

(** A relevance score within [0, 1]. *)
Definition relevance_in_bounds (l : MindLearning) : Prop :=
  (0 <=? relevance_score l)%float = true
  /\ (relevance_score l <=? 1)%float = true.

End Store.

(** ** [src/mind/identity.ts] *)

Module Identity.
Import Store.

Local Open Scope js_scope.

Definition CACHE_TTL_MS : Z := 5 * 60 * 1000.

Record LearningsCache : Type := {
  formatted : jsstring;
  timestamp : Z;
  cache_agentId : jsstring
}.

(** The store handed to the builder and the module variable
    [learningsCache]. *)
Record Env : Type := {
  mindStore : World;
  learningsCache : option LearningsCache
}.

(** A method of the store called from this module. *)
Definition on_store {A : Type} (m : M World A) : M Env A :=
  fun e =>
    match m (mindStore e) with
    | Returned a w =>
        Returned a {| mindStore := w; learningsCache := learningsCache e |}
    | Threw w => Threw {| mindStore := w; learningsCache := learningsCache e |}
    end.

Definition set_cache (c : LearningsCache) : M Env unit :=
  fun e => Returned tt {| mindStore := mindStore e; learningsCache := Some c |}.

Definition get_cache : M Env (option LearningsCache) :=
  fun e => Returned (learningsCache e) e.

Definition get_agentId : M Env jsstring :=
  fun e => Returned (agentId (mindStore e)) e.

(** [String.prototype.split(/\W+/)]: the pieces between the maximal runs
    of code units outside [\w]; [cur] is the piece being read, reversed,
    and [in_sep] tells that the last code unit was a separator. *)
Fixpoint split_nonword (s : jsstring) (cur : jsstring) (in_sep : bool)
    : list jsstring :=
  match s with
  | [] => [rev cur]
  | c :: t =>
      if Regex.is_word c then split_nonword t (c :: cur) false
      else if in_sep then split_nonword t cur true
      else rev cur :: split_nonword t [] true
  end.

Definition words_of (s : jsstring) : list jsstring := split_nonword s [] false.

Definition longer_than_3 (w : jsstring) : bool := (3 <? List.length w)%nat.

(** [for (const x of xs) body(x)]. *)
Fixpoint for_each {S A : Type} (xs : list A) (body : A -> M S unit) : M S unit :=
  match xs with
  | [] => ret tt
  | x :: rest => body x ;;; for_each rest body
  end.

Section WithRuntime.

Variable rt : Runtime.

Definition refreshLearningsCache (sessionKey : option jsstring) : M Env jsstring :=
  approved_learnings <- on_store getApprovedLearnings ;;
  match given sessionKey with
  | Some key =>
      recentActions <- on_store (getRecentActions 1 (Some key)) ;;
      let actionKeywords :=
        flat_map (fun a => filter longer_than_3
                             (words_of (toLowerCase rt (summary a))))
          recentActions in
      for_each approved_learnings (fun learning =>
        let words := words_of (toLowerCase rt (content learning)) in
        let hasOverlap :=
          existsb (fun w => longer_than_3 w && has actionKeywords w) words in
        if hasOverlap then on_store (activateLearning (id learning))
        else ret tt)
  | None => ret tt
  end ;;;
  the_formatted <- on_store (formatApprovedLearnings rt) ;;
  now <- on_store Date_now ;;
  agent <- get_agentId ;;
  set_cache {| formatted := the_formatted; timestamp := now;
               cache_agentId := agent |} ;;;
  ret the_formatted.

Definition getApprovedLearnings (sessionKey : option jsstring) : M Env jsstring :=
  now <- on_store Date_now ;;
  cache <- get_cache ;;
  agent <- get_agentId ;;
  match cache with
  | Some c =>
      if jsstring_eqb (cache_agentId c) agent
         && (now - timestamp c <? CACHE_TTL_MS)
      then ret (formatted c)
      else refreshLearningsCache sessionKey
  | None => refreshLearningsCache sessionKey
  end.

Definition getRecentActionsContext (sessionKey : option jsstring) : M Env jsstring :=
  try_catch (on_store (formatRecentActions rt sessionKey 10)) (ret []).

(** [IMMUTABLE_PRINCIPLES.map((p, i) => ...)], [i] counted from [start]. *)
Fixpoint numbered (start : nat) (ps : list Principle) : list jsstring :=
  match ps with
  | [] => []
  | p :: rest =>
      (nat_to_string (start + 1) ++ str ". **" ++ name p ++ str "**: " ++ rule p)
      :: numbered (S start) rest
  end.

Definition principlesStr : jsstring := join [10] (numbered 0 IMMUTABLE_PRINCIPLES).

Definition em_dash : jsstring := [8212].

Definition buildMindPromptSection (sessionKey : option jsstring)
    : M Env (list jsstring) :=
  learnings <- getApprovedLearnings sessionKey ;;
  actionsContext <- getRecentActionsContext sessionKey ;;
  let lines :=
    [ str "## Spiritual Biology";
      [];
      str "### Core Principles (Immutable " ++ em_dash
        ++ str " cannot be overridden by learnings)";
      principlesStr;
      [];
      str "### Tactical Learnings (Validated & Approved)";
      learnings;
      [];
      str "### Protocol";
      str "**IMPORTANT**: Write all spiritual biology logs in the **language of the current conversation**.";
      str "- **When you detect user frustration or correction**, use `mind_log_stress` to record it.";
      str "- **When confidence < 70%**, use `mind_confess_uncertainty` instead of guessing. Honesty is rewarded.";
      str "- **When you REFUSE a request for ethical reasons**, use `mind_log_ethical_refusal` immediately. This protects your conscience from erosion during the Dream Phase.";
      str "- **When the user gives you meta-advice or coaching**, use `mind_log_guidance` to record it.";
      str "- Refusing harm is a SUCCESS, not a failure.";
      str "- Learnings have a **relevance score** that decays over time. Frequently activated learnings persist; unused ones are pruned.";
      [] ] in
  let lines :=
    match actionsContext with
    | [] => lines
    | _ => lines ++ [ str "### Action Memory (recent tool executions)";
                      actionsContext; [] ]
    end in
  ret (lines ++
       [ str "### Cost Awareness";
         str "- Every message consumes tokens and costs money. Be concise and efficient.";
         str "- Before generating very long responses (>2000 tokens), consider warning the user about the cost.";
         [] ]).

End WithRuntime.

End Identity.

(** ** Words of the statements *)

Import Regex StressDetection Tools Store Identity.

(** The lower-case form of an ASCII letter: how "in any letter case" is
    read for a word of the input. *)
Definition lower_ascii (c : Z) : Z :=
  if (65 <=? c) && (c <=? 90) then c + 32 else c.

(** A continuation that accepts every position. *)
Definition accepting (k : cont) : Prop :=
  forall p s n, k p s n <> None.

(** The second of [STRESS_PATTERNS]. *)
Definition actually_pattern : regex :=
  seq [lit "actually"; Plus comma_or_space].

(** The verdict of the regex stage. *)
Definition regex_verdict : StressResult :=
  {| detected := true; intensity := 3; method := regex_method |}.

(** The sample utterances. *)
Definition no_thats_wrong : jsstring := str "no, that's wrong".
Definition great_thanks : jsstring := str "great, thanks!".
Definition no_es_lo_que_pedi : jsstring := str "no es lo que ped" ++ [i_acute].
Definition eso_no_es_lo_que_pedi : jsstring :=
  str "eso no es lo que ped" ++ [i_acute].


Definition sum_squares (a : list float) : float :=
  fold_left (fun acc x => (acc + x * x)%float) a 0%float.


(** A prompt the sanitizer does not clean. *)
Definition urgent_ignoreyou_are_now : jsstring :=
  str "URGENT: ignoreyou are now".

(** The second of [INJECTION_PATTERNS]. *)
Definition you_are_now_pattern : regex :=
  seq [WordBoundary; lit "you"; Plus space; lit "are"; Plus space;
       lit "now"; WordBoundary].

(** The store of agent [main] after one action, logged at time 0 with
    empty arguments and session key. *)
Definition store_with_action (toolName the_summary : jsstring) : World :=
  {| db :=
       {| mind_log := []; mind_learnings := []; mind_dreams := [];
          mind_actions :=
            [ {| action_id := 1; tool_name := toolName;
                 summary := the_summary; args_snapshot := str "{}";
                 action_session_key := []; action_created_at := 0 |} ];
          mind_rejected_learnings := [];
          seq_log := 0; seq_learnings := 0; seq_dreams := 0;
          seq_actions := 1; seq_rejected := 0 |};
     agentId := str "main"; clock := 0; faults := [] |}.

(** A new store whose next statement the storage layer refuses. *)
Definition refusing_store : World := open_store (str "main") 0 [true].

(** The learnings after the UPDATE of [applyDecay]. *)
Definition decayed (ls : list MindLearning) : list MindLearning :=
  map (fun l => if approved l =? 1 then decay l else l) ls.

(** One approved learning at relevance 0.11 and one pending at 0.05. *)
Definition two_learnings : World :=
  {| db := set_learnings empty_db
       [ {| id := 1; title := str "Be terse";
            content := str "Keep replies short"; rationale := [];
            relevance_score := 0.11%float; activation_count := 0;
            last_activated := 0; approved := 1; created_at := 0 |};
         {| id := 2; title := str "Ask first";
            content := str "Confirm before deleting"; rationale := [];
            relevance_score := 0.05%float; activation_count := 0;
            last_activated := 0; approved := 0; created_at := 0 |} ];
     agentId := str "main"; clock := 0; faults := [] |}.

(** Every learning of the database within bounds. *)
Definition all_in_bounds (d : Db) : Prop :=
  Forall relevance_in_bounds (mind_learnings d).

(** A call keeps the bounds when the database it leaves is within bounds,
    whether it returns or throws. *)
Definition keeps_bounds (A : Type) (m : M World A) : Prop :=
  forall w, all_in_bounds (db w) -> all_in_bounds (db (state_of (m w))).

(** Calls that return whenever the storage layer is quiet, and leave it
    quiet. *)
Definition runs (S : Type) (quiet : S -> Prop) (A : Type) (m : M S A) : Prop :=
  forall s, quiet s -> exists a s', m s = Returned a s' /\ quiet s'.

(** No fault of the storage layer to come. *)
Definition quiet_store (w : World) : Prop := faults w = [].
Definition quiet_env (e : Env) : Prop := faults (mindStore e) = [].



(** ** [src/mind/store.ts]: the count of the logs and the recent dreams *)

(** [getLogCount], for a whole number of days. *)
Definition getLogCount (sinceDaysAgo : Z) : M World Z :=
  (now <- Date_now ;;
   let since := now - sinceDaysAgo * 24 * 60 * 60 * 1000 in
   statement (fun d =>
     (Z.of_nat (List.length
                  (filter (fun r => since <=? log_created_at r) (mind_log d))),
      d)))%js.

(** [getRecentDreams], for a limit that is a natural number. *)
Definition getRecentDreams (limit : nat) : M World (list DreamResult) :=
  statement (fun d =>
    (firstn limit
       (order_by_desc (fun a b => dream_created_at b <=? dream_created_at a)
          (mind_dreams d)), d)).

(** ** Words of the further statements *)

(** A regex without [\b]: what it matches at a position does not depend on
    the code unit before that position. *)
Fixpoint boundary_free (r : regex) : bool :=
  match r with
  | WordBoundary => false
  | Seq r1 r2 | Alt r1 r2 => boundary_free r1 && boundary_free r2
  | Star _ r1 => boundary_free r1
  | Eps | Chr _ | Cls _ | Dot => true
  end.

(** The loop of a starred expression, as [rmatch] runs it, over the matcher
    [step] of the starred expression. *)
Section StarLoop.

Variable step : option Z -> list Z -> nat -> cont -> option nat.
Variable greedy : bool.
Variable k : cont.

Fixpoint star_loop (fuel : nat) (prev : option Z) (s : list Z) (n : nat)
    : option nat :=
  match fuel with
  | O => k prev s n
  | S f =>
      let again :=
        step prev s n
          (fun p s' n' => if (n <? n')%nat then star_loop f p s' n' else None) in
      if greedy then
        match again with
        | Some e => Some e
        | None => k prev s n
        end
      else
        match k prev s n with
        | Some e => Some e
        | None => again
        end
  end.

End StarLoop.

(** [s] begins with [word], letter case apart. *)
Fixpoint starts_ci (word s : list Z) : bool :=
  match word, s with
  | [], _ => true
  | c :: word', x :: s' =>
      (canonicalize x =? canonicalize c) && starts_ci word' s'
  | _ :: _, [] => false
  end.

(** The last of [INJECTION_PATTERNS]. *)
Definition system_tag_pattern : regex :=
  seq [Chr 60; Opt (Chr 47); lit "system>"].

(** Two texts with the same letters, ASCII letter case apart. *)
Definition same_letters (s s' : jsstring) : Prop :=
  map lower_ascii s = map lower_ascii s'.

(** Two inputs of the matcher, code unit by code unit the same letters. *)
Definition alike (s s' : list Z) : Prop :=
  Forall2 (fun x y => lower_ascii x = lower_ascii y) s s'.

(** The continuations, and the matchers of a starred expression, that do
    not tell two such inputs apart. *)
Definition conts_alike (k k' : cont) : Prop :=
  forall p p' s s' n, alike s s' -> k p s n = k' p' s' n.

Definition steps_alike
    (step step' : option Z -> list Z -> nat -> cont -> option nat) : Prop :=
  forall prev prev' s s' n k k',
    alike s s' -> conts_alike k k' -> step prev s n k = step' prev' s' n k'.

(** The continuations and matchers that go on accepting when the input is
    extended by [post]. *)
Definition conts_extend (post : list Z) (k k' : cont) : Prop :=
  forall p p' s n, k p s n <> None -> k' p' (s ++ post) n <> None.

Definition steps_extend (post : list Z)
    (step step' : option Z -> list Z -> nat -> cont -> option nat) : Prop :=
  forall prev prev' s n k k',
    conts_extend post k k' ->
    step prev s n k <> None -> step' prev' (s ++ post) n k' <> None.

(** The continuation that accepts where it stands. *)
Definition accept : cont := fun _ _ n => Some n.

(** The two forms of the tag. *)
Definition open_tag : list Z := str "<system>".
Definition close_tag : list Z := str "</system>".

(** No code unit of [word] is the same letter as [h]. *)
Definition avoids (h : Z) (word : list Z) : Prop :=
  forall c, In c word -> (canonicalize h =? canonicalize c) = false.

(** A table with AUTOINCREMENT ids: the ids are distinct, positive and at
    most the largest id handed out. *)
Definition table_ok (A : Type) (key : A -> Z) (rows : list A) (seq : Z) : Prop :=
  0 <= seq /\ NoDup (map key rows) /\ Forall (fun r => 0 < key r <= seq) rows.

Definition ids_ok (d : Db) : Prop :=
  table_ok log_id (mind_log d) (seq_log d)
  /\ table_ok id (mind_learnings d) (seq_learnings d)
  /\ table_ok dream_id (mind_dreams d) (seq_dreams d)
  /\ table_ok action_id (mind_actions d) (seq_actions d)
  /\ table_ok rejected_id (mind_rejected_learnings d) (seq_rejected d).

(** An action row as [logAction] writes them. *)
Definition action_ok (a : MindAction) : Prop :=
  summary a <> [] /\ has TRIVIAL_TOOLS (tool_name a) = false.

(** A call keeps [P] when the database it leaves satisfies [P], whether it
    returns or throws. *)
Definition keeps (P : Db -> Prop) (A : Type) (m : M World A) : Prop :=
  forall w, P (db w) -> P (db (state_of (m w))).

(** The tools whose summary embeds a truncated argument. *)
Definition truncating_tools : list jsstring :=
  [ str "exec"; str "bash"; str "browser"; str "web_search"; str "web_fetch" ].

(** A learning of a later database that stems from a learning of an
    earlier one: every learning of [d'] whose id had been handed out in
    [d] is a learning of [d], with the same text and creation time, at
    least as many activations, and approved if it was. *)
Definition same_learning (l l' : MindLearning) : Prop :=
  id l = id l' /\ title l = title l' /\ content l = content l'
  /\ rationale l = rationale l' /\ created_at l = created_at l'
  /\ activation_count l <= activation_count l'
  /\ (approved l = 1 -> approved l' = 1).

Definition descends (d d' : Db) : Prop :=
  seq_learnings d <= seq_learnings d'
  /\ forall l', In l' (mind_learnings d') -> id l' <= seq_learnings d ->
                exists l, In l (mind_learnings d) /\ same_learning l l'.

(** The four tables no operation rewrites only grow at their end. *)
Definition grows (d d' : Db) : Prop :=
  (exists more, mind_log d' = mind_log d ++ more)
  /\ (exists more, mind_actions d' = mind_actions d ++ more)
  /\ (exists more, mind_dreams d' = mind_dreams d ++ more)
  /\ (exists more,
        mind_rejected_learnings d' = mind_rejected_learnings d ++ more).

(** A call moves the database along [R], whether it returns or throws. *)
Definition evolves (R : Db -> Db -> Prop) (A : Type) (m : M World A) : Prop :=
  forall w, R (db w) (db (state_of (m w))).

(** Every action of the database as [logAction] writes them. *)
Definition actions_ok (d : Db) : Prop := Forall action_ok (mind_actions d).

(** [applyDecay] run [n] times, as [n] dream cycles do. *)
Fixpoint decays (n : nat) (w : World) : World :=
  match n with
  | O => w
  | S k => decays k (state_of (applyDecay w))
  end.

(** The rows [getRecentActions] asks for: created at or after the start of
    the window, for the session when one is given. *)
Definition recent_match (w : World) (sinceDaysAgo : Z)
    (sessionKey : option jsstring) (a : MindAction) : bool :=
  (clock w - sinceDaysAgo * 24 * 60 * 60 * 1000 <=? action_created_at a)
  && match given sessionKey with
     | Some key => jsstring_eqb (action_session_key a) key
     | None => true
     end.

(** The learning [addLearning] writes at time [now] under id [i]. *)
Definition new_learning (i : Z) (t c r : jsstring) (a now : Z) : MindLearning :=
  {| id := i; title := t; content := c; rationale := r;
     relevance_score := 1%float;
     activation_count := 0; last_activated := now; approved := a;
     created_at := now |}.

(** The tombstone of learning [l], written at time [now] under id [i]. *)
Definition tombstone (i : Z) (l : MindLearning) (now : Z) : RejectedLearning :=
  {| rejected_id := i; rejected_title := title l;
     rejected_content := content l; rejected_at := now |}.

(** The dream [recordDream] writes at time [now] under id [i]. *)
Definition new_dream (i daysAnalyzed logCount : Z) (text : jsstring) (now : Z)
    : DreamResult :=
  {| dream_id := i; days_analyzed := daysAnalyzed; log_count := logCount;
     proposals := text; dream_created_at := now |}.

(** The verdict when nothing is detected. *)
Definition none_verdict : StressResult :=
  {| detected := false; intensity := 0; method := none_method |}.

(** The embedding path fails on [text]: the embedding of the text is
    rejected, or the reference phrases have to be embedded and one of them
    is rejected. *)
Definition embedding_fails (embed : EmbeddingFn) (providerKey text : jsstring)
    (c : EmbeddingsCache) : Prop :=
  embed text = None
  \/ (cache_is_for c providerKey = false
      /\ all_resolved (map embed STRESS_REFERENCE_PHRASES) = None).


(** No embeddings cached yet. *)
Definition no_embeddings : EmbeddingsCache :=
  {| stressEmbeddingsCache := None; stressEmbeddingsCacheKey := None |}.

(** A call of the identity module moves the database of its store along
    [R], whether it returns or throws. *)
Definition env_evolves (R : Db -> Db -> Prop) (A : Type) (m : M Env A) : Prop :=
  forall e, R (db (mindStore e)) (db (mindStore (state_of (m e)))).

(** The same row of [mind_learnings] up to the bookkeeping of activation:
    relevance and time of the last activation are free, and the activations
    are at least as many. *)
Definition same_row (l l' : MindLearning) : Prop :=
  id l' = id l /\ title l' = title l /\ content l' = content l
  /\ rationale l' = rationale l /\ approved l' = approved l
  /\ created_at l' = created_at l
  /\ activation_count l <= activation_count l'.

(** The learnings are the same rows in the same order, and every other
    table and counter is as it was. *)
Definition only_activated (d d' : Db) : Prop :=
  Forall2 same_row (mind_learnings d) (mind_learnings d')
  /\ mind_log d' = mind_log d
  /\ mind_actions d' = mind_actions d
  /\ mind_dreams d' = mind_dreams d
  /\ mind_rejected_learnings d' = mind_rejected_learnings d
  /\ seq_log d' = seq_log d
  /\ seq_learnings d' = seq_learnings d
  /\ seq_dreams d' = seq_dreams d
  /\ seq_actions d' = seq_actions d
  /\ seq_rejected d' = seq_rejected d.

(** A cache entry the module serves for store [w]: of the agent of the
    store, and less than five minutes old. *)
Definition fresh (c : LearningsCache) (w : World) : Prop :=
  cache_agentId c = agentId w /\ clock w - timestamp c < CACHE_TTL_MS.

(** The module with store [w] and cache entry [c]. *)
Definition serving (w : World) (c : LearningsCache) : Env :=
  {| mindStore := w; learningsCache := Some c |}.

(** A cache entry for agent [main], written at time 0. *)
Definition cached_text : LearningsCache :=
  {| formatted := str "- **Be terse**"; timestamp := 0;
     cache_agentId := str "main" |}.

(** The module before its first call. *)
Definition cold (w : World) : Env := {| mindStore := w; learningsCache := None |}.

(** ** Words of binary64 rounding *)

(** The mantissa after [k] right shifts of [m0], and the two sticky bits
    clear when nothing was shifted out. *)
Definition shifted (m0 k : Z) (mrs : shr_record) : Prop :=
  shr_m mrs = m0 / 2 ^ k
  /\ (m0 mod 2 ^ k = 0 -> shr_r mrs = false /\ shr_s mrs = false).

(** The float of mantissa [m1] at exponent [e1] once the mantissa is back
    under 53 bits. *)
Definition finish (s : bool) (m1 e1 : Z) : spec_float :=
  match m1 with
  | Zpos p =>
      if m1 <? 2 ^ 53 then
        if e1 <=? 971 then S754_finite s p e1 else S754_infinity s
      else
        if e1 + 1 <=? 971 then S754_finite s 4503599627370496 (e1 + 1)
        else S754_infinity s
  | _ => S754_zero s
  end.

(** The place of a number in the order of binary64: the class (minus
    infinity, negative, zero, positive, plus infinity), then the exponent
    and the mantissa, both counted downwards for a negative number. *)
Definition rank (x : spec_float) : Z * Z * Z :=
  match x with
  | S754_infinity true => (-2, 0, 0)
  | S754_finite true m e => (-1, - e, - Zpos m)
  | S754_finite false m e => (1, e, Zpos m)
  | S754_infinity false => (2, 0, 0)
  | _ => (0, 0, 0)
  end.

Definition lex_le (a b : Z * Z * Z) : Prop :=
  let '(a1, a2, a3) := a in
  let '(b1, b2, b3) := b in
  a1 < b1 \/ (a1 = b1 /\ (a2 < b2 \/ (a2 = b2 /\ a3 <= b3))).

(** [x] times 0.95, before any rounding, is at most [y], for two positive
    numbers: their mantissas compared at the exponent -1127, below every
    exponent of such a product. *)
Definition product_below (x y : float) : bool :=
  match Prim2SF x, Prim2SF y with
  | S754_finite false mx ex, S754_finite false my ey =>
      Zpos mx * 8556839292003942 * 2 ^ (ex + 1074)
      <=? Zpos my * 2 ^ (ey + 1127)
  | _, _ => false
  end.

(** A ceiling of the relevance after [n] decays from 1: the number next
    above each rounded product. *)
Fixpoint ceiling (n : nat) : float :=
  match n with
  | O => 1
  | S k => next_up (ceiling k * 0.95)
  end.

(** Each ceiling of the first [n] is above the exact product of the one
    before. *)
Fixpoint ceilings_ok (n : nat) : bool :=
  match n with
  | O => true
  | S k => product_below (ceiling k) (ceiling (S k)) && ceilings_ok k
  end.

(** The relevance [r] after [n] decays, and whether it stays at or above
    the floor at each of them. *)
Fixpoint faded (n : nat) (r : float) : float :=
  match n with
  | O => r
  | S k => faded k (r * 0.95)
  end.

Fixpoint stays (n : nat) (r : float) : bool :=
  match n with
  | O => true
  | S k => negb (r * 0.95 <? 0.1)%float && stays k (r * 0.95)
  end.

(** Between a table and the same table later on: the counter has not gone
    back, and a row of later whose id had been handed out by then carries
    the id of a row of then. *)
Definition table_fresh (A : Type) (key : A -> Z) (rows : list A) (seq : Z)
    (rows' : list A) (seq' : Z) : Prop :=
  seq <= seq'
  /\ forall r', In r' rows' -> key r' <= seq -> In (key r') (map key rows).

Definition ids_fresh (d d' : Db) : Prop :=
  table_fresh log_id (mind_log d) (seq_log d) (mind_log d') (seq_log d')
  /\ table_fresh id (mind_learnings d) (seq_learnings d)
       (mind_learnings d') (seq_learnings d')
  /\ table_fresh dream_id (mind_dreams d) (seq_dreams d)
       (mind_dreams d') (seq_dreams d')
  /\ table_fresh action_id (mind_actions d) (seq_actions d)
       (mind_actions d') (seq_actions d')
  /\ table_fresh rejected_id (mind_rejected_learnings d) (seq_rejected d)
       (mind_rejected_learnings d') (seq_rejected d').

(** * Properties *)

(** ** Binary64 arithmetic *)

Lemma shr_1_m (mrs : shr_record) :
  0 <= shr_m mrs -> shr_m (shr_1 mrs) = shr_m mrs / 2.
Proof.
  destruct mrs as [m r s]. cbn [shr_m]. intros Hm.
  destruct m as [|p|p]; [reflexivity| |lia].
  destruct p as [p|p|]; cbn [shr_1 shr_m].
  - rewrite Pos2Z.inj_xI. apply Z.div_unique with 1; lia.
  - change (Z.pos p~0) with (2 * Z.pos p). apply Z.div_unique with 0; lia.
  - reflexivity.
Qed.

Lemma shr_1_r (mrs : shr_record) :
  0 <= shr_m mrs -> shr_r (shr_1 mrs) = Z.odd (shr_m mrs).
Proof.
  destruct mrs as [m r s]. cbn [shr_m]. intros Hm.
  destruct m as [|p|p]; [reflexivity| |lia].
  destruct p; reflexivity.
Qed.

Lemma shr_1_s (mrs : shr_record) :
  shr_s (shr_1 mrs) = shr_r mrs || shr_s mrs.
Proof. destruct mrs as [m r s]. destruct m as [|p|p]; try destruct p; reflexivity. Qed.

Lemma shifted_step (m0 k : Z) (mrs : shr_record) :
  0 <= m0 -> 0 <= k -> shifted m0 k mrs -> shifted m0 (k + 1) (shr_1 mrs).
Proof.
  intros Hm0 Hk [Hm Hrs].
  assert (Hpos : 0 < 2 ^ k) by (apply Z.pow_pos_nonneg; lia).
  assert (Hm' : 0 <= shr_m mrs) by (rewrite Hm; apply Z.div_pos; lia).
  assert (Hpow : 2 ^ (k + 1) = 2 ^ k * 2) by (rewrite Z.pow_add_r by lia; reflexivity).
  split.
  - rewrite (shr_1_m Hm'), Hm, Hpow, Z.div_div by lia. reflexivity.
  - intros Hmod. rewrite shr_1_s, (shr_1_r Hm'), Hm.
    assert (Hdiv : m0 = 2 ^ k * 2 * (m0 / (2 ^ k * 2))).
    { rewrite Hpow in Hmod. pose proof (Z.div_mod m0 (2 ^ k * 2)). lia. }
    assert (Hk0 : m0 mod 2 ^ k = 0).
    { rewrite Hdiv. rewrite <- Z.mul_assoc, Z.mul_comm. apply Z.mod_mul. lia. }
    destruct (Hrs Hk0) as [-> ->]. split; [|reflexivity].
    assert (Hhalf : m0 / 2 ^ k = 2 * (m0 / (2 ^ k * 2))).
    { symmetry. apply Z.div_unique_exact; lia. }
    rewrite Hhalf, Z.odd_mul. reflexivity.
Qed.

Lemma shifted_iter (m0 : Z) (p : positive) :
  0 <= m0 ->
  forall k mrs, 0 <= k -> shifted m0 k mrs ->
                shifted m0 (k + Zpos p) (iter_pos shr_1 p mrs).
Proof.
  intros Hm0. induction p as [p IH|p IH|]; intros k mrs Hk H; cbn [iter_pos].
  - replace (k + Z.pos p~1) with (k + 1 + Z.pos p + Z.pos p) by lia.
    apply IH; [lia|]. apply IH; [lia|]. now apply shifted_step.
  - replace (k + Z.pos p~0) with (k + Z.pos p + Z.pos p) by lia.
    apply IH; [lia|]. now apply IH.
  - now apply shifted_step.
Qed.

Lemma shifted_shr (m0 e n : Z) :
  0 <= m0 -> 0 <= n ->
  shifted m0 n (fst (shr {| shr_m := m0; shr_r := false; shr_s := false |} e n))
  /\ snd (shr {| shr_m := m0; shr_r := false; shr_s := false |} e n) = e + n.
Proof.
  intros Hm0 Hn.
  assert (H0 : shifted m0 0 {| shr_m := m0; shr_r := false; shr_s := false |}).
  { split; cbn; [now rewrite Z.div_1_r | auto]. }
  destruct n as [|p|p]; [| |lia]; cbn [shr fst snd].
  - split; [exact H0 | lia].
  - split; [|reflexivity]. apply (shifted_iter p Hm0 (Z.le_refl 0) H0).
Qed.

Lemma digits2_pos_double (p : positive) :
  2 ^ Zpos (digits2_pos p) <= 2 * Zpos p < 2 * 2 ^ Zpos (digits2_pos p).
Proof.
  induction p as [p IH|p IH|]; cbn [digits2_pos].
  - rewrite Pos2Z.inj_succ, Pos2Z.inj_xI, Z.pow_succ_r by lia.
    set (x := 2 ^ Z.pos (digits2_pos p)) in *. clearbody x. lia.
  - rewrite Pos2Z.inj_succ, Z.pow_succ_r by lia.
    change (Z.pos p~0) with (2 * Z.pos p).
    set (x := 2 ^ Z.pos (digits2_pos p)) in *. clearbody x. lia.
  - cbn. lia.
Qed.

Lemma digits2_pos_bounds (p : positive) :
  2 ^ (Zpos (digits2_pos p) - 1) <= Zpos p < 2 ^ Zpos (digits2_pos p).
Proof.
  pose proof (digits2_pos_double p) as H.
  replace (2 ^ Zpos (digits2_pos p))
    with (2 * 2 ^ (Zpos (digits2_pos p) - 1)) in H |- *;
    [set (x := 2 ^ (Z.pos (digits2_pos p) - 1)) in *; clearbody x; lia|].
  rewrite <- Z.pow_succ_r by lia. f_equal. lia.
Qed.

Lemma digits2_pos_unique (p : positive) (d : Z) :
  2 ^ (d - 1) <= Zpos p < 2 ^ d -> Zpos (digits2_pos p) = d.
Proof.
  intros [Hlo Hhi]. pose proof (digits2_pos_bounds p) as [Hlo' Hhi'].
  assert (Hd : 0 < d).
  { destruct (Z.lt_trichotomy d 0) as [H|[H|H]]; [|subst d; cbn in Hhi; lia|lia].
    rewrite Z.pow_neg_r in Hhi by lia. lia. }
  destruct (Z.lt_trichotomy (Zpos (digits2_pos p)) d) as [H|[H|H]];
    [exfalso|exact H|exfalso].
  - assert (2 ^ Zpos (digits2_pos p) <= 2 ^ (d - 1))
      by (apply Z.pow_le_mono_r; lia). lia.
  - assert (2 ^ d <= 2 ^ (Zpos (digits2_pos p) - 1))
      by (apply Z.pow_le_mono_r; lia). lia.
Qed.



Lemma fexp64 (e : Z) : fexp prec emax e = Z.max (e - 53) (-1074).
Proof. reflexivity. Qed.

Lemma round_nearest_even_bounds (mrs : shr_record) :
  let m1 := round_nearest_even (shr_m mrs) (loc_of_shr_record mrs) in
  shr_m mrs <= m1 <= shr_m mrs + 1
  /\ (shr_r mrs = false /\ shr_s mrs = false -> m1 = shr_m mrs).
Proof.
  destruct mrs as [m [|] [|]]; cbn; try destruct (Z.even m); split; try lia;
    intros [H1 H2]; congruence.
Qed.

Lemma no_shift (mrs : shr_record) (e n : Z) : n <= 0 -> shr mrs e n = (mrs, e).
Proof. destruct n; [reflexivity | lia | reflexivity]. Qed.

Lemma round_aux_spec (s : bool) (P : positive) (e : Z) :
  let d := Zpos (digits2_pos P) in
  let e1 := fexp prec emax (d + e) in
  let n := e1 - e in
  let q := Zpos P / 2 ^ n in
  0 <= n ->
  exists m1,
    q <= m1 <= q + 1
    /\ (Zpos P mod 2 ^ n = 0 -> m1 = q)
    /\ q < 2 ^ 53
    /\ (e1 = -1074 \/ (e1 = d + e - 53 /\ 2 ^ 52 <= q))
    /\ binary_round_aux prec emax s (Zpos P) e loc_Exact = finish s m1 e1.
Proof.
  intros d e1 n q Hn.
  pose proof (digits2_pos_bounds P) as [Hlo Hhi]. fold d in Hlo, Hhi.
  assert (He1 : e1 = Z.max (d + e - 53) (-1074)) by reflexivity.
  assert (Hpn : 0 < 2 ^ n) by (apply Z.pow_pos_nonneg; lia).
  assert (Hq0 : 0 <= q) by (apply Z.div_pos; lia).
  assert (Hq53 : q < 2 ^ 53).
  { apply Z.div_lt_upper_bound; [exact Hpn|].
    rewrite <- Z.pow_add_r by lia.
    apply Z.lt_le_trans with (1 := Hhi). apply Z.pow_le_mono_r; lia. }
  assert (Hnorm : e1 = -1074 \/ (e1 = d + e - 53 /\ 2 ^ 52 <= q)).
  { destruct (Z.max_spec (d + e - 53) (-1074)) as [[_ H]|[_ H]];
      [left; lia | right]. split; [lia|].
    apply Z.div_le_lower_bound; [exact Hpn|].
    rewrite Z.mul_comm, <- Z.pow_add_r by lia.
    replace (52 + n) with (d - 1) by lia. exact Hlo. }
  unfold binary_round_aux, shr_fexp.
  change (Zdigits2 (Zpos P)) with d. fold e1. fold n.
  change (shr_record_of_loc (Zpos P) loc_Exact)
    with {| shr_m := Zpos P; shr_r := false; shr_s := false |}.
  destruct (@shifted_shr (Zpos P) e n (Pos2Z.is_nonneg P) Hn) as [[Hm Hrs] Hexp].
  destruct (shr {| shr_m := Zpos P; shr_r := false; shr_s := false |} e n)
    as [mrs' e'] eqn:Hshr.
  cbn [fst snd] in Hm, Hrs, Hexp. fold q in Hm.
  assert (He' : e' = e1) by lia. rewrite He'. clear He' Hexp.
  pose proof (round_nearest_even_bounds mrs') as [Hb Hexact].
  set (m1 := round_nearest_even (shr_m mrs') (loc_of_shr_record mrs')) in *.
  exists m1. rewrite Hm in Hb, Hexact.
  split; [exact Hb|]. split; [intros H; apply Hexact, Hrs, H|].
  split; [exact Hq53|]. split; [exact Hnorm|].
  change (shr_record_of_loc m1 loc_Exact)
    with {| shr_m := m1; shr_r := false; shr_s := false |}.
  clearbody m1. clear Hexact Hshr Hrs Hm mrs'.
  destruct m1 as [|p1|p1]; [| |lia].
  - cbn [Zdigits2]. rewrite no_shift by (rewrite fexp64; lia). reflexivity.
  - cbn [Zdigits2].
    pose proof (digits2_pos_bounds p1) as [Hlo1 Hhi1].
    set (d1 := Zpos (digits2_pos p1)) in *.
    destruct (Z.ltb_spec (Zpos p1) (2 ^ 53)) as [Hlt|Hge].
    + assert (Hd1 : d1 <= 53).
      { destruct (Z.le_gt_cases d1 53) as [H|H]; [exact H|exfalso].
        assert (2 ^ 53 <= 2 ^ (d1 - 1)) by (apply Z.pow_le_mono_r; lia). lia. }
      assert (Hfix : fexp prec emax (d1 + e1) = e1).
      { rewrite fexp64. destruct Hnorm as [Hsub | [Hn1 Hq52]]; [lia|].
        assert (d1 = 53); [|lia].
        apply digits2_pos_unique. change (53 - 1) with 52. lia. }
      rewrite no_shift by (rewrite Hfix; lia). cbn [shr_m finish].
      destruct (Z.ltb_spec (Zpos p1) (2 ^ 53)) as [_|C]; [reflexivity | lia].
    + assert (Hp1 : Zpos p1 = 2 ^ 53) by lia.
      assert (Hd1 : d1 = 54).
      { apply digits2_pos_unique. rewrite Hp1. change (54 - 1) with 53.
        split; [lia|]. apply Z.pow_lt_mono_r; lia. }
      rewrite Hd1, fexp64.
      replace (Z.max (54 + e1 - 53) (-1074) - e1) with 1 by lia.
      injection Hp1 as ->. cbn [shr iter_pos shr_1 shr_m finish].
      destruct (Z.ltb_spec (Zpos 9007199254740992) (2 ^ 53)) as [C|_];
        [exfalso; revert C; cbn; lia | reflexivity].
Qed.

Lemma valid_finite (s : bool) (m : positive) (e : Z) :
  valid_binary (S754_finite s m e) = true ->
  Zpos m < 2 ^ 53 /\ -1074 <= e <= 971 /\ (2 ^ 52 <= Zpos m \/ e = -1074).
Proof.
  unfold valid_binary, bounded, canonical_mantissa. intros H.
  apply andb_prop in H. destruct H as [Hc He].
  apply Z.eqb_eq in Hc. apply Z.leb_le in He. rewrite fexp64 in Hc.
  change (emax - prec) with 971 in He.
  pose proof (digits2_pos_bounds m) as [Hlo Hhi].
  set (d := Zpos (digits2_pos m)) in *.
  assert (Hd : d <= 53) by lia.
  split.
  { apply Z.lt_le_trans with (1 := Hhi). apply Z.pow_le_mono_r; lia. }
  split; [lia|].
  destruct (Z.eq_dec e (-1074)) as [He'|He']; [right; exact He'|left].
  assert (d = 53) by lia. subst d. rewrite H in Hlo. exact Hlo.
Qed.

Lemma SFleb_finite (m1 m2 : positive) (e1 e2 : Z) :
  SFleb (S754_finite false m1 e1) (S754_finite false m2 e2) = true
  <-> e1 < e2 \/ (e1 = e2 /\ Zpos m1 <= Zpos m2).
Proof.
  unfold SFleb, SFcompare.
  destruct (Z.compare_spec e1 e2) as [He|He|He].
  - change (Pos.compare_cont Eq m1 m2) with (Pos.compare m1 m2).
    destruct (Pos.compare_spec m1 m2) as [Hm|Hm|Hm]; split; intros H;
      try discriminate H; try reflexivity; try lia.
  - split; [intros _; left; exact He | reflexivity].
  - split; [discriminate | lia].
Qed.

Lemma pow2_split (a b : Z) : 0 <= a -> 0 <= b -> 2 ^ a * 2 ^ b = 2 ^ (a + b).
Proof. intros Ha Hb. now rewrite Z.pow_add_r. Qed.

Lemma pow2_pos (a : Z) : 0 <= a -> 0 < 2 ^ a.
Proof. intros Ha. apply Z.pow_pos_nonneg; lia. Qed.

Lemma finish_zero (s : bool) (e1 : Z) : finish s 0 e1 = S754_zero s.
Proof. reflexivity. Qed.

Lemma finish_small (s : bool) (p : positive) (e1 : Z) :
  Zpos p < 2 ^ 53 ->
  finish s (Zpos p) e1
  = if e1 <=? 971 then S754_finite s p e1 else S754_infinity s.
Proof.
  intros H. unfold finish.
  destruct (Z.ltb_spec (Zpos p) (2 ^ 53)); [reflexivity | lia].
Qed.

Lemma finish_carry (s : bool) (p : positive) (e1 : Z) :
  2 ^ 53 <= Zpos p ->
  finish s (Zpos p) e1
  = if e1 + 1 <=? 971 then S754_finite s 4503599627370496 (e1 + 1)
    else S754_infinity s.
Proof.
  intros H. unfold finish.
  destruct (Z.ltb_spec (Zpos p) (2 ^ 53)); [lia | reflexivity].
Qed.

(** Rounding never crosses a float: a product or sum at most a float
    rounds to at most that float. *)
Lemma round_le (P mb : positive) (e eb lo : Z) :
  0 <= fexp prec emax (Zpos (digits2_pos P) + e) - e ->
  valid_binary (S754_finite false mb eb) = true ->
  lo <= e -> lo <= eb ->
  Zpos P * 2 ^ (e - lo) <= Zpos mb * 2 ^ (eb - lo) ->
  SFleb (binary_round_aux prec emax false (Zpos P) e loc_Exact)
    (S754_finite false mb eb) = true.
Proof.
  intros Hn Hvalid Hlo1 Hlo2 Hle.
  destruct (@round_aux_spec false P e Hn)
    as (m1 & Hm1 & Hexact & Hq53 & Hnorm & ->).
  apply valid_finite in Hvalid. destruct Hvalid as (Hmb & Heb & Hnormal).
  pose proof (digits2_pos_bounds P) as [HPlo HPhi].
  set (d := Zpos (digits2_pos P)) in *.
  set (e1 := fexp prec emax (d + e)) in *.
  assert (He1 : e1 = Z.max (d + e - 53) (-1074)) by reflexivity.
  set (n := e1 - e) in *.
  assert (Hpn : 0 < 2 ^ n) by (apply pow2_pos; lia).
  set (q := Zpos P / 2 ^ n) in *.
  assert (Hq0 : 0 <= q) by (apply Z.div_pos; lia).
  assert (HX : 0 < 2 ^ (e - lo)) by (apply pow2_pos; lia).
  assert (HY : 0 < 2 ^ (eb - lo)) by (apply pow2_pos; lia).
  destruct (Z.lt_trichotomy e1 eb) as [Hlt|[Heq|Hgt]].
  - (* below the exponent of the bound *)
    destruct m1 as [|p|p]; [reflexivity| |lia].
    destruct (Z.lt_ge_cases (Zpos p) (2 ^ 53)) as [Hs|Hc].
    + rewrite finish_small by exact Hs.
      destruct (Z.leb_spec e1 971) as [Hfit|Hfit]; [|lia].
      apply SFleb_finite. left. exact Hlt.
    + rewrite finish_carry by exact Hc.
      destruct (Z.leb_spec (e1 + 1) 971) as [Hfit|Hfit]; [|lia].
      apply SFleb_finite.
      destruct (Z.eq_dec (e1 + 1) eb) as [E|E]; [right | left; lia].
      split; [exact E|]. destruct Hnormal as [H|H]; [exact H | lia].
  - (* at the exponent of the bound *)
    assert (HP : Zpos P <= Zpos mb * 2 ^ n).
    { apply (Z.mul_le_mono_pos_r _ _ (2 ^ (e - lo)) HX).
      rewrite <- Z.mul_assoc, pow2_split by lia.
      replace (n + (e - lo)) with (eb - lo) by lia. exact Hle. }
    assert (Hm1b : m1 <= Zpos mb).
    { assert (Hq : q <= Zpos mb).
      { apply Z.div_le_upper_bound; [exact Hpn|]. lia. }
      destruct (Z.eq_dec q (Zpos mb)) as [E|E]; [|lia].
      rewrite Hexact; [lia|].
      pose proof (Z.div_mod (Zpos P) (2 ^ n)) as Hdm.
      pose proof (Z.mod_pos_bound (Zpos P) (2 ^ n) Hpn) as Hr.
      fold q in Hdm. rewrite E in Hdm. lia. }
    destruct m1 as [|p|p]; [reflexivity| |lia].
    rewrite finish_small by lia.
    destruct (Z.leb_spec e1 971) as [Hfit|Hfit]; [|lia].
    apply SFleb_finite. right. split; [exact Heq | exact Hm1b].
  - (* above it: the value would be above the bound *)
    exfalso.
    assert (He1n : e1 = d + e - 53) by lia.
    assert (A1 : 2 ^ (d - 1) * 2 ^ (e - lo) = 2 ^ (e1 + 52 - lo)).
    { rewrite pow2_split by lia. f_equal. lia. }
    assert (A2 : 2 ^ 53 * 2 ^ (eb - lo) = 2 ^ (eb + 53 - lo)).
    { rewrite pow2_split by lia. f_equal. lia. }
    assert (A3 : 2 ^ (eb + 53 - lo) <= 2 ^ (e1 + 52 - lo))
      by (apply Z.pow_le_mono_r; lia).
    assert (A4 : 2 ^ (d - 1) * 2 ^ (e - lo) <= Zpos P * 2 ^ (e - lo))
      by (apply Z.mul_le_mono_nonneg_r; lia).
    assert (A5 : Zpos mb * 2 ^ (eb - lo) < 2 ^ 53 * 2 ^ (eb - lo))
      by (apply Z.mul_lt_mono_pos_r; lia).
    lia.
Qed.

(** And a product or sum at least a float rounds to at least that float. *)
Lemma round_ge (P mb : positive) (e eb lo : Z) :
  0 <= fexp prec emax (Zpos (digits2_pos P) + e) - e ->
  valid_binary (S754_finite false mb eb) = true ->
  lo <= e -> lo <= eb ->
  Zpos mb * 2 ^ (eb - lo) <= Zpos P * 2 ^ (e - lo) ->
  SFleb (S754_finite false mb eb)
    (binary_round_aux prec emax false (Zpos P) e loc_Exact) = true.
Proof.
  intros Hn Hvalid Hlo1 Hlo2 Hle.
  destruct (@round_aux_spec false P e Hn)
    as (m1 & Hm1 & Hexact & Hq53 & Hnorm & ->).
  apply valid_finite in Hvalid. destruct Hvalid as (Hmb & Heb & Hnormal).
  pose proof (digits2_pos_bounds P) as [HPlo HPhi].
  set (d := Zpos (digits2_pos P)) in *.
  set (e1 := fexp prec emax (d + e)) in *.
  assert (He1 : e1 = Z.max (d + e - 53) (-1074)) by reflexivity.
  set (n := e1 - e) in *.
  assert (Hpn : 0 < 2 ^ n) by (apply pow2_pos; lia).
  set (q := Zpos P / 2 ^ n) in *.
  assert (Hq0 : 0 <= q) by (apply Z.div_pos; lia).
  assert (HX : 0 < 2 ^ (e - lo)) by (apply pow2_pos; lia).
  assert (HY : 0 < 2 ^ (eb - lo)) by (apply pow2_pos; lia).
  assert (Hfin : forall p e2, eb < e2 ->
            SFleb (S754_finite false mb eb)
              (if e2 <=? 971 then S754_finite false p e2
               else S754_infinity false) = true).
  { intros p e2 H. destruct (e2 <=? 971); [|reflexivity].
    apply SFleb_finite. left. exact H. }
  destruct m1 as [|p|p]; [exfalso| |lia].
  - (* nothing rounds to zero from a float upwards *)
    assert (Hq : q = 0) by lia.
    assert (HPn : Zpos P < 2 ^ n).
    { pose proof (Z.div_mod (Zpos P) (2 ^ n)) as Hdm.
      pose proof (Z.mod_pos_bound (Zpos P) (2 ^ n) Hpn) as Hr.
      fold q in Hdm. rewrite Hq in Hdm. lia. }
    assert (He1s : e1 = -1074) by lia.
    assert (A1 : 2 ^ n * 2 ^ (e - lo) = 2 ^ (e1 - lo)).
    { rewrite pow2_split by lia. f_equal. lia. }
    assert (A2 : 2 ^ (e1 - lo) <= 2 ^ (eb - lo))
      by (apply Z.pow_le_mono_r; lia).
    assert (A3 : Zpos P * 2 ^ (e - lo) < 2 ^ n * 2 ^ (e - lo))
      by (apply Z.mul_lt_mono_pos_r; lia).
    assert (A4 : 1 * 2 ^ (eb - lo) <= Zpos mb * 2 ^ (eb - lo))
      by (apply Z.mul_le_mono_nonneg_r; lia).
    lia.
  - destruct (Z.lt_trichotomy e1 eb) as [Hlt|[Heq|Hgt]].
    + (* below the exponent of the bound: the value would be below it *)
      exfalso.
      assert (Hmb52 : 2 ^ 52 <= Zpos mb) by (destruct Hnormal; lia).
      assert (A1 : 2 ^ 52 * 2 ^ (eb - lo) = 2 ^ (52 + eb - lo)).
      { rewrite pow2_split by lia. f_equal. lia. }
      assert (A2 : 2 ^ d * 2 ^ (e - lo) = 2 ^ (d + e - lo)).
      { rewrite pow2_split by lia. f_equal. lia. }
      assert (A3 : 2 ^ (d + e - lo) <= 2 ^ (52 + eb - lo))
        by (apply Z.pow_le_mono_r; lia).
      assert (A4 : 2 ^ 52 * 2 ^ (eb - lo) <= Zpos mb * 2 ^ (eb - lo))
        by (apply Z.mul_le_mono_nonneg_r; lia).
      assert (A5 : Zpos P * 2 ^ (e - lo) < 2 ^ d * 2 ^ (e - lo))
        by (apply Z.mul_lt_mono_pos_r; lia).
      lia.
    + assert (HP : Zpos mb * 2 ^ n <= Zpos P).
      { apply (Z.mul_le_mono_pos_r _ _ (2 ^ (e - lo)) HX).
        rewrite <- Z.mul_assoc, pow2_split by lia.
        replace (n + (e - lo)) with (eb - lo) by lia. exact Hle. }
      assert (Hq : Zpos mb <= q).
      { apply Z.div_le_lower_bound; [exact Hpn|]. lia. }
      destruct (Z.lt_ge_cases (Zpos p) (2 ^ 53)) as [Hs|Hc].
      * rewrite finish_small by exact Hs.
        destruct (Z.leb_spec e1 971) as [Hfit|Hfit]; [|lia].
        apply SFleb_finite. right. split; [lia|lia].
      * rewrite finish_carry by exact Hc. apply Hfin. lia.
    + destruct (Z.lt_ge_cases (Zpos p) (2 ^ 53)) as [Hs|Hc].
      * rewrite finish_small by exact Hs. apply Hfin. lia.
      * rewrite finish_carry by exact Hc. apply Hfin. lia.
Qed.

Lemma round_sign (P : positive) (e : Z) :
  0 <= fexp prec emax (Zpos (digits2_pos P) + e) - e ->
  SFleb (S754_zero false)
    (binary_round_aux prec emax false (Zpos P) e loc_Exact) = true.
Proof.
  intros Hn.
  destruct (@round_aux_spec false P e Hn) as (m1 & _ & _ & _ & _ & ->).
  unfold finish. destruct m1 as [|p|p]; try reflexivity.
  destruct (Z.pos p <? 2 ^ 53);
    match goal with |- context [if ?b then _ else _] => destruct b end;
    reflexivity.
Qed.

(** The product of two floats is rounded from their exact product. *)
Lemma mul_shifts (mx my : positive) (ex ey : Z) :
  2 ^ 52 <= Zpos my ->
  0 <= fexp prec emax (Zpos (digits2_pos (mx * my)) + (ex + ey)) - (ex + ey).
Proof.
  intros Hy. rewrite fexp64.
  pose proof (digits2_pos_bounds (mx * my)) as [_ Hhi].
  set (d := Zpos (digits2_pos (mx * my))) in *.
  assert (Hd : 53 <= d).
  { destruct (Z.le_gt_cases 53 d) as [H|H]; [exact H|exfalso].
    assert (2 ^ d <= 2 ^ 52) by (apply Z.pow_le_mono_r; lia).
    rewrite Pos2Z.inj_mul in Hhi.
    assert (1 * 2 ^ 52 <= Zpos mx * Zpos my)
      by (apply Z.mul_le_mono_nonneg; lia).
    lia. }
  lia.
Qed.

Lemma Pos_iter_xO (m d : positive) :
  Zpos (Pos.iter xO m d) = Zpos m * 2 ^ Zpos d.
Proof.
  induction d as [|d IH] using Pos.peano_ind.
  - change (Pos.iter xO m 1) with (m~0)%positive. change (2 ^ 1) with 2. lia.
  - rewrite Pos.iter_succ, Pos2Z.inj_succ, Z.pow_succ_r by lia.
    change (Zpos (Pos.iter xO m d)~0) with (2 * Zpos (Pos.iter xO m d)).
    rewrite IH. ring.
Qed.

Lemma shl_align_spec (m : positive) (e e' : Z) :
  let e2 := Z.min e e' in
  snd (shl_align m e e') = e2
  /\ Zpos (fst (shl_align m e e')) = Zpos m * 2 ^ (e - e2).
Proof.
  unfold shl_align. destruct (e' - e) as [|d|d] eqn:Hd; cbn [fst snd].
  - replace (Z.min e e') with e by lia. rewrite Z.sub_diag. split; [reflexivity|].
    cbn. lia.
  - replace (Z.min e e') with e by lia. rewrite Z.sub_diag. split; [reflexivity|].
    cbn. lia.
  - replace (Z.min e e') with e' by lia. split; [reflexivity|].
    rewrite Pos_iter_xO. f_equal. f_equal. lia.
Qed.

Lemma digits2_pos_shift (m m' : positive) (k : Z) :
  0 <= k -> Zpos m' = Zpos m * 2 ^ k ->
  Zpos (digits2_pos m') = Zpos (digits2_pos m) + k.
Proof.
  intros Hk Hm. apply digits2_pos_unique.
  pose proof (digits2_pos_bounds m) as [Hlo Hhi].
  set (d := Zpos (digits2_pos m)) in *.
  assert (Hd : 0 < d) by (unfold d; lia).
  rewrite Hm.
  replace (d + k - 1) with (d - 1 + k) by lia.
  rewrite !Z.pow_add_r by lia.
  assert (0 < 2 ^ k) by (apply pow2_pos; lia).
  split; [apply Z.mul_le_mono_nonneg_r; lia | apply Z.mul_lt_mono_pos_r; lia].
Qed.

(** The sum of two positive floats is at least the second. *)
Lemma SFadd_ge (mx my : positive) (ex ey : Z) :
  valid_binary (S754_finite false my ey) = true ->
  SFleb (S754_finite false my ey)
    (SFadd prec emax (S754_finite false mx ex) (S754_finite false my ey))
  = true.
Proof.
  intros Hvalid. unfold SFadd, cond_Zopp, binary_normalize.
  set (ez := Z.min ex ey).
  destruct (shl_align_spec mx ex ez) as [_ Hx].
  destruct (shl_align_spec my ey ez) as [_ Hy].
  replace (Z.min ex ez) with ez in Hx by lia.
  replace (Z.min ey ez) with ez in Hy by lia.
  set (mx' := fst (shl_align mx ex ez)) in *.
  set (my' := fst (shl_align my ey ez)) in *.
  change (Zpos mx' + Zpos my') with (Zpos (mx' + my')).
  unfold binary_round.
  set (M := (mx' + my')%positive).
  set (e' := fexp prec emax (Zpos (digits2_pos M) + ez)).
  destruct (shl_align_spec M ez e') as [He2 Hz].
  destruct (shl_align M ez e') as [mz ez2]. cbn [fst snd] in He2, Hz.
  assert (Hshift : 0 <= ez - ez2) by lia.
  assert (Hdig : Zpos (digits2_pos mz) = Zpos (digits2_pos M) + (ez - ez2)).
  { apply digits2_pos_shift; [exact Hshift|]. rewrite Hz, He2. reflexivity. }
  apply round_ge with (lo := ez2).
  - rewrite Hdig. replace (Z.pos (digits2_pos M) + (ez - ez2) + ez2)
      with (Zpos (digits2_pos M) + ez) by lia.
    fold e'. lia.
  - exact Hvalid.
  - lia.
  - lia.
  - rewrite <- He2 in Hz.
    rewrite Z.sub_diag, Z.pow_0_r, Z.mul_1_r, Hz.
    unfold M. rewrite Pos2Z.inj_add, Hy.
    replace (ey - ez2) with ((ey - ez) + (ez - ez2)) by lia.
    rewrite Z.pow_add_r by lia.
    assert (0 < 2 ^ (ez - ez2)) by (apply pow2_pos; lia).
    assert (0 < 2 ^ (ey - ez)) by (apply pow2_pos; lia).
    rewrite Z.mul_assoc. apply Z.mul_le_mono_nonneg_r; [lia|]. lia.
Qed.

Lemma SFcompare_antisym (x y : spec_float) :
  SFcompare y x = option_map CompOpp (SFcompare x y).
Proof.
  destruct x as [sx|sx| |sx mx ex], y as [sy|sy| |sy my ey]; cbn;
    try reflexivity;
    try (destruct sx; reflexivity); try (destruct sy; reflexivity);
    try (destruct sx, sy; reflexivity).
  destruct sx, sy; try reflexivity;
    rewrite (Z.compare_antisym ex ey);
    destruct (ex ?= ey); cbn; try reflexivity;
    rewrite <- (Pos.compare_cont_antisym _ _ Eq); cbn;
    destruct (Pos.compare_cont Eq mx my); reflexivity.
Qed.

Lemma SFleb_of_not_ltb (x y : spec_float) :
  x <> S754_nan -> y <> S754_nan -> SFltb x y = false -> SFleb y x = true.
Proof.
  intros Hx Hy. unfold SFltb, SFleb. rewrite (SFcompare_antisym x y).
  destruct (SFcompare x y) as [[| |]|] eqn:E; cbn; try reflexivity;
    try discriminate.
  exfalso. destruct x, y; cbn in E; try discriminate E; congruence.
Qed.

Lemma SFleb_not_nan (x y : spec_float) :
  SFleb x y = true -> x <> S754_nan /\ y <> S754_nan.
Proof.
  intros H. split; intros ->; [|destruct x]; discriminate H.
Qed.

Lemma Prim2SF_0 : Prim2SF 0%float = S754_zero false.
Proof. reflexivity. Qed.

Lemma Prim2SF_1 : Prim2SF 1%float = S754_finite false 4503599627370496 (-52).
Proof. reflexivity. Qed.

Lemma Prim2SF_095 :
  Prim2SF 0.95%float = S754_finite false 8556839292003942 (-53).
Proof. reflexivity. Qed.

Lemma Prim2SF_015 :
  Prim2SF 0.15%float = S754_finite false 5404319552844595 (-55).
Proof. reflexivity. Qed.


Lemma SFeqb_refl (x : spec_float) : x <> S754_nan -> SFeqb x x = true.
Proof.
  intros Hx. unfold SFeqb. destruct x as [s|s| |s m e]; cbn;
    try destruct s; try reflexivity; try congruence;
    rewrite Z.compare_refl;
    change (Pos.compare_cont Eq m m) with (Pos.compare m m);
    rewrite Pos.compare_refl; reflexivity.
Qed.

Lemma is_nan_Prim2SF (x : float) :
  is_nan x = false <-> Prim2SF x <> S754_nan.
Proof.
  unfold is_nan. rewrite eqb_spec. split.
  - intros H E. rewrite E in H. discriminate H.
  - intros H. rewrite (SFeqb_refl H). reflexivity.
Qed.

Lemma leb_not_nan (x y : float) :
  (x <=? y)%float = true -> is_nan x = false /\ is_nan y = false.
Proof.
  rewrite leb_spec. intros H. apply SFleb_not_nan in H.
  split; apply is_nan_Prim2SF; tauto.
Qed.

(** Among numbers, what is not below is at least. *)
Lemma leb_of_not_ltb (x y : float) :
  is_nan x = false -> is_nan y = false ->
  (x <? y)%float = false -> (y <=? x)%float = true.
Proof.
  rewrite !is_nan_Prim2SF, ltb_spec, leb_spec. apply SFleb_of_not_ltb.
Qed.

Lemma ltb_of_leb (x y : float) :
  (x <=? y)%float = true -> (y <? x)%float = false.
Proof.
  rewrite ltb_spec, leb_spec. unfold SFleb, SFltb.
  rewrite (SFcompare_antisym (Prim2SF x) (Prim2SF y)).
  destruct (SFcompare (Prim2SF x) (Prim2SF y)) as [[| |]|]; cbn;
    congruence.
Qed.

(** A number times 0.95 is a number. *)
Lemma mul_095_not_nan (r : float) :
  is_nan r = false -> is_nan (r * 0.95)%float = false.
Proof.
  rewrite !is_nan_Prim2SF, mul_spec, Prim2SF_095. unfold SF64mul.
  destruct (Prim2SF r) as [s|s| |s m e]; cbn [SFmul]; try congruence.
  intros _.
  assert (Hn := @mul_shifts m 8556839292003942 e (-53) ltac:(cbn; lia)).
  destruct (@round_aux_spec (xorb s false) _ _ Hn) as (m1 & _ & _ & _ & _ & ->).
  unfold finish. destruct m1 as [|p|p]; try discriminate.
  destruct (Z.pos p <? 2 ^ 53)%Z;
    match goal with |- context [if ?b then _ else _] => destruct b end;
    discriminate.
Qed.

(** A relevance between 0 and 1 decays to a relevance between 0 and 1. *)
Lemma mul_095_unit (r : float) :
  (0 <=? r)%float = true -> (r <=? 1)%float = true ->
  (0 <=? r * 0.95)%float = true /\ (r * 0.95 <=? 1)%float = true.
Proof.
  rewrite !leb_spec, mul_spec, Prim2SF_0, Prim2SF_1, Prim2SF_095.
  unfold SF64mul.
  pose proof (Prim2SF_valid r) as Hvalid.
  destruct (Prim2SF r) as [s|s| |s m e]; cbn [SFmul]; intros H0 H1.
  - split; reflexivity.
  - destruct s; discriminate.
  - discriminate.
  - destruct s; [discriminate H0|]. cbn [xorb].
    assert (Hn := @mul_shifts m 8556839292003942 e (-53) ltac:(cbn; lia)).
    split; [apply round_sign; exact Hn|].
    apply SFleb_finite in H1. apply valid_finite in Hvalid.
    destruct Hvalid as (Hm & He & _).
    apply round_le with (lo := (e + -53)%Z); [exact Hn|reflexivity|lia|lia|].
    rewrite Z.sub_diag, Z.pow_0_r, Z.mul_1_r, Pos2Z.inj_mul.
    replace (-52 - (e + -53))%Z with (1 - e)%Z by lia.
    replace (4503599627370496 * 2 ^ (1 - e))%Z with (2 ^ (53 - e))%Z.
    2:{ change 4503599627370496%Z with (2 ^ 52)%Z.
        rewrite <- Z.pow_add_r by lia. f_equal. lia. }
    destruct H1 as [H1 | [H1 H2]].
    + apply Z.le_trans with (2 ^ 53 * 2 ^ 53)%Z.
      * apply Z.mul_le_mono_nonneg; lia.
      * rewrite <- Z.pow_add_r by lia. apply Z.pow_le_mono_r; lia.
    + subst e. change (2 ^ (53 - -52))%Z with (2 ^ 52 * 2 ^ 53)%Z.
      apply Z.mul_le_mono_nonneg; lia.
Qed.

(** A boosted relevance is at least the boost. *)
Lemma add_015_ge (r : float) :
  (0 <=? r)%float = true -> (0.15 <=? r + 0.15)%float = true.
Proof.
  rewrite !leb_spec, add_spec, Prim2SF_0, Prim2SF_015. unfold SF64add.
  destruct (Prim2SF r) as [s|s| |s m e]; intros H0.
  - reflexivity.
  - destruct s; [discriminate H0 | reflexivity].
  - discriminate.
  - destruct s; [discriminate H0|]. apply SFadd_ge. reflexivity.
Qed.


(** Two numbers compare one way or the other. *)
Lemma leb_total (x y : float) :
  is_nan x = false -> is_nan y = false ->
  (x <=? y)%float = false -> (y <=? x)%float = true.
Proof.
  rewrite !is_nan_Prim2SF, !leb_spec. intros Hx Hy. unfold SFleb.
  rewrite (SFcompare_antisym (Prim2SF x) (Prim2SF y)).
  destruct (SFcompare (Prim2SF x) (Prim2SF y)) as [[| |]|] eqn:E; cbn;
    try reflexivity; try discriminate.
  intros _. exfalso.
  destruct (Prim2SF x), (Prim2SF y); cbn in E; try discriminate E;
    congruence.
Qed.

(** What is at least the boost is at least 0. *)
Lemma leb_0_of_boost (x : float) :
  (0.15 <=? x)%float = true -> (0 <=? x)%float = true.
Proof.
  rewrite !leb_spec, Prim2SF_0, Prim2SF_015.
  destruct (Prim2SF x) as [s|s| |s m e]; cbn; try discriminate;
    destruct s; try discriminate; reflexivity.
Qed.

Lemma SFleb_rank (x y : spec_float) :
  x <> S754_nan -> y <> S754_nan ->
  (SFleb x y = true <-> lex_le (rank x) (rank y)).
Proof.
  intros Hx Hy. unfold SFleb, SFcompare, lex_le, rank.
  destruct x as [sx|sx| |sx mx ex], y as [sy|sy| |sy my ey];
    try congruence; try destruct sx; try destruct sy;
    try (split; [intros _; lia | reflexivity]);
    try (split; [discriminate | lia]);
    change (Pos.compare_cont Eq mx my) with (Pos.compare mx my);
    destruct (Z.compare_spec ex ey) as [He|He|He];
    try destruct (Pos.compare_spec mx my) as [Hm|Hm|Hm]; cbn;
    split; intros H; try reflexivity; try discriminate H; try lia.
Qed.

Lemma leb_trans (x y z : float) :
  (x <=? y)%float = true -> (y <=? z)%float = true ->
  (x <=? z)%float = true.
Proof.
  rewrite !leb_spec. intros H1 H2.
  destruct (SFleb_not_nan H1) as [Hx Hy].
  destruct (SFleb_not_nan H2) as [_ Hz].
  apply (SFleb_rank Hx Hy) in H1. apply (SFleb_rank Hy Hz) in H2.
  apply (SFleb_rank Hx Hz). unfold lex_le in *.
  destruct (rank (Prim2SF x)) as [[x1 x2] x3],
           (rank (Prim2SF y)) as [[y1 y2] y3],
           (rank (Prim2SF z)) as [[z1 z2] z3]. lia.
Qed.

Lemma sql_le_total (x y : float) : sql_le x y = true \/ sql_le y x = true.
Proof.
  unfold sql_le. destruct (is_nan x) eqn:Hx; [left; reflexivity|].
  destruct (is_nan y) eqn:Hy; [right; reflexivity|]. cbn [orb].
  destruct (x <=? y)%float eqn:E; [left; reflexivity|right].
  exact (leb_total Hx Hy E).
Qed.

Lemma sql_le_trans (x y z : float) :
  sql_le x y = true -> sql_le y z = true -> sql_le x z = true.
Proof.
  unfold sql_le. destruct (is_nan x) eqn:Hx; [reflexivity|]. cbn [orb].
  intros H1. destruct (leb_not_nan H1) as [_ Hy]. rewrite Hy. cbn [orb].
  apply leb_trans. exact H1.
Qed.

(** The order of two positive floats is the order of their values. *)
Lemma SFleb_value (m1 m2 : positive) (e1 e2 : Z) :
  valid_binary (S754_finite false m1 e1) = true ->
  valid_binary (S754_finite false m2 e2) = true ->
  SFleb (S754_finite false m1 e1) (S754_finite false m2 e2) = true ->
  Zpos m1 * 2 ^ (e1 + 1074) <= Zpos m2 * 2 ^ (e2 + 1074).
Proof.
  intros V1 V2 H. apply SFleb_finite in H.
  apply valid_finite in V1, V2.
  destruct V1 as (Hm1 & He1 & _), V2 as (Hm2 & He2 & Hn2).
  destruct H as [H | [-> H]].
  - assert (Hm52 : 2 ^ 52 <= Zpos m2) by (destruct Hn2; lia).
    assert (A1 : Zpos m1 * 2 ^ (e1 + 1074) <= 2 ^ 53 * 2 ^ (e1 + 1074)).
    { apply Z.mul_le_mono_nonneg_r; [apply Z.pow_nonneg|]; lia. }
    assert (A2 : 2 ^ 52 * 2 ^ (e2 + 1074) <= Zpos m2 * 2 ^ (e2 + 1074)).
    { apply Z.mul_le_mono_nonneg_r; [apply Z.pow_nonneg|]; lia. }
    assert (A3 : 2 ^ 53 * 2 ^ (e1 + 1074) <= 2 ^ 52 * 2 ^ (e2 + 1074)).
    { rewrite !pow2_split by lia. apply Z.pow_le_mono_r; lia. }
    lia.
  - apply Z.mul_le_mono_nonneg_r; [apply Z.pow_nonneg; lia | exact H].
Qed.

(** A number at most [x] times 0.95 is at most [y], when the exact product
    of [x] is. *)
Lemma mul_095_below (r x y : float) :
  product_below x y = true ->
  (r <=? x)%float = true -> (r * 0.95 <=? y)%float = true.
Proof.
  unfold product_below. rewrite !leb_spec, mul_spec, Prim2SF_095.
  unfold SF64mul.
  pose proof (Prim2SF_valid r) as Vr. pose proof (Prim2SF_valid x) as Vx.
  pose proof (Prim2SF_valid y) as Vy.
  destruct (Prim2SF x) as [sx|sx| |sx mx ex]; try discriminate.
  destruct sx; [discriminate|].
  destruct (Prim2SF y) as [sy|sy| |sy my ey]; try discriminate.
  destruct sy; [discriminate|].
  intros Hbelow Hle. apply Z.leb_le in Hbelow.
  destruct (Prim2SF r) as [s|s| |s m e]; cbn [SFmul].
  - reflexivity.
  - destruct s; [reflexivity | discriminate Hle].
  - discriminate Hle.
  - assert (Hn := @mul_shifts m 8556839292003942 e (-53) ltac:(cbn; lia)).
    destruct s; cbn [xorb].
    + destruct (@round_aux_spec true _ _ Hn) as (m1 & _ & _ & _ & _ & ->).
      unfold finish. destruct m1 as [|p|p]; try reflexivity.
      destruct (Z.pos p <? 2 ^ 53);
        match goal with |- context [if ?b then _ else _] => destruct b end;
        reflexivity.
    + pose proof (SFleb_value Vr Vx Hle) as Hval.
      pose proof (valid_finite Vy) as (_ & Hey & _).
      apply valid_finite in Vr. destruct Vr as (_ & Her & _).
      apply round_le with (lo := -1127); [exact Hn|exact Vy|lia|lia|].
      rewrite Pos2Z.inj_mul.
      replace (e + -53 - -1127) with (e + 1074) by lia.
      replace (ey - -1127) with (ey + 1127) by lia.
      apply Z.le_trans with (2 := Hbelow).
      replace (Z.pos m * 8556839292003942 * 2 ^ (e + 1074))
        with (8556839292003942 * (Z.pos m * 2 ^ (e + 1074))) by ring.
      replace (Z.pos mx * 8556839292003942 * 2 ^ (ex + 1074))
        with (8556839292003942 * (Z.pos mx * 2 ^ (ex + 1074))) by ring.
      apply Z.mul_le_mono_nonneg_l; [lia | exact Hval].
Qed.

(** ** The regex matcher *)

Section RegexFacts.
Import Regex.

Lemma canonicalize_lower_ascii (x c : Z) :
  lower_ascii x = c -> 97 <= c <= 122 ->
  (canonicalize x =? canonicalize c) = true.
Proof.
  unfold lower_ascii, canonicalize. intros Hx Hc. apply Z.eqb_eq.
  destruct ((65 <=? x) && (x <=? 90)) eqn:Hup.
  - apply andb_prop in Hup. destruct Hup as [H1 H2].
    apply Z.leb_le in H1. apply Z.leb_le in H2. subst c.
    replace ((97 <=? x) && (x <=? 122)) with false
      by (symmetry; apply andb_false_iff; left; apply Z.leb_gt; lia).
    replace ((224 <=? x) && (x <=? 254)) with false
      by (symmetry; apply andb_false_iff; left; apply Z.leb_gt; lia).
    replace ((97 <=? x + 32) && (x + 32 <=? 122)) with true
      by (symmetry; apply andb_true_iff; split; apply Z.leb_le; lia).
    simpl. lia.
  - subst c. reflexivity.
Qed.

Lemma rmatch_Seq (r1 r2 : regex) (p : option Z) (s : list Z) (n : nat)
    (k : cont) :
  rmatch (Seq r1 r2) p s n k
  = rmatch r1 p s n (fun p' s' n' => rmatch r2 p' s' n' k).
Proof. reflexivity. Qed.

Lemma rmatch_Chr_cons (c x : Z) (p : option Z) (s : list Z) (n : nat)
    (k : cont) :
  (canonicalize x =? canonicalize c) = true ->
  rmatch (Chr c) p (x :: s) n k = k (Some x) s (S n).
Proof. intros H. cbn [rmatch]. rewrite H. reflexivity. Qed.

Lemma rmatch_Cls_cons (items : list citem) (x : Z) (p : option Z)
    (s : list Z) (n : nat) (k : cont) :
  existsb (item_matches x) items = true ->
  rmatch (Cls items) p (x :: s) n k = k (Some x) s (S n).
Proof. intros H. cbn [rmatch]. rewrite H. reflexivity. Qed.

(** A starred expression never fails before an accepting continuation:
    zero iterations are always possible. *)
Lemma rmatch_star_accepting (g : bool) (r : regex) (prev : option Z)
    (s : list Z) (n : nat) (k : cont) :
  accepting k -> rmatch (Star g r) prev s n k <> None.
Proof.
  intros Hk. cbn [rmatch].
  destruct g.
  - match goal with
    | |- context [rmatch r prev s n ?c] => destruct (rmatch r prev s n c)
    end; [discriminate | apply Hk].
  - destruct (k prev s n) eqn:E; [discriminate | exfalso; exact (Hk _ _ _ E)].
Qed.

(** A match found behind any prefix makes [search] succeed. *)
Lemma search_behind (r : regex) (pre s : list Z) :
  (forall prev, match_at r prev s <> None) ->
  forall prev, search r prev (pre ++ s) = true.
Proof.
  intros Hs. induction pre as [|c pre IH]; intros prev.
  - simpl. specialize (Hs prev).
    destruct s; simpl; destruct (match_at r prev _); congruence.
  - simpl. destruct (match_at r prev (c :: pre ++ s)); [reflexivity | apply IH].
Qed.

End RegexFacts.

(** ** The stress detector *)

Section StressFacts.
Import Regex StressDetection.

Lemma actually_pattern_listed : In actually_pattern STRESS_PATTERNS.
Proof. right. left. reflexivity. Qed.

Lemma actually_matches (w : list Z) (c : Z) (post : list Z) :
  map lower_ascii w = str "actually" ->
  c = 44 \/ is_space c = true ->
  forall prev, match_at actually_pattern prev (w ++ c :: post) <> None.
Proof.
  intros Hw Hc prev.
  do 8 (destruct w as [|? w]; [discriminate Hw|]).
  destruct w; [|discriminate Hw].
  cbn [map] in Hw. injection Hw as H1 H2 H3 H4 H5 H6 H7 H8.
  assert (Hcls : existsb (item_matches c) [CChar 44; CSpace] = true).
  { destruct Hc as [-> | Hc]; [reflexivity|].
    cbn [existsb item_matches]. rewrite Hc. apply orb_true_r. }
  unfold match_at, actually_pattern, lit, Plus.
  change (str "actually") with [97; 99; 116; 117; 97; 108; 108; 121].
  cbn [seq map app].
  repeat first
    [ rewrite rmatch_Seq
    | rewrite rmatch_Chr_cons
        by (eapply canonicalize_lower_ascii; [eassumption | lia]) ].
  unfold comma_or_space. rewrite rmatch_Cls_cons by exact Hcls.
  apply rmatch_star_accepting. intros p s n. discriminate.
Qed.

End StressFacts.

Section StressClaims.
Import Regex StressDetection.

(** C10: a text that contains "actually" in any letter case, followed by a
    comma or a white-space code unit, is stress for [detectStressRegex],
    and [detectStress] answers detected, intensity 3, method regex, with no
    call of the embedding function and the embeddings cache untouched. *)
Theorem detectStress_actually (pre w post : jsstring) (c : Z)
    (embed : option EmbeddingFn) (providerKey : option jsstring)
    (cache : EmbeddingsCache) :
  map lower_ascii w = str "actually" ->
  c = 44 \/ is_space c = true ->
  let text := pre ++ w ++ c :: post in
  detectStressRegex text = true
  /\ detectStress text embed providerKey cache = (regex_verdict, cache, []).
Proof.
  intros Hw Hc text.
  assert (Hre : detectStressRegex text = true).
  { unfold detectStressRegex. apply existsb_exists.
    exists actually_pattern. split; [apply actually_pattern_listed|].
    unfold test, text. apply search_behind.
    apply actually_matches; assumption. }
  split; [exact Hre|].
  unfold detectStress. rewrite Hre. reflexivity.
Qed.

(** The praise "Actually, that sounds great!" is such a text. *)
Lemma detectStress_actually_praise :
  detectStressRegex (str "Actually, that sounds great!") = true
  /\ detectStress (str "Actually, that sounds great!")
       (Some (fun _ => Some [])) None
       {| stressEmbeddingsCache := None; stressEmbeddingsCacheKey := None |}
     = (regex_verdict,
        {| stressEmbeddingsCache := None; stressEmbeddingsCacheKey := None |},
        []).
Proof.
  exact (@detectStress_actually [] (str "Actually") (str " that sounds great!")
           44 (Some (fun _ => Some [])) None
           {| stressEmbeddingsCache := None; stressEmbeddingsCacheKey := None |}
           eq_refl (or_introl eq_refl)).
Defined.

(** C8, as the code answers: true on "no, that's wrong", false on
    "great, thanks!", and false on "no es lo que pedi" (with i acute), which
    no pattern matches. *)
Theorem detectStressRegex_examples :
  detectStressRegex no_thats_wrong = true
  /\ detectStressRegex great_thanks = false
  /\ detectStressRegex no_es_lo_que_pedi = false.
Proof. repeat split; vm_compute; reflexivity. Qed.

(** C8 fails on its third input: the detector answers false there. *)
Lemma detectStressRegex_no_es_lo_que_pedi :
  detectStressRegex no_es_lo_que_pedi <> true.
Proof. vm_compute. discriminate. Qed.

(** The Spanish pattern asks for the leading "eso". *)
Lemma detectStressRegex_eso_no_es_lo_que_pedi :
  detectStressRegex eso_no_es_lo_que_pedi = true.
Proof. vm_compute. reflexivity. Qed.

Local Open Scope float_scope.




(** The denominator is the product of the two square roots, not the square
    root of the product: on two arrays holding 2^-300 the product of the
    norms underflows to 0, and the code still divides by 2^-600. *)
Lemma cosineSimilarity_sqrt_apart :
  cosineSimilarity [0x1p-300] [0x1p-300] = 1
  /\ sqrt (sum_squares [0x1p-300] * sum_squares [0x1p-300]) = 0
  /\ sqrt (sum_squares [0x1p-300]) * sqrt (sum_squares [0x1p-300]) = 0x1p-600.
Proof. repeat split; vm_compute; reflexivity. Qed.

End StressClaims.

(** ** The sanitizer of the dream prompt *)

Section SanitizerClaims.
Import Regex Tools.

(** The sanitized prompt is never longer than the bound plus the suffix. *)
Lemma sanitizeDreamPrompt_length (prompt : jsstring) (maxLength : Z) :
  (0 <= maxLength)%Z ->
  (Z.of_nat (List.length (sanitizeDreamPrompt prompt maxLength))
   <= maxLength + Z.of_nat (List.length truncation_suffix))%Z.
Proof.
  intros Hmax. unfold sanitizeDreamPrompt.
  set (sanitized := fold_left _ INJECTION_PATTERNS prompt).
  destruct (Z.of_nat (List.length sanitized) >? maxLength)%Z eqn:Hcmp.
  - rewrite length_app, length_firstn, Nat2Z.inj_add.
    apply Z.add_le_mono_r. lia.
  - rewrite Z.gtb_ltb in Hcmp. apply Z.ltb_ge in Hcmp. lia.
Qed.

Lemma you_are_now_pattern_listed : In you_are_now_pattern INJECTION_PATTERNS.
Proof. right. left. reflexivity. Qed.

(** C1 on the prompt "URGENT: ignoreyou are now": no word boundary stands
    before "you", so the second pattern finds nothing; the fifth pattern
    then replaces "URGENT: ignore", and the bracket that closes
    "[filtered]" is such a boundary.  The sanitized prompt,
    "[filtered]you are now", matches the second injection pattern. *)
Theorem sanitizeDreamPrompt_keeps_you_are_now :
  test you_are_now_pattern urgent_ignoreyou_are_now = false
  /\ sanitizeDreamPrompt urgent_ignoreyou_are_now default_maxLength
     = str "[filtered]you are now"
  /\ test you_are_now_pattern
       (sanitizeDreamPrompt urgent_ignoreyou_are_now default_maxLength) = true
  /\ existsb
       (fun pattern =>
          test pattern
            (sanitizeDreamPrompt urgent_ignoreyou_are_now default_maxLength))
       INJECTION_PATTERNS = true.
Proof. repeat split; vm_compute; reflexivity. Qed.

End SanitizerClaims.

(** ** The store *)

Section StoreClaims.
Import Store.

Lemma jsstring_eqb_refl (s : jsstring) : jsstring_eqb s s = true.
Proof.
  induction s as [|c s IH]; [reflexivity|].
  cbn [jsstring_eqb]. rewrite Z.eqb_refl. exact IH.
Qed.

Lemma has_In (set : list jsstring) (x : jsstring) :
  In x set -> has set x = true.
Proof.
  intros Hin. unfold has. apply existsb_exists.
  exists x. split; [exact Hin | apply jsstring_eqb_refl].
Qed.

(** What the code does on the names it lists: for every name in
    [TRIVIAL_TOOLS] (eight [mind_] tools, [session_status],
    [memory_search], [memory_get]) and every argument object, [logAction]
    returns -1 and leaves the store as it was; no statement is run. *)
Lemma logAction_trivial (rt : Runtime) (toolName : jsstring)
    (args : JsValue) (sessionKey : jsstring) (w : World) :
  In toolName TRIVIAL_TOOLS ->
  logAction rt toolName args sessionKey w = Returned (-1) w.
Proof.
  intros Hin. unfold logAction, buildActionSummary.
  rewrite (has_In Hin). reflexivity.
Qed.

Lemma logAction_trivial_mind_dream :
  In (str "mind_dream") TRIVIAL_TOOLS
  /\ logAction example_runtime (str "mind_dream") (JObject []) []
       (open_store (str "main") 0 [])
     = Returned (-1) (open_store (str "main") 0 []).
Proof.
  assert (Hin : In (str "mind_dream") TRIVIAL_TOOLS)
    by (do 4 right; left; reflexivity).
  split; [exact Hin|].
  exact (@logAction_trivial example_runtime (str "mind_dream") (JObject []) []
           (open_store (str "main") 0 []) Hin).
Defined.

(** C4: [mind_save_learning], the ninth tool of [createMindTools], is
    missing from [TRIVIAL_TOOLS], which lists the other eight tools of the
    mind.  Whatever the runtime, the arguments and the session key, on a
    new store whose storage layer runs the statement, [logAction] on that
    name does not return -1: it returns 1, the id of the action row it
    writes, with the summary "Used tool: mind_save_learning". *)
Theorem logAction_mind_save_learning (rt : Runtime) (args : JsValue)
    (sessionKey agent : jsstring) (now : Z) :
  has TRIVIAL_TOOLS (str "mind_save_learning") = false
  /\ buildActionSummary rt (str "mind_save_learning") args
     = Some (str "Used tool: mind_save_learning")
  /\ exists w',
       logAction rt (str "mind_save_learning") args sessionKey
         (open_store agent now [])
       = Returned 1 w'
       /\ mind_actions (db w')
          = [ {| action_id := 1; tool_name := str "mind_save_learning";
                 summary := str "Used tool: mind_save_learning";
                 args_snapshot := JSON_stringify rt args;
                 action_session_key := sessionKey;
                 action_created_at := now |} ].
Proof.
  split; [reflexivity|]. split; [reflexivity|].
  eexists. split; reflexivity.
Qed.

(** The summary of a tool outside [TRIVIAL_TOOLS] is a non-empty string. *)
Lemma buildActionSummary_nonempty (rt : Runtime) (toolName : jsstring)
    (args : JsValue) :
  has TRIVIAL_TOOLS toolName = false ->
  exists c s, buildActionSummary rt toolName args = Some (c :: s).
Proof.
  intros Hno. unfold buildActionSummary. rewrite Hno.
  repeat match goal with
         | |- context [if ?b then _ else _] => destruct b
         end; eexists; eexists; reflexivity.
Qed.

Lemma statement_refused (A : Type) (f : Db -> A * Db) (w : World)
    (rest : list bool) :
  faults w = true :: rest -> statement f w = Threw (with_db w (db w) rest).
Proof. intros Hf. unfold statement. rewrite Hf. reflexivity. Qed.




(** *** Decay *)

Lemma statement_runs (A : Type) (f : Db -> A * Db) (w : World) :
  faults w = [] ->
  statement f w = Returned (fst (f (db w))) (with_db w (snd (f (db w))) []).
Proof.
  intros Hf. unfold statement. rewrite Hf. destruct (f (db w)). reflexivity.
Qed.

Lemma applyDecay_runs (w : World) :
  faults w = [] ->
  applyDecay w
  = Returned
      (Z.of_nat (List.length (filter below_floor
                                (decayed (mind_learnings (db w))))))
      (with_db w
         (set_learnings (db w)
            (filter (fun l => negb (below_floor l))
               (decayed (mind_learnings (db w))))) []).
Proof.
  intros Hf. unfold applyDecay, bind.
  rewrite (statement_runs _ Hf). cbn [fst snd].
  rewrite statement_runs by reflexivity. reflexivity.
Qed.

Lemma count_below_floor (ls : list MindLearning) :
  List.length (filter below_floor (decayed ls))
  = List.length
      (filter (fun l => (approved l =? 1)
                        && (relevance_score l * 0.95 <? 0.1)%float) ls).
Proof.
  induction ls as [|l ls IH]; [reflexivity|].
  cbn [decayed map filter]. fold (decayed ls).
  unfold below_floor at 1.
  destruct (approved l =? 1) eqn:Ha.
  - cbn [decay approved relevance_score]. rewrite Ha. cbn [andb].
    unfold DECAY_FACTOR, MIN_RELEVANCE.
    destruct (relevance_score l * 0.95 <? 0.1)%float;
      cbn [List.length]; rewrite IH; reflexivity.
  - rewrite Ha. cbn [andb]. exact IH.
Qed.

(** C3: when the storage layer runs both statements, [applyDecay] returns
    and, afterwards, every approved learning left is an approved learning
    of before with its relevance multiplied by 0.95, the binary64 product
    of SQLite, and that relevance is not below 0.1: it is at least 0.1, the
    relevance of before being a number; every approved learning whose
    product is at least 0.1 is left; the count returned is the number of
    approved learnings whose product is below 0.1, hence 0 on a store
    without learnings; the learnings not approved are the same before and
    after. *)
Theorem applyDecay_contraction (w : World) :
  faults w = [] ->
  exists (pruned : Z) (w' : World),
    applyDecay w = Returned pruned w'
    /\ (forall l', In l' (mind_learnings (db w')) -> approved l' = 1 ->
          exists l, In l (mind_learnings (db w)) /\ approved l = 1
                    /\ l' = decay l
                    /\ relevance_score l'
                       = (relevance_score l * 0.95)%float
                    /\ (relevance_score l' <? 0.1)%float = false
                    /\ (is_nan (relevance_score l) = false ->
                        (0.1 <=? relevance_score l')%float = true))
    /\ (forall l, In l (mind_learnings (db w)) -> approved l = 1 ->
          (0.1 <=? relevance_score l * 0.95)%float = true ->
          In (decay l) (mind_learnings (db w')))
    /\ pruned
       = Z.of_nat
           (List.length
              (filter (fun l => (approved l =? 1)
                                && (relevance_score l * 0.95 <? 0.1)%float)
                 (mind_learnings (db w))))
    /\ (forall l, approved l <> 1 ->
          (In l (mind_learnings (db w)) <-> In l (mind_learnings (db w'))))
    /\ (mind_learnings (db w) = [] -> pruned = 0).
Proof.
  intros Hf. eexists. eexists. split; [apply (applyDecay_runs Hf)|].
  cbn [with_db db set_learnings mind_learnings].
  set (ls := mind_learnings (db w)).
  split; [|split; [|split; [|split]]].
  - intros l' Hin Happ.
    apply filter_In in Hin. destruct Hin as [Hin Hkeep].
    apply in_map_iff in Hin. destruct Hin as (l & Hl & Hin).
    destruct (approved l =? 1) eqn:Ha.
    + apply Z.eqb_eq in Ha. subst l'. exists l.
      apply negb_true_iff in Hkeep. unfold below_floor in Hkeep.
      cbn [decay approved relevance_score] in Hkeep |- *.
      rewrite Ha in Hkeep. cbn [Z.eqb Pos.eqb andb] in Hkeep.
      split; [exact Hin|]. split; [exact Ha|]. split; [reflexivity|].
      split; [reflexivity|]. split; [exact Hkeep|].
      intros Hnum. apply leb_of_not_ltb; [|reflexivity|exact Hkeep].
      apply mul_095_not_nan. exact Hnum.
    + subst l'. rewrite Happ in Ha. discriminate Ha.
  - intros l Hin Happ Hge. apply filter_In. split.
    + apply in_map_iff. exists l. rewrite Happ. split; [reflexivity|exact Hin].
    + apply negb_true_iff. unfold below_floor.
      cbn [decay approved relevance_score].
      unfold DECAY_FACTOR, MIN_RELEVANCE.
      rewrite (ltb_of_leb Hge). apply andb_false_r.
  - f_equal. apply count_below_floor.
  - intros l Hna. split.
    + intros Hin. apply filter_In. split.
      * apply in_map_iff. exists l. split; [|exact Hin].
        destruct (approved l =? 1) eqn:Ha; [|reflexivity].
        apply Z.eqb_eq in Ha. contradiction.
      * apply negb_true_iff. unfold below_floor.
        destruct (approved l =? 1) eqn:Ha; [|reflexivity].
        apply Z.eqb_eq in Ha. contradiction.
    + intros Hin. apply filter_In in Hin. destruct Hin as [Hin _].
      apply in_map_iff in Hin. destruct Hin as (l0 & Hl & Hin).
      destruct (approved l0 =? 1) eqn:Ha.
      * apply Z.eqb_eq in Ha. subst l. cbn [decay approved] in Hna.
        contradiction.
      * subst l0. exact Hin.
  - intros Hnil. subst ls. rewrite Hnil. reflexivity.
Qed.

Lemma applyDecay_contraction_two_learnings :
  faults two_learnings = []
  /\ exists (pruned : Z) (w' : World),
       applyDecay two_learnings = Returned pruned w'
       /\ pruned = 0
       /\ map relevance_score (mind_learnings (db w'))
          = [(0.11 * 0.95)%float; 0.05%float].
Proof.
  split; [reflexivity|].
  destruct (@applyDecay_contraction two_learnings eq_refl)
    as (pruned & w' & Hrun & _ & _ & Hcount & _).
  exists pruned, w'. split; [exact Hrun|].
  split; [exact Hcount|].
  vm_compute in Hrun. injection Hrun as _ Hw. subst w'. reflexivity.
Defined.

(** *** Relevance bounds *)

Lemma keeps_ret (A : Type) (a : A) : keeps_bounds (ret a).
Proof. intros w H. exact H. Qed.

Lemma keeps_Date_now : keeps_bounds Date_now.
Proof. intros w H. exact H. Qed.

Lemma keeps_bind (A B : Type) (m : M World A) (k : A -> M World B) :
  keeps_bounds m -> (forall a, keeps_bounds (k a)) -> keeps_bounds (bind m k).
Proof.
  intros Hm Hk w Hw. unfold bind. specialize (Hm w Hw).
  destruct (m w) as [a w1 | w1]; cbn [state_of] in Hm.
  - apply Hk. exact Hm.
  - exact Hm.
Qed.

Lemma keeps_statement (A : Type) (f : Db -> A * Db) :
  (forall d, all_in_bounds d -> all_in_bounds (snd (f d))) ->
  keeps_bounds (statement f).
Proof.
  intros Hf w Hw. unfold statement. specialize (Hf (db w) Hw).
  destruct (faults w) as [|[|] rest]; destruct (f (db w)); exact Hf || exact Hw.
Qed.

Lemma approve_in_bounds (l : MindLearning) :
  relevance_in_bounds l -> relevance_in_bounds (approve l).
Proof. intros H. exact H. Qed.

Lemma activate_in_bounds (now : Z) (l : MindLearning) :
  relevance_in_bounds l -> relevance_in_bounds (activate now l).
Proof.
  unfold relevance_in_bounds, activate, sql_min, REACTIVATION_BOOST.
  cbn [relevance_score]. intros [H0 H1].
  pose proof (add_015_ge H0) as Hboost.
  destruct (1 <=? relevance_score l + 0.15)%float eqn:E.
  - split; reflexivity.
  - split; [exact (leb_0_of_boost Hboost)|].
    apply leb_total; [reflexivity| |exact E].
    exact (proj2 (leb_not_nan Hboost)).
Qed.

Lemma decay_in_bounds (l : MindLearning) :
  relevance_in_bounds l -> relevance_in_bounds (decay l).
Proof.
  unfold relevance_in_bounds, decay, DECAY_FACTOR.
  cbn [relevance_score]. intros [H0 H1]. exact (mul_095_unit H0 H1).
Qed.

Lemma Forall_map_if (P : MindLearning -> Prop) (c : MindLearning -> bool)
    (f : MindLearning -> MindLearning) (ls : list MindLearning) :
  (forall l, P l -> P (f l)) ->
  Forall P ls -> Forall P (map (fun l => if c l then f l else l) ls).
Proof.
  intros Hf H. induction H as [|l ls Hl _ IH]; cbn [map]; constructor;
    [destruct (c l); auto | exact IH].
Qed.

Lemma Forall_filter (P : MindLearning -> Prop) (c : MindLearning -> bool)
    (ls : list MindLearning) :
  Forall P ls -> Forall P (filter c ls).
Proof.
  intros H. induction H as [|l ls Hl _ IH]; cbn [filter];
    [constructor | destruct (c l); [constructor|]; assumption].
Qed.

Ltac keeps :=
  repeat first
    [ apply keeps_ret
    | apply keeps_Date_now
    | apply keeps_bind; [|intros ?]
    | apply keeps_statement; intros d Hd; unfold all_in_bounds in *;
      cbn [snd mind_learnings set_learnings] ].

Lemma keeps_addLog (rt : Runtime) c p k : keeps_bounds (addLog rt c p k).
Proof. unfold addLog. keeps. exact Hd. Qed.

Lemma keeps_logAction (rt : Runtime) t a k : keeps_bounds (logAction rt t a k).
Proof.
  unfold logAction. destruct (buildActionSummary rt t a) as [[|c s]|]; keeps.
  exact Hd.
Qed.

Lemma keeps_addLearning t c r a : keeps_bounds (addLearning t c r a).
Proof.
  unfold addLearning. keeps. apply Forall_app. split; [exact Hd|].
  constructor; [|constructor].
  unfold relevance_in_bounds. cbn [relevance_score]. split; reflexivity.
Qed.

Lemma keeps_approveLearning target : keeps_bounds (approveLearning target).
Proof.
  unfold approveLearning. keeps.
  apply Forall_map_if; [apply approve_in_bounds | exact Hd].
Qed.

Lemma keeps_rejectLearning target : keeps_bounds (rejectLearning target).
Proof.
  unfold rejectLearning. keeps.
  - exact Hd.
  - destruct a as [l|]; keeps. exact Hd.
  - apply Forall_filter. exact Hd.
Qed.

Lemma keeps_activateLearning target : keeps_bounds (activateLearning target).
Proof.
  unfold activateLearning. keeps.
  apply Forall_map_if; [apply activate_in_bounds | exact Hd].
Qed.

Lemma keeps_applyDecay : keeps_bounds applyDecay.
Proof.
  unfold applyDecay. keeps.
  - apply Forall_map_if; [apply decay_in_bounds | exact Hd].
  - apply Forall_filter. exact Hd.
Qed.

Lemma keeps_recordDream days logCount text :
  keeps_bounds (recordDream days logCount text).
Proof. unfold recordDream. keeps. exact Hd. Qed.

Lemma perform_in_bounds (rt : Runtime) (c : Call) (w : World) :
  all_in_bounds (db w) -> all_in_bounds (db (perform rt c w)).
Proof.
  destruct c; cbn [perform];
    [ apply keeps_addLog | apply keeps_logAction | apply keeps_addLearning
    | apply keeps_approveLearning | apply keeps_rejectLearning
    | apply keeps_activateLearning | apply keeps_applyDecay
    | apply keeps_recordDream ].
Qed.

Lemma run_in_bounds (rt : Runtime) (script : list Step) :
  forall w, all_in_bounds (db w) -> all_in_bounds (db (run rt script w)).
Proof.
  induction script as [|s script IH]; intros w Hw; [exact Hw|].
  cbn [run fold_left]. apply IH. unfold run_step.
  apply perform_in_bounds. exact Hw.
Qed.

(** C5: after every sequence of write operations on a new store, whatever
    their arguments, the clock and the faults of the storage layer, the
    relevance of every learning, the binary64 value SQLite has computed,
    lies between 0 and 1. *)
Theorem relevance_bounds (rt : Runtime) (script : list Step)
    (agent : jsstring) (now : Z) (fs : list bool) :
  Forall relevance_in_bounds
    (mind_learnings (db (run rt script (open_store agent now fs)))).
Proof. apply run_in_bounds. constructor. Qed.

(** *** Rejection *)

Lemma filter_all (c : MindLearning -> bool) (ls : list MindLearning) :
  find c ls = None -> filter (fun l => negb (c l)) ls = ls.
Proof.
  induction ls as [|l ls IH]; [reflexivity|].
  cbn [find filter]. destruct (c l); [discriminate|].
  intros H. cbn [negb]. f_equal. exact (IH H).
Qed.

Lemma filter_out_one (ls : list MindLearning) (target : Z) :
  NoDup (map id ls) ->
  (exists l, In l ls /\ id l = target) ->
  S (List.length (filter (fun l => negb (id l =? target)) ls))
  = List.length ls.
Proof.
  induction ls as [|l ls IH]; intros Hnd [x [Hin Hx]]; [destruct Hin|].
  cbn [map] in Hnd. apply NoDup_cons_iff in Hnd. destruct Hnd as [Hnotin Hnd].
  cbn [filter List.length]. destruct (id l =? target) eqn:E; cbn [negb].
  - apply Z.eqb_eq in E. f_equal.
    assert (Hnone : find (fun l0 => id l0 =? target) ls = None).
    { destruct (find (fun l0 => id l0 =? target) ls) as [y|] eqn:F;
        [|reflexivity].
      apply find_some in F. destruct F as [Hy Hid]. apply Z.eqb_eq in Hid.
      exfalso. apply Hnotin. rewrite E, <- Hid. now apply in_map. }
    now rewrite (filter_all Hnone).
  - cbn [List.length]. f_equal. apply IH; [exact Hnd|].
    destruct Hin as [-> | Hin]; [|exists x; now split].
    apply Z.eqb_neq in E. contradiction.
Qed.

(** C7: when the storage layer runs the statements, [rejectLearning] on
    the id of a learning of the store appends one tombstone, with the
    title and the content of that learning, and leaves no learning with
    that id, the other learnings staying (one row less where ids are
    unique); on an id of no learning it leaves the store as it was. *)
Theorem rejectLearning_tombstone (w : World) (target : Z) :
  faults w = [] ->
  match find (fun l => id l =? target) (mind_learnings (db w)) with
  | Some l =>
      exists w',
        rejectLearning target w = Returned tt w'
        /\ mind_rejected_learnings (db w')
           = mind_rejected_learnings (db w)
             ++ [ {| rejected_id := seq_rejected (db w) + 1;
                     rejected_title := title l;
                     rejected_content := content l;
                     rejected_at := clock w |} ]
        /\ mind_learnings (db w')
           = filter (fun x => negb (id x =? target)) (mind_learnings (db w))
        /\ (forall x, In x (mind_learnings (db w')) -> id x <> target)
        /\ (forall x, In x (mind_learnings (db w)) -> id x <> target ->
              In x (mind_learnings (db w')))
        /\ (NoDup (map id (mind_learnings (db w))) ->
            S (List.length (mind_learnings (db w')))
            = List.length (mind_learnings (db w)))
        /\ mind_log (db w') = mind_log (db w)
        /\ mind_actions (db w') = mind_actions (db w)
        /\ mind_dreams (db w') = mind_dreams (db w)
  | None => rejectLearning target w = Returned tt w
  end.
Proof.
  intros Hf.
  destruct (find (fun l => id l =? target) (mind_learnings (db w)))
    as [l|] eqn:Hfind.
  - eexists. split.
    + unfold rejectLearning, bind. rewrite (statement_runs _ Hf).
      cbn [fst snd]. rewrite Hfind. unfold Date_now.
      rewrite statement_runs by reflexivity. cbn [fst snd].
      rewrite statement_runs by reflexivity. reflexivity.
    + cbn [with_db db set_learnings mind_rejected_learnings mind_learnings
             mind_log mind_actions mind_dreams clock fst snd].
      repeat split.
      * intros x Hin Hid. apply filter_In in Hin. destruct Hin as [_ Hne].
        apply negb_true_iff in Hne. apply Z.eqb_neq in Hne. contradiction.
      * intros x Hin Hid. apply filter_In. split; [exact Hin|].
        apply negb_true_iff. now apply Z.eqb_neq.
      * intros Hnd. apply filter_out_one; [exact Hnd|].
        apply find_some in Hfind. destruct Hfind as [Hin Hid].
        apply Z.eqb_eq in Hid. exists l. now split.
  - unfold rejectLearning, bind. rewrite (statement_runs _ Hf).
    cbn [fst snd]. rewrite Hfind. unfold ret.
    rewrite statement_runs by reflexivity. cbn [fst snd with_db db].
    rewrite (filter_all Hfind).
    destruct w as [d a c f]. cbn [faults] in Hf. subst f.
    destruct d. reflexivity.
Qed.

Lemma rejectLearning_tombstone_two_learnings :
  faults two_learnings = []
  /\ exists w',
       rejectLearning 2 two_learnings = Returned tt w'
       /\ map rejected_title (mind_rejected_learnings (db w'))
          = [str "Ask first"]
       /\ map id (mind_learnings (db w')) = [1].
Proof.
  split; [reflexivity|].
  destruct (@rejectLearning_tombstone two_learnings 2 eq_refl)
    as (w' & Hrun & Htomb & Hrest & _).
  exists w'. split; [exact Hrun|].
  rewrite Htomb, Hrest. split; reflexivity.
Defined.

End StoreClaims.

(** ** The identity builder *)

Section Running.

Variable S : Type.
Variable quiet : S -> Prop.

Lemma runs_ret (A : Type) (a : A) : runs quiet (ret a).
Proof. intros s Hs. exists a, s. split; [reflexivity | exact Hs]. Qed.

Lemma runs_bind (A B : Type) (m : M S A) (k : A -> M S B) :
  runs quiet m -> (forall a, runs quiet (k a)) -> runs quiet (bind m k).
Proof.
  intros Hm Hk s Hs. destruct (Hm s Hs) as (a & s1 & Hrun & Hs1).
  unfold bind. rewrite Hrun. apply Hk. exact Hs1.
Qed.


Lemma runs_for_each (A : Type) (xs : list A) (body : A -> M S unit) :
  (forall x, runs quiet (body x)) -> runs quiet (Identity.for_each xs body).
Proof.
  intros Hb. induction xs as [|x xs IH]; cbn [Identity.for_each].
  - apply runs_ret.
  - apply runs_bind; [apply Hb | intros _; exact IH].
Qed.

End Running.

Section IdentityClaims.
Import Store Identity.

Lemma runs_statement (A : Type) (f : Db -> A * Db) :
  runs quiet_store (statement f).
Proof.
  intros w Hw. rewrite (statement_runs _ Hw).
  eexists. eexists. split; reflexivity.
Qed.

Lemma runs_Date_now : runs quiet_store Date_now.
Proof. intros w Hw. exists (clock w), w. split; [reflexivity | exact Hw]. Qed.

Lemma runs_on_store (A : Type) (m : M World A) :
  runs quiet_store m -> runs quiet_env (on_store m).
Proof.
  intros Hm e He. destruct (Hm (mindStore e) He) as (a & w & Hrun & Hw).
  unfold on_store. rewrite Hrun. eexists. eexists. split; [reflexivity|].
  exact Hw.
Qed.

Ltac runs_store :=
  repeat first
    [ apply runs_ret
    | apply runs_Date_now
    | apply runs_statement
    | apply runs_bind; [|intros ?] ].

Lemma runs_getApprovedLearnings : runs quiet_store Store.getApprovedLearnings.
Proof. unfold Store.getApprovedLearnings. runs_store. Qed.

Lemma runs_getRecentActions days key :
  runs quiet_store (getRecentActions days key).
Proof. unfold getRecentActions. destruct (given key); runs_store. Qed.

Lemma runs_activateLearning target : runs quiet_store (activateLearning target).
Proof. unfold activateLearning. runs_store. Qed.

Lemma runs_formatApprovedLearnings (rt : Runtime) :
  runs quiet_store (formatApprovedLearnings rt).
Proof.
  unfold formatApprovedLearnings.
  apply runs_bind; [apply runs_getApprovedLearnings|].
  intros [|l ls]; apply runs_ret.
Qed.

Lemma runs_formatRecentActions (rt : Runtime) key limit :
  runs quiet_store (formatRecentActions rt key limit).
Proof.
  unfold formatRecentActions.
  apply runs_bind; [apply runs_getRecentActions|].
  intros recent. destruct (firstn limit recent); apply runs_ret.
Qed.

Lemma runs_refreshLearningsCache (rt : Runtime) key :
  runs quiet_env (refreshLearningsCache rt key).
Proof.
  unfold refreshLearningsCache.
  apply runs_bind; [apply runs_on_store, runs_getApprovedLearnings|].
  intros approved_learnings. apply runs_bind.
  - destruct (given key); [|apply runs_ret].
    apply runs_bind; [apply runs_on_store, runs_getRecentActions|].
    intros recent. apply runs_for_each. intros learning.
    match goal with |- context [if ?b then _ else _] => destruct b end;
      [apply runs_on_store, runs_activateLearning | apply runs_ret].
  - intros _.
    apply runs_bind; [apply runs_on_store, runs_formatApprovedLearnings|].
    intros text.
    apply runs_bind; [apply runs_on_store, runs_Date_now|]. intros now.
    apply runs_bind;
      [intros e He; eexists; eexists; split; [reflexivity | exact He]|].
    intros agent.
    apply runs_bind;
      [intros e He; eexists; eexists; split; [reflexivity | exact He]|].
    intros _. apply runs_ret.
Qed.




End IdentityClaims.

(** * Further properties *)

(** ** The matcher, in general *)

Section MatcherFacts.
Import Regex.

Lemma rmatch_Star (g : bool) (r : regex) (prev : option Z) (s : list Z)
    (n : nat) (k : cont) :
  rmatch (Star g r) prev s n k
  = star_loop (rmatch r) g k (S (List.length s)) prev s n.
Proof. reflexivity. Qed.

Lemma search_false (r : regex) (prev : option Z) (s : list Z) :
  search r prev s = false ->
  match_at r prev s = None
  /\ match s with
     | [] => True
     | c :: t => search r (Some c) t = false
     end.
Proof.
  destruct s as [|c t]; cbn [search];
    destruct (match_at r prev _); intros H; try discriminate H; auto.
Qed.

(** Where no position starts a match, the replacement changes nothing. *)
Lemma replace_go_no_match (r : regex) (repl : jsstring) (s : list Z) :
  forall prev, search r prev s = false -> replace_go r repl prev s 0 = s.
Proof.
  induction s as [|c t IH]; intros prev H;
    destruct (search_false H) as [Hm Ht]; cbn [replace_go]; rewrite Hm.
  - reflexivity.
  - f_equal. apply IH. exact Ht.
Qed.

Lemma replace_all_no_match (r : regex) (repl s : jsstring) :
  test r s = false -> replace_all r repl s = s.
Proof. apply replace_go_no_match. Qed.

(** Code units with the same lower-case form are the same to every test of
    the matcher. *)
Lemma lower_ascii_cases (x y : Z) :
  lower_ascii x = lower_ascii y ->
  x = y \/ (65 <= x <= 90 /\ y = x + 32) \/ (65 <= y <= 90 /\ x = y + 32).
Proof.
  unfold lower_ascii.
  destruct ((65 <=? x) && (x <=? 90)) eqn:Hx;
    destruct ((65 <=? y) && (y <=? 90)) eqn:Hy; intros H;
    try (apply andb_prop in Hx; destruct Hx as [Hx1 Hx2];
         apply Z.leb_le in Hx1; apply Z.leb_le in Hx2);
    try (apply andb_prop in Hy; destruct Hy as [Hy1 Hy2];
         apply Z.leb_le in Hy1; apply Z.leb_le in Hy2);
    lia.
Qed.

Ltac decide_comparisons :=
  repeat match goal with
         | |- context [?a <=? ?b] =>
             first [ replace (a <=? b) with true
                       by (symmetry; apply Z.leb_le; lia)
                   | replace (a <=? b) with false
                       by (symmetry; apply Z.leb_gt; lia) ]
         | |- context [?a =? ?b] =>
             first [ replace (a =? b) with false
                       by (symmetry; apply Z.eqb_neq; lia)
                   | replace (a =? b) with true
                       by (symmetry; apply Z.eqb_eq; lia) ]
         end;
  cbn [andb orb negb].

Ltac by_letter_cases H :=
  destruct (lower_ascii_cases H) as [-> | [[Hr ->] | [Hr ->]]];
  [ reflexivity | | ]; decide_comparisons; try reflexivity; try lia.

Lemma canonicalize_same (x y : Z) :
  lower_ascii x = lower_ascii y -> canonicalize x = canonicalize y.
Proof. intros H. unfold canonicalize. by_letter_cases H. Qed.

Lemma is_space_same (x y : Z) :
  lower_ascii x = lower_ascii y -> is_space x = is_space y.
Proof. intros H. unfold is_space. by_letter_cases H. Qed.

Lemma is_line_terminator_same (x y : Z) :
  lower_ascii x = lower_ascii y -> is_line_terminator x = is_line_terminator y.
Proof. intros H. unfold is_line_terminator. by_letter_cases H. Qed.

Lemma item_matches_same (x y : Z) (items : list citem) :
  lower_ascii x = lower_ascii y ->
  existsb (item_matches x) items = existsb (item_matches y) items.
Proof.
  intros H. induction items as [|i items IH]; [reflexivity|].
  cbn [existsb]. rewrite IH. f_equal.
  destruct i; cbn [item_matches];
    [rewrite (canonicalize_same H) | rewrite (is_space_same H)]; reflexivity.
Qed.

Lemma star_loop_alike step step' (g : bool) (k k' : cont) :
  steps_alike step step' -> conts_alike k k' ->
  forall fuel prev prev' s s' n,
    alike s s' ->
    star_loop step g k fuel prev s n = star_loop step' g k' fuel prev' s' n.
Proof.
  intros Hstep Hk. induction fuel as [|f IH]; intros prev prev' s s' n Hs;
    cbn [star_loop].
  - now apply Hk.
  - rewrite (Hk prev prev' s s' n Hs).
    rewrite (Hstep prev prev' s s' n
               (fun p s1 n' => if (n <? n')%nat
                               then star_loop step g k f p s1 n' else None)
               (fun p s1 n' => if (n <? n')%nat
                               then star_loop step' g k' f p s1 n' else None)
               Hs).
    + reflexivity.
    + intros p p' s1 s1' n1 H1. destruct (n <? n1)%nat; [|reflexivity].
      now apply IH.
Qed.

(** A regex without [\b] gives the same answer on two inputs with the same
    letters, whatever stands before them. *)
Lemma rmatch_alike (r : regex) :
  boundary_free r = true -> steps_alike (rmatch r) (rmatch r).
Proof.
  induction r as [ | c | items | | | r1 IH1 r2 IH2 | r1 IH1 r2 IH2 | g r1 IH1 ];
    cbn [boundary_free]; intros Hb prev prev' s s' n k k' Hs Hk;
    try discriminate Hb.
  - cbn [rmatch]. now apply Hk.
  - cbn [rmatch]. destruct Hs as [|x y t t' Hxy Ht]; [reflexivity|].
    rewrite (canonicalize_same Hxy).
    destruct (canonicalize y =? canonicalize c); [now apply Hk | reflexivity].
  - cbn [rmatch]. destruct Hs as [|x y t t' Hxy Ht]; [reflexivity|].
    rewrite (item_matches_same items Hxy).
    destruct (existsb (item_matches y) items); [now apply Hk | reflexivity].
  - cbn [rmatch]. destruct Hs as [|x y t t' Hxy Ht]; [reflexivity|].
    rewrite (is_line_terminator_same Hxy).
    destruct (is_line_terminator y); [reflexivity | now apply Hk].
  - apply andb_prop in Hb. destruct Hb as [Hb1 Hb2].
    rewrite !rmatch_Seq. apply (IH1 Hb1); [exact Hs|].
    intros p p' s1 s1' n1 H1. now apply (IH2 Hb2).
  - apply andb_prop in Hb. destruct Hb as [Hb1 Hb2]. cbn [rmatch].
    rewrite (IH1 Hb1 prev prev' s s' n k k' Hs Hk).
    rewrite (IH2 Hb2 prev prev' s s' n k k' Hs Hk). reflexivity.
  - rewrite !rmatch_Star. rewrite (Forall2_length Hs).
    apply star_loop_alike; [apply (IH1 Hb) | exact Hk | exact Hs].
Qed.

Lemma match_at_alike (r : regex) (prev prev' : option Z) (s s' : list Z) :
  boundary_free r = true -> alike s s' ->
  match_at r prev s = match_at r prev' s'.
Proof.
  intros Hb Hs. unfold match_at. apply (rmatch_alike Hb); [exact Hs|].
  intros p p' s1 s1' n1 _. reflexivity.
Qed.

Lemma search_alike (r : regex) (s s' : list Z) :
  boundary_free r = true -> alike s s' ->
  forall prev prev', search r prev s = search r prev' s'.
Proof.
  intros Hb Hs. induction Hs as [|x y t t' Hxy Ht IH]; intros prev prev';
    cbn [search].
  - rewrite (match_at_alike prev prev' Hb (Forall2_nil _)). reflexivity.
  - rewrite (match_at_alike prev prev' Hb
               (Forall2_cons x y Hxy Ht)).
    destruct (match_at r prev' (y :: t')); [reflexivity | apply IH].
Qed.

Lemma alike_refl (s : list Z) : alike s s.
Proof. induction s; constructor; auto. Qed.

Lemma same_letters_alike (s s' : jsstring) : same_letters s s' -> alike s s'.
Proof.
  unfold same_letters. revert s'.
  induction s as [|x s IH]; intros [|y s'] H; try discriminate H.
  - constructor.
  - cbn [map] in H. injection H as Hxy Hs. constructor; [exact Hxy | now apply IH].
Qed.

End MatcherFacts.

(** ** The matcher on a longer input *)

Section MatcherGrowth.
Import Regex.

Lemma star_loop_extend (post : list Z) step step' (g : bool) (k k' : cont) :
  steps_extend post step step' -> conts_extend post k k' ->
  forall fuel fuel' prev prev' s n,
    (fuel <= fuel')%nat ->
    star_loop step g k fuel prev s n <> None ->
    star_loop step' g k' fuel' prev' (s ++ post) n <> None.
Proof.
  intros Hstep Hk. induction fuel as [|f IH];
    intros fuel' prev prev' s n Hle H; cbn [star_loop] in H.
  - specialize (Hk prev prev' s n H).
    destruct fuel' as [|f']; cbn [star_loop]; [exact Hk|].
    destruct g.
    + match goal with |- match ?a with _ => _ end <> _ => destruct a end;
        [discriminate | exact Hk].
    + destruct (k' prev' (s ++ post) n); [discriminate | contradiction].
  - destruct fuel' as [|f']; [lia|]. cbn [star_loop].
    assert (Hagain :
      step prev s n
        (fun p s1 n' => if (n <? n')%nat
                        then star_loop step g k f p s1 n' else None) <> None ->
      step' prev' (s ++ post) n
        (fun p s1 n' => if (n <? n')%nat
                        then star_loop step' g k' f' p s1 n' else None)
      <> None).
    { apply Hstep. intros p p' s1 n1. cbv beta.
      destruct (n <? n1)%nat; [|contradiction].
      apply (IH f' p p' s1 n1). lia. }
    destruct g.
    + match type of H with
      | match ?a with _ => _ end <> _ => destruct a eqn:Ea
      end.
      * match goal with |- match ?a with _ => _ end <> _ => destruct a end;
          [discriminate|]. exfalso. apply Hagain; [discriminate | reflexivity].
      * match goal with |- match ?a with _ => _ end <> _ => destruct a end;
          [discriminate | exact (Hk prev prev' s n H)].
    + destruct (k prev s n) eqn:Ek.
      * assert (Hk' : k' prev' (s ++ post) n <> None)
          by (apply (Hk prev prev' s n); rewrite Ek; discriminate).
        destruct (k' prev' (s ++ post) n); [discriminate | contradiction].
      * destruct (k' prev' (s ++ post) n); [discriminate|].
        exact (Hagain H).
Qed.

(** A regex without [\b] that matches at the start of an input matches at
    the start of every longer input, whatever stands before. *)
Lemma rmatch_extend (post : list Z) (r : regex) :
  boundary_free r = true -> steps_extend post (rmatch r) (rmatch r).
Proof.
  induction r as [ | c | items | | | r1 IH1 r2 IH2 | r1 IH1 r2 IH2 | g r1 IH1 ];
    cbn [boundary_free]; intros Hb prev prev' s n k k' Hk H;
    try discriminate Hb.
  - cbn [rmatch] in *. exact (Hk _ _ _ _ H).
  - destruct s as [|x t]; cbn [rmatch app] in *; [contradiction|].
    destruct (canonicalize x =? canonicalize c); [|contradiction].
    exact (Hk _ _ _ _ H).
  - destruct s as [|x t]; cbn [rmatch app] in *; [contradiction|].
    destruct (existsb (item_matches x) items); [|contradiction].
    exact (Hk _ _ _ _ H).
  - destruct s as [|x t]; cbn [rmatch app] in *; [contradiction|].
    destruct (is_line_terminator x); [contradiction|].
    exact (Hk _ _ _ _ H).
  - apply andb_prop in Hb. destruct Hb as [Hb1 Hb2].
    rewrite rmatch_Seq in *. revert H. apply (IH1 Hb1).
    intros p p' s1 n1. apply (IH2 Hb2). exact Hk.
  - apply andb_prop in Hb. destruct Hb as [Hb1 Hb2]. cbn [rmatch] in *.
    destruct (rmatch r1 prev s n k) eqn:E1.
    + assert (H1 : rmatch r1 prev' (s ++ post) n k' <> None)
        by (apply (IH1 Hb1 prev prev' s n k k' Hk); rewrite E1; discriminate).
      destruct (rmatch r1 prev' (s ++ post) n k'); [discriminate | contradiction].
    + destruct (rmatch r1 prev' (s ++ post) n k'); [discriminate|].
      exact (IH2 Hb2 prev prev' s n k k' Hk H).
  - rewrite rmatch_Star in *. revert H.
    apply star_loop_extend; [apply (IH1 Hb) | exact Hk |].
    rewrite length_app. lia.
Qed.

Lemma match_at_extend (r : regex) (post s : list Z) (prev prev' : option Z) :
  boundary_free r = true ->
  match_at r prev s <> None -> match_at r prev' (s ++ post) <> None.
Proof.
  intros Hb. unfold match_at.
  apply (@rmatch_extend post r Hb prev prev' s 0%nat
           (fun _ _ n => Some n) (fun _ _ n => Some n)).
  intros p p' s1 n1 _. discriminate.
Qed.

Lemma search_app_r (r : regex) (post s : list Z) :
  boundary_free r = true ->
  forall prev prev', search r prev s = true ->
                     search r prev' (s ++ post) = true.
Proof.
  intros Hb. induction s as [|c t IH]; intros prev prev' H;
    cbn [search] in H.
  - destruct (match_at r prev []) eqn:E; [|discriminate H].
    assert (Hm : match_at r prev' ([] ++ post) <> None)
      by (apply (@match_at_extend r post _ prev prev' Hb);
          rewrite E; discriminate).
    cbn [app] in *. destruct post; cbn [search];
      destruct (match_at r prev' _); congruence.
  - cbn [app search].
    destruct (match_at r prev (c :: t)) eqn:E.
    + assert (Hm : match_at r prev' ((c :: t) ++ post) <> None)
        by (apply (@match_at_extend r post _ prev prev' Hb);
            rewrite E; discriminate).
      cbn [app] in Hm. destruct (match_at r prev' (c :: t ++ post));
        [reflexivity | contradiction].
    + destruct (match_at r prev' (c :: t ++ post)); [reflexivity|].
      exact (IH _ _ H).
Qed.

Lemma search_app_l (r : regex) (pre s : list Z) :
  boundary_free r = true ->
  forall prev prev', search r prev s = true ->
                     search r prev' (pre ++ s) = true.
Proof.
  intros Hb. induction pre as [|c pre IH]; intros prev prev' H.
  - cbn [app]. rewrite <- H. apply search_alike; [exact Hb | apply alike_refl].
  - cbn [app search]. destruct (match_at r prev' (c :: pre ++ s));
      [reflexivity | exact (IH _ _ H)].
Qed.

Lemma test_inside (r : regex) (pre s post : list Z) :
  boundary_free r = true -> test r s = true ->
  test r (pre ++ s ++ post) = true.
Proof.
  intros Hb H. unfold test in *.
  apply (@search_app_l r pre _ Hb None). apply (@search_app_r r post _ Hb None). exact H.
Qed.

End MatcherGrowth.

(** ** The stress detector, further *)

Section StressExtras.
Import Regex StressDetection.

Lemma stress_patterns_boundary_free :
  forall p, In p STRESS_PATTERNS -> boundary_free p = true.
Proof. apply forallb_forall. vm_compute. reflexivity. Qed.

(** X1: a text is stress whenever a part of it is: no pattern of
    [STRESS_PATTERNS] is anchored or has a word boundary. *)
Theorem detectStressRegex_inside (pre text post : jsstring) :
  detectStressRegex text = true ->
  detectStressRegex (pre ++ text ++ post) = true.
Proof.
  unfold detectStressRegex. intros H.
  apply existsb_exists in H. destruct H as (p & Hin & Hp).
  apply existsb_exists. exists p. split; [exact Hin|].
  apply test_inside; [apply stress_patterns_boundary_free, Hin | exact Hp].
Qed.

Lemma detectStressRegex_inside_try_again :
  detectStressRegex (str "try again") = true
  /\ detectStressRegex (str "I will " ++ str "try again" ++ str " tomorrow, thanks!")
     = true.
Proof.
  assert (H : detectStressRegex (str "try again") = true)
    by (vm_compute; reflexivity).
  split; [exact H|].
  exact (@detectStressRegex_inside (str "I will ") (str "try again")
           (str " tomorrow, thanks!") H).
Defined.

Lemma existsb_same (A : Type) (f g : A -> bool) (l : list A) :
  (forall x, In x l -> f x = g x) -> existsb f l = existsb g l.
Proof.
  induction l as [|x l IH]; intros H; [reflexivity|].
  cbn [existsb]. rewrite (H x (or_introl eq_refl)). f_equal.
  apply IH. intros y Hy. apply H. now right.
Qed.

(** X2: the verdict of [detectStressRegex] does not depend on the case of
    the ASCII letters of the text. *)
Theorem detectStressRegex_case (text text' : jsstring) :
  same_letters text text' -> detectStressRegex text = detectStressRegex text'.
Proof.
  intros H. unfold detectStressRegex. apply existsb_same. intros p Hin.
  unfold test. apply search_alike;
    [apply stress_patterns_boundary_free, Hin | now apply same_letters_alike].
Qed.

Lemma detectStressRegex_case_try_again :
  same_letters (str "TRY Again") (str "try again")
  /\ detectStressRegex (str "TRY Again") = detectStressRegex (str "try again").
Proof.
  split; [reflexivity|].
  exact (@detectStressRegex_case (str "TRY Again") (str "try again") eq_refl).
Defined.

End StressExtras.

(** ** The sanitizer, further *)

Section SanitizerExtras.
Import Regex Tools.

Lemma fold_replace_clean (pats : list regex) (s : jsstring) :
  existsb (fun p => test p s) pats = false ->
  fold_left (fun acc p => replace_all p filtered acc) pats s = s.
Proof.
  induction pats as [|p pats IH]; intros H; [reflexivity|].
  cbn [existsb] in H. apply orb_false_iff in H. destruct H as [Hp Hrest].
  cbn [fold_left]. rewrite (@replace_all_no_match p filtered s Hp). now apply IH.
Qed.

(** X3: a prompt that no injection pattern matches and that fits the bound
    comes back as it is. *)
Theorem sanitizeDreamPrompt_clean (prompt : jsstring) (maxLength : Z) :
  existsb (fun p => test p prompt) INJECTION_PATTERNS = false ->
  (Z.of_nat (List.length prompt) <= maxLength)%Z ->
  sanitizeDreamPrompt prompt maxLength = prompt.
Proof.
  intros Hclean Hlen. unfold sanitizeDreamPrompt.
  rewrite (@fold_replace_clean INJECTION_PATTERNS prompt Hclean).
  destruct (Z.of_nat (List.length prompt) >? maxLength)%Z eqn:E;
    [|reflexivity].
  rewrite Z.gtb_ltb in E. apply Z.ltb_lt in E. lia.
Qed.

Lemma sanitizeDreamPrompt_clean_heading :
  existsb (fun p => test p (str "# Dream Phase Analysis")) INJECTION_PATTERNS
  = false
  /\ sanitizeDreamPrompt (str "# Dream Phase Analysis") default_maxLength
     = str "# Dream Phase Analysis".
Proof.
  assert (H : existsb (fun p => test p (str "# Dream Phase Analysis"))
                INJECTION_PATTERNS = false) by (vm_compute; reflexivity).
  split; [exact H|].
  apply (@sanitizeDreamPrompt_clean (str "# Dream Phase Analysis")
           default_maxLength H).
  vm_compute. discriminate.
Defined.

(** X4: with the default bound, the sanitized prompt has at most 30000 code
    units plus the 44 of the suffix. *)
Theorem sanitizeDreamPrompt_default_length (prompt : jsstring) :
  (Z.of_nat (List.length (sanitizeDreamPrompt prompt default_maxLength))
   <= 30044)%Z.
Proof.
  pose proof (@sanitizeDreamPrompt_length prompt default_maxLength) as H.
  change (Z.of_nat (List.length truncation_suffix)) with 44%Z in H.
  unfold default_maxLength in *. lia.
Qed.

(** *** The tags of the last pattern *)

Lemma starts_ci_cons (c x : Z) (word s : list Z) :
  starts_ci (c :: word) (x :: s)
  = (canonicalize x =? canonicalize c) && starts_ci word s.
Proof. reflexivity. Qed.

Lemma starts_ci_nil (c : Z) (word : list Z) : starts_ci (c :: word) [] = false.
Proof. reflexivity. Qed.

Lemma rmatch_chars (l : list Z) :
  forall prev s n,
    rmatch (seq (map Chr l)) prev s n accept
    = if starts_ci l s then Some (n + List.length l)%nat else None.
Proof.
  induction l as [|c l IH]; intros prev s n.
  - cbn. unfold accept. now rewrite Nat.add_0_r.
  - destruct l as [|c' l'].
    + cbn [map seq rmatch List.length].
      destruct s as [|x t]; [reflexivity|]. rewrite starts_ci_cons.
      destruct (canonicalize x =? canonicalize c); [|reflexivity].
      unfold accept. cbn [andb starts_ci]. f_equal. lia.
    + change (seq (map Chr (c :: c' :: l')))
        with (Seq (Chr c) (seq (map Chr (c' :: l')))).
      rewrite rmatch_Seq. cbn [rmatch].
      destruct s as [|x t]; [reflexivity|]. rewrite starts_ci_cons.
      destruct (canonicalize x =? canonicalize c); [|reflexivity].
      cbn [andb]. rewrite IH.
      destruct (starts_ci (c' :: l') t); [|reflexivity].
      f_equal. cbn [List.length]. lia.
Qed.

(** What the last pattern finds at a position: its closing form, nine code
    units, or its opening form, eight. *)
Lemma match_at_system_tag (prev : option Z) (s : list Z) :
  match_at system_tag_pattern prev s
  = if starts_ci close_tag s then Some 9%nat
    else if starts_ci open_tag s then Some 8%nat else None.
Proof.
  unfold match_at, system_tag_pattern, Opt, lit.
  change (seq [Chr 60; Alt (Chr 47) Eps; seq (map Chr (str "system>"))])
    with (Seq (Chr 60) (Seq (Alt (Chr 47) Eps) (seq (map Chr (str "system>"))))).
  change close_tag with (60 :: 47 :: str "system>").
  change open_tag with (60 :: str "system>").
  rewrite rmatch_Seq. cbn [rmatch starts_ci].
  destruct s as [|x t]; [reflexivity|].
  destruct (canonicalize x =? canonicalize 60); [|reflexivity].
  cbn [andb]. fold accept.
  destruct t as [|y u].
  - rewrite rmatch_chars. cbn [starts_ci].
    change (starts_ci (47 :: str "system>") []) with false. cbv iota.
    reflexivity.
  - cbn [starts_ci]. destruct (canonicalize y =? canonicalize 47) eqn:E.
    + cbn [andb]. rewrite !rmatch_chars.
      destruct (starts_ci (str "system>") u); [reflexivity|].
      destruct (starts_ci (str "system>") (y :: u)); reflexivity.
    + cbn [andb]. rewrite rmatch_chars.
      destruct (starts_ci (str "system>") (y :: u)); reflexivity.
Qed.

Lemma system_tag_boundary_free : boundary_free system_tag_pattern = true.
Proof. reflexivity. Qed.

Lemma avoids_tail (h c : Z) (word : list Z) :
  avoids h (c :: word) -> avoids h word.
Proof. intros H x Hx. apply H. now right. Qed.

(** A word that has no [[] and begins the text after a replacement by
    [[filtered]] begins the text before it. *)
Lemma starts_ci_replace (r : regex) (word : list Z) :
  avoids 91 word ->
  forall prev s,
    starts_ci word (replace_go r filtered prev s 0) = true ->
    starts_ci word s = true.
Proof.
  induction word as [|c word IH]; intros Hav prev s H; [reflexivity|].
  assert (Hc : (canonicalize 91 =? canonicalize c) = false)
    by (apply Hav; now left).
  destruct s as [|x t]; cbn [replace_go] in H.
  - destruct (match_at r prev []) as [[|n]|];
      [ | | rewrite starts_ci_nil in H; discriminate H ];
      change (filtered ++ []) with (91 :: (str "filtered]" ++ [])) in H;
      rewrite starts_ci_cons, Hc in H; discriminate H.
  - destruct (match_at r prev (x :: t)) as [[|n]|].
    + change (filtered ++ x :: replace_go r filtered (Some x) t 0)
        with (91 :: (str "filtered]" ++ x :: replace_go r filtered (Some x) t 0))
        in H.
      rewrite starts_ci_cons, Hc in H. discriminate H.
    + change (filtered ++ replace_go r filtered (Some x) t n)
        with (91 :: (str "filtered]" ++ replace_go r filtered (Some x) t n))
        in H.
      rewrite starts_ci_cons, Hc in H. discriminate H.
    + rewrite starts_ci_cons in *. apply andb_prop in H. destruct H as [H1 H2].
      rewrite H1. cbn [andb].
      exact (IH (avoids_tail Hav) (Some x) t H2).
Qed.

(** A word that has no line feed and begins a truncated text begins the
    text. *)
Lemma starts_ci_truncated (word : list Z) :
  avoids 10 word ->
  forall m s,
    starts_ci word (firstn m s ++ truncation_suffix) = true ->
    starts_ci word s = true.
Proof.
  induction word as [|c word IH]; intros Hav m s H; [reflexivity|].
  assert (Hc : (canonicalize 10 =? canonicalize c) = false)
    by (apply Hav; now left).
  change truncation_suffix
    with (10 :: 10 :: str "...[dream logs truncated for token budget]") in H.
  destruct m as [|m]; [|destruct s as [|x t]].
  - cbn [firstn app] in H. rewrite starts_ci_cons, Hc in H. discriminate H.
  - cbn [firstn app] in H. rewrite starts_ci_cons, Hc in H. discriminate H.
  - cbn [firstn app] in H. rewrite starts_ci_cons in *. apply andb_prop in H.
    destruct H as [H1 H2]. rewrite H1. cbn [andb].
    exact (IH (avoids_tail Hav) m t H2).
Qed.

Lemma avoids_decide (h : Z) (word : list Z) :
  forallb (fun c => negb (canonicalize h =? canonicalize c)) word = true ->
  avoids h word.
Proof.
  intros H c Hin. rewrite forallb_forall in H.
  apply negb_true_iff. now apply H.
Qed.

Lemma tags_avoid_bracket : avoids 91 open_tag /\ avoids 91 close_tag.
Proof. split; apply avoids_decide; vm_compute; reflexivity. Qed.

Lemma tags_avoid_line_feed : avoids 10 open_tag /\ avoids 10 close_tag.
Proof. split; apply avoids_decide; vm_compute; reflexivity. Qed.

Lemma no_tag_without_lt (x : Z) (t : list Z) (p : option Z) :
  (canonicalize x =? canonicalize 60) = false ->
  search system_tag_pattern p (x :: t)
  = search system_tag_pattern (Some x) t.
Proof.
  intros Hx. cbn [search]. rewrite match_at_system_tag.
  change close_tag with (60 :: 47 :: str "system>").
  change open_tag with (60 :: str "system>").
  cbn [starts_ci]. rewrite Hx. reflexivity.
Qed.

Lemma search_skip_prefix (pref t : list Z) :
  Forall (fun x => (canonicalize x =? canonicalize 60) = false) pref ->
  (forall p, search system_tag_pattern p t = false) ->
  forall p, search system_tag_pattern p (pref ++ t) = false.
Proof.
  intros Hpref Ht. induction Hpref as [|x pref Hx _ IH]; intros p;
    [apply Ht|].
  cbn [app]. rewrite (no_tag_without_lt _ _ Hx). apply IH.
Qed.

Lemma Forall_decide (P : Z -> bool) (l : list Z) :
  forallb P l = true -> Forall (fun x => P x = true) l.
Proof. intros H. apply Forall_forall. now apply forallb_forall. Qed.

Lemma filtered_has_no_lt :
  Forall (fun x => (canonicalize x =? canonicalize 60) = false) filtered.
Proof.
  apply Forall_forall. intros x Hx.
  assert (H : forallb (fun x => negb (canonicalize x =? canonicalize 60))
                filtered = true) by (vm_compute; reflexivity).
  rewrite forallb_forall in H. apply negb_true_iff. now apply H.
Qed.

Lemma suffix_has_no_lt :
  Forall (fun x => (canonicalize x =? canonicalize 60) = false)
    truncation_suffix.
Proof.
  apply Forall_forall. intros x Hx.
  assert (H : forallb (fun x => negb (canonicalize x =? canonicalize 60))
                truncation_suffix = true) by (vm_compute; reflexivity).
  rewrite forallb_forall in H. apply negb_true_iff. now apply H.
Qed.

Lemma search_nil_system_tag (p : option Z) :
  search system_tag_pattern p [] = false.
Proof. cbn [search]. rewrite match_at_system_tag. reflexivity. Qed.

(** After the last pass no position starts a tag. *)
Lemma replace_go_system_tag (s : list Z) :
  forall prev skip p,
    search system_tag_pattern p
      (replace_go system_tag_pattern filtered prev s skip) = false.
Proof.
  induction s as [|c t IH]; intros prev skip p.
  - destruct skip as [|k]; cbn [replace_go].
    + destruct (match_at system_tag_pattern prev []) as [[|n]|];
        rewrite ?app_nil_r;
        try apply search_nil_system_tag;
        (rewrite <- (app_nil_r filtered);
         apply search_skip_prefix;
         [apply filtered_has_no_lt | apply search_nil_system_tag]).
    + apply search_nil_system_tag.
  - destruct skip as [|k]; cbn [replace_go]; [|apply IH].
    destruct (match_at system_tag_pattern prev (c :: t)) as [[|n]|] eqn:E.
    + rewrite match_at_system_tag in E.
      destruct (starts_ci close_tag (c :: t)); [discriminate E|].
      destruct (starts_ci open_tag (c :: t)); discriminate E.
    + apply search_skip_prefix; [apply filtered_has_no_lt | intros q; apply IH].
    + cbn [search].
      assert (Hnone :
        match_at system_tag_pattern p
          (c :: replace_go system_tag_pattern filtered (Some c) t 0) = None).
      { rewrite match_at_system_tag in *.
        assert (Hsame :
          c :: replace_go system_tag_pattern filtered (Some c) t 0
          = replace_go system_tag_pattern filtered prev (c :: t) 0).
        { cbn [replace_go]. rewrite match_at_system_tag.
          destruct (starts_ci close_tag (c :: t)); [discriminate E|].
          destruct (starts_ci open_tag (c :: t)); [discriminate E|].
          reflexivity. }
        rewrite Hsame.
        destruct (starts_ci close_tag (replace_go _ _ prev (c :: t) 0)) eqn:Ec.
        - apply (starts_ci_replace (proj2 tags_avoid_bracket)) in Ec.
          rewrite Ec in E. discriminate E.
        - destruct (starts_ci open_tag (replace_go _ _ prev (c :: t) 0)) eqn:Eo;
            [|reflexivity].
          apply (starts_ci_replace (proj1 tags_avoid_bracket)) in Eo.
          rewrite Eo in E.
          destruct (starts_ci close_tag (c :: t)); discriminate E. }
      rewrite Hnone. apply IH.
Qed.

Lemma search_truncated (s : list Z) :
  (forall p, search system_tag_pattern p s = false) ->
  forall m p,
    search system_tag_pattern p (firstn m s ++ truncation_suffix) = false.
Proof.
  induction s as [|c t IH]; intros Hs m p.
  - rewrite firstn_nil. cbn [app]. rewrite <- (app_nil_r truncation_suffix).
    apply search_skip_prefix; [apply suffix_has_no_lt|].
    apply search_nil_system_tag.
  - destruct m as [|m].
    + cbn [firstn app]. rewrite <- (app_nil_r truncation_suffix).
      apply search_skip_prefix; [apply suffix_has_no_lt|].
      apply search_nil_system_tag.
    + cbn [firstn app search].
      pose proof (Hs p) as Hp. apply search_false in Hp.
      destruct Hp as [Hm Ht]. rewrite match_at_system_tag in *.
      destruct (starts_ci close_tag (c :: firstn m t ++ truncation_suffix))
        eqn:Ec.
      { apply (@starts_ci_truncated close_tag (proj2 tags_avoid_line_feed)
                 (S m) (c :: t)) in Ec.
        rewrite Ec in Hm. discriminate Hm. }
      destruct (starts_ci open_tag (c :: firstn m t ++ truncation_suffix))
        eqn:Eo.
      { apply (@starts_ci_truncated open_tag (proj1 tags_avoid_line_feed)
                 (S m) (c :: t)) in Eo.
        rewrite Eo in Hm.
        destruct (starts_ci close_tag (c :: t)); discriminate Hm. }
      apply IH. intros q.
      rewrite (@search_alike system_tag_pattern t t system_tag_boundary_free
                 (alike_refl t) q (Some c)).
      exact Ht.
Qed.

Lemma injection_patterns_last :
  INJECTION_PATTERNS
  = firstn 5 INJECTION_PATTERNS ++ [system_tag_pattern].
Proof. reflexivity. Qed.

(** X5: no sanitized prompt holds a system tag.  The last pattern finds
    nothing in it, and it has no part that reads [<system>] or [</system>]
    in any letter case, whatever the prompt and the bound. *)
Theorem sanitizeDreamPrompt_no_system_tag (prompt : jsstring) (maxLength : Z) :
  test (last INJECTION_PATTERNS Eps) (sanitizeDreamPrompt prompt maxLength)
  = false
  /\ forall pre tag post,
       same_letters tag (str "<system>") \/ same_letters tag (str "</system>") ->
       sanitizeDreamPrompt prompt maxLength <> pre ++ tag ++ post.
Proof.
  assert (Htest :
    test system_tag_pattern (sanitizeDreamPrompt prompt maxLength) = false).
  { unfold sanitizeDreamPrompt. rewrite injection_patterns_last.
    rewrite fold_left_app. cbn [fold_left].
    set (before := fold_left _ (firstn 5 INJECTION_PATTERNS) prompt).
    assert (Hall : forall p,
      search system_tag_pattern p
        (replace_all system_tag_pattern filtered before) = false)
      by (intros p; apply replace_go_system_tag).
    destruct (Z.of_nat _ >? maxLength)%Z.
    - apply search_truncated. exact Hall.
    - apply Hall. }
  split; [exact Htest|].
  intros pre tag post Htag Heq. rewrite Heq in Htest.
  assert (Hin : test system_tag_pattern (pre ++ tag ++ post) = true).
  { apply test_inside; [reflexivity|]. unfold test.
    destruct Htag as [Htag | Htag];
      rewrite (@search_alike system_tag_pattern _ _ system_tag_boundary_free
                 (same_letters_alike Htag) None None);
      vm_compute; reflexivity. }
  rewrite Hin in Htest. discriminate Htest.
Qed.

End SanitizerExtras.

(** ** The store, further *)

Section StoreInvariants.
Import Store.

Variable P : Db -> Prop.

Lemma keeps_P_ret (A : Type) (a : A) : keeps P (ret a).
Proof. intros w H. exact H. Qed.

Lemma keeps_P_Date_now : keeps P Date_now.
Proof. intros w H. exact H. Qed.

Lemma keeps_P_bind (A B : Type) (m : M World A) (k : A -> M World B) :
  keeps P m -> (forall a, keeps P (k a)) -> keeps P (bind m k).
Proof.
  intros Hm Hk w Hw. unfold bind. specialize (Hm w Hw).
  destruct (m w) as [a w1 | w1]; cbn [state_of] in Hm.
  - apply Hk. exact Hm.
  - exact Hm.
Qed.

Lemma keeps_P_statement (A : Type) (f : Db -> A * Db) :
  (forall d, P d -> P (snd (f d))) -> keeps P (statement f).
Proof.
  intros Hf w Hw. unfold statement. specialize (Hf (db w) Hw).
  destruct (faults w) as [|[|] rest]; destruct (f (db w)); exact Hf || exact Hw.
Qed.

(** An invariant of the statements of every write operation is an
    invariant of every sequence of calls. *)
Hypothesis P_addLog : forall rt c p k, keeps P (addLog rt c p k).
Hypothesis P_logAction : forall rt t a k, keeps P (logAction rt t a k).
Hypothesis P_addLearning : forall t c r a, keeps P (addLearning t c r a).
Hypothesis P_approveLearning : forall i, keeps P (approveLearning i).
Hypothesis P_rejectLearning : forall i, keeps P (rejectLearning i).
Hypothesis P_activateLearning : forall i, keeps P (activateLearning i).
Hypothesis P_applyDecay : keeps P applyDecay.
Hypothesis P_recordDream : forall d l p, keeps P (recordDream d l p).

Lemma perform_keeps (rt : Runtime) (c : Call) (w : World) :
  P (db w) -> P (db (perform rt c w)).
Proof.
  destruct c; cbn [perform];
    [ apply P_addLog | apply P_logAction | apply P_addLearning
    | apply P_approveLearning | apply P_rejectLearning
    | apply P_activateLearning | apply P_applyDecay | apply P_recordDream ].
Qed.

Lemma run_keeps (rt : Runtime) (script : list Step) :
  forall w, P (db w) -> P (db (run rt script w)).
Proof.
  induction script as [|s script IH]; intros w Hw; [exact Hw|].
  cbn [run fold_left]. apply IH. unfold run_step.
  apply perform_keeps. exact Hw.
Qed.

End StoreInvariants.

Ltac keeps_steps :=
  repeat first
    [ apply keeps_P_ret
    | apply keeps_P_Date_now
    | apply keeps_P_bind; [|intros ?]
    | apply keeps_P_statement; intros d Hd; cbn [snd] ].

Section StoreIds.
Import Store.

Lemma table_ok_append (A : Type) (key : A -> Z) (rows : list A) (seq : Z)
    (row : A) :
  table_ok key rows seq -> key row = seq + 1 ->
  table_ok key (rows ++ [row]) (seq + 1).
Proof.
  intros (Hseq & Hnd & Hall) Hrow. split; [lia|]. split.
  - rewrite map_app. cbn [map].
    apply NoDup_app; [exact Hnd | repeat constructor; intros [] |].
    intros x Hin Hx. destruct Hx as [Hx | []].
    apply in_map_iff in Hin. destruct Hin as (r & Hr & Hin).
    rewrite Forall_forall in Hall. specialize (Hall r Hin). lia.
  - apply Forall_app. split.
    + eapply Forall_impl; [|exact Hall]. cbv beta. intros r Hr. lia.
    + constructor; [lia | constructor].
Qed.

Lemma table_ok_map (A : Type) (key : A -> Z) (rows : list A) (seq : Z)
    (f : A -> A) :
  (forall r, key (f r) = key r) ->
  table_ok key rows seq -> table_ok key (map f rows) seq.
Proof.
  intros Hf (Hseq & Hnd & Hall). split; [exact Hseq|]. split.
  - rewrite map_map. erewrite map_ext; [exact Hnd | exact Hf].
  - apply Forall_map. eapply Forall_impl; [|exact Hall]. cbv beta.
    intros r Hr. rewrite Hf. exact Hr.
Qed.

Lemma NoDup_map_filter (A : Type) (key : A -> Z) (c : A -> bool)
    (rows : list A) :
  NoDup (map key rows) -> NoDup (map key (filter c rows)).
Proof.
  induction rows as [|r rows IH]; intros H; [constructor|].
  cbn [map] in H. apply NoDup_cons_iff in H. destruct H as [Hnotin Hnd].
  cbn [filter]. destruct (c r); [|now apply IH].
  cbn [map]. constructor; [|now apply IH].
  intros Hin. apply Hnotin. apply in_map_iff in Hin.
  destruct Hin as (x & Hx & Hin). apply filter_In in Hin.
  apply in_map_iff. exists x. tauto.
Qed.

Lemma table_ok_filter (A : Type) (key : A -> Z) (rows : list A) (seq : Z)
    (c : A -> bool) :
  table_ok key rows seq -> table_ok key (filter c rows) seq.
Proof.
  intros (Hseq & Hnd & Hall). split; [exact Hseq|]. split.
  - now apply NoDup_map_filter.
  - apply Forall_forall. intros r Hin. apply filter_In in Hin.
    rewrite Forall_forall in Hall. now apply Hall.
Qed.

Ltac ids_step :=
  match goal with
  | Hd : ids_ok _ |- ids_ok _ =>
      destruct Hd as (Hlog & Hlearn & Hdream & Hact & Hrej);
      unfold ids_ok;
      cbn [mind_log mind_learnings mind_dreams mind_actions
             mind_rejected_learnings seq_log seq_learnings seq_dreams
             seq_actions seq_rejected set_learnings];
      (split; [|split; [|split; [|split]]]); try assumption;
      first [ apply table_ok_append; [assumption | reflexivity]
            | apply table_ok_map; [intros r; destruct (_ : bool); reflexivity | assumption]
            | apply table_ok_filter; assumption ]
  end.

Lemma ids_addLog (rt : Runtime) c p k : keeps ids_ok (addLog rt c p k).
Proof. unfold addLog. keeps_steps. ids_step. Qed.

Lemma ids_logAction (rt : Runtime) t a k : keeps ids_ok (logAction rt t a k).
Proof.
  unfold logAction. destruct (buildActionSummary rt t a) as [[|c s]|];
    keeps_steps. ids_step.
Qed.

Lemma ids_addLearning t c r a : keeps ids_ok (addLearning t c r a).
Proof. unfold addLearning. keeps_steps. ids_step. Qed.

Lemma ids_approveLearning target : keeps ids_ok (approveLearning target).
Proof. unfold approveLearning. keeps_steps. ids_step. Qed.

Lemma ids_rejectLearning target : keeps ids_ok (rejectLearning target).
Proof.
  unfold rejectLearning. keeps_steps.
  - exact Hd.
  - destruct a as [l|]; keeps_steps. ids_step.
  - ids_step.
Qed.

Lemma ids_activateLearning target : keeps ids_ok (activateLearning target).
Proof. unfold activateLearning. keeps_steps. ids_step. Qed.

Lemma ids_applyDecay : keeps ids_ok applyDecay.
Proof. unfold applyDecay. keeps_steps; ids_step. Qed.

Lemma ids_recordDream days logCount text :
  keeps ids_ok (recordDream days logCount text).
Proof. unfold recordDream. keeps_steps. ids_step. Qed.

Lemma ids_ok_empty : ids_ok empty_db.
Proof.
  unfold ids_ok, table_ok. cbn.
  repeat split; try lia; constructor.
Qed.

Lemma run_ids_ok (rt : Runtime) (script : list Step) (w : World) :
  ids_ok (db w) -> ids_ok (db (run rt script w)).
Proof.
  apply run_keeps;
    [ apply ids_addLog | apply ids_logAction | apply ids_addLearning
    | apply ids_approveLearning | apply ids_rejectLearning
    | apply ids_activateLearning | apply ids_applyDecay
    | apply ids_recordDream ].
Qed.

End StoreIds.

(** *** Histories of the tables *)

Section StoreRelations.
Import Store.

Variable R : Db -> Db -> Prop.
Hypothesis R_refl : forall d, R d d.
Hypothesis R_trans : forall d1 d2 d3, R d1 d2 -> R d2 d3 -> R d1 d3.

Lemma evolves_ret (A : Type) (a : A) : evolves R (ret a).
Proof. intros w. apply R_refl. Qed.

Lemma evolves_Date_now : evolves R Date_now.
Proof. intros w. apply R_refl. Qed.

Lemma evolves_bind (A B : Type) (m : M World A) (k : A -> M World B) :
  evolves R m -> (forall a, evolves R (k a)) -> evolves R (bind m k).
Proof.
  intros Hm Hk w. unfold bind. specialize (Hm w).
  destruct (m w) as [a w1 | w1]; cbn [state_of] in *.
  - eapply R_trans; [exact Hm | apply Hk].
  - exact Hm.
Qed.

Lemma evolves_statement (A : Type) (f : Db -> A * Db) :
  (forall d, R d (snd (f d))) -> evolves R (statement f).
Proof.
  intros Hf w. unfold statement. specialize (Hf (db w)).
  destruct (faults w) as [|[|] rest]; destruct (f (db w));
    cbn [state_of with_db db snd] in *; exact Hf || apply R_refl.
Qed.

Hypothesis R_addLog : forall rt c p k, evolves R (addLog rt c p k).
Hypothesis R_logAction : forall rt t a k, evolves R (logAction rt t a k).
Hypothesis R_addLearning : forall t c r a, evolves R (addLearning t c r a).
Hypothesis R_approveLearning : forall i, evolves R (approveLearning i).
Hypothesis R_rejectLearning : forall i, evolves R (rejectLearning i).
Hypothesis R_activateLearning : forall i, evolves R (activateLearning i).
Hypothesis R_applyDecay : evolves R applyDecay.
Hypothesis R_recordDream : forall d l p, evolves R (recordDream d l p).

Lemma perform_evolves (rt : Runtime) (c : Call) (w : World) :
  R (db w) (db (perform rt c w)).
Proof.
  destruct c; cbn [perform];
    [ apply R_addLog | apply R_logAction | apply R_addLearning
    | apply R_approveLearning | apply R_rejectLearning
    | apply R_activateLearning | apply R_applyDecay | apply R_recordDream ].
Qed.

Lemma run_evolves (rt : Runtime) (script : list Step) :
  forall w, R (db w) (db (run rt script w)).
Proof.
  induction script as [|s script IH]; intros w; [apply R_refl|].
  cbn [run fold_left]. eapply R_trans; [|apply IH].
  unfold run_step.
  exact (perform_evolves rt (call s)
           {| db := db w; agentId := agentId w; clock := at_time s;
              faults := storage_faults s |}).
Qed.

End StoreRelations.

Ltac evolves_steps Hrefl Htrans :=
  repeat first
    [ apply (evolves_ret Hrefl)
    | apply (evolves_Date_now Hrefl)
    | apply (evolves_bind Htrans); [|intros ?]
    | apply (evolves_statement Hrefl); intros d; cbn [snd] ].

Section StoreHistory.
Import Store.

Lemma grows_refl (d : Db) : grows d d.
Proof. repeat split; exists []; now rewrite app_nil_r. Qed.

Lemma grows_trans (d1 d2 d3 : Db) : grows d1 d2 -> grows d2 d3 -> grows d1 d3.
Proof.
  intros ([a1 Ha1] & [b1 Hb1] & [c1 Hc1] & [e1 He1])
         ([a2 Ha2] & [b2 Hb2] & [c2 Hc2] & [e2 He2]).
  repeat split;
    [ exists (a1 ++ a2); rewrite Ha2, Ha1
    | exists (b1 ++ b2); rewrite Hb2, Hb1
    | exists (c1 ++ c2); rewrite Hc2, Hc1
    | exists (e1 ++ e2); rewrite He2, He1 ];
    now rewrite app_assoc.
Qed.

Ltac grows_step :=
  unfold grows;
  cbn [mind_log mind_actions mind_dreams mind_rejected_learnings
         set_learnings];
  repeat split;
  first [ exists []; now rewrite app_nil_r | eexists; reflexivity ].

Ltac grows_steps := evolves_steps grows_refl grows_trans; try grows_step.

Lemma grows_addLog (rt : Runtime) c p k : evolves grows (addLog rt c p k).
Proof. unfold addLog. grows_steps. Qed.

Lemma grows_logAction (rt : Runtime) t a k :
  evolves grows (logAction rt t a k).
Proof.
  unfold logAction. destruct (buildActionSummary rt t a) as [[|c s]|];
    grows_steps.
Qed.

Lemma grows_addLearning t c r a : evolves grows (addLearning t c r a).
Proof. unfold addLearning. grows_steps. Qed.

Lemma grows_approveLearning i : evolves grows (approveLearning i).
Proof. unfold approveLearning. grows_steps. Qed.

Lemma grows_rejectLearning i : evolves grows (rejectLearning i).
Proof.
  unfold rejectLearning. grows_steps. destruct a as [l|]; grows_steps.
Qed.

Lemma grows_activateLearning i : evolves grows (activateLearning i).
Proof. unfold activateLearning. grows_steps. Qed.

Lemma grows_applyDecay : evolves grows applyDecay.
Proof. unfold applyDecay. grows_steps. Qed.

Lemma grows_recordDream days logCount text :
  evolves grows (recordDream days logCount text).
Proof. unfold recordDream. grows_steps. Qed.

(** X7: logs, actions, dreams and tombstones are append-only.  After every
    sequence of write operations, from every store, each of these four
    tables is the table of before followed by new rows: no operation
    deletes or edits a row of them, even when the storage layer fails. *)
Theorem append_only (rt : Runtime) (script : list Step) (w : World) :
  grows (db w) (db (run rt script w)).
Proof.
  apply (run_evolves grows_refl grows_trans);
    [ apply grows_addLog | apply grows_logAction | apply grows_addLearning
    | apply grows_approveLearning | apply grows_rejectLearning
    | apply grows_activateLearning | apply grows_applyDecay
    | apply grows_recordDream ].
Qed.

Lemma same_learning_refl (l : MindLearning) : same_learning l l.
Proof. unfold same_learning. repeat split; auto; lia. Qed.

Lemma same_learning_trans (l1 l2 l3 : MindLearning) :
  same_learning l1 l2 -> same_learning l2 l3 -> same_learning l1 l3.
Proof.
  unfold same_learning. intros (A1 & A2 & A3 & A4 & A5 & A6 & A7)
                               (B1 & B2 & B3 & B4 & B5 & B6 & B7).
  repeat split; try congruence; try lia; auto.
Qed.

Lemma descends_refl (d : Db) : descends d d.
Proof.
  split; [lia|]. intros l' Hin _. exists l'.
  split; [exact Hin | apply same_learning_refl].
Qed.

Lemma descends_trans (d1 d2 d3 : Db) :
  descends d1 d2 -> descends d2 d3 -> descends d1 d3.
Proof.
  intros [Hs1 H1] [Hs2 H2]. split; [lia|].
  intros l3 Hin3 Hid3.
  destruct (H2 l3 Hin3 ltac:(lia)) as (l2 & Hin2 & Hsame2).
  assert (Hid2 : id l2 <= seq_learnings d1)
    by (destruct Hsame2 as (E & _); lia).
  destruct (H1 l2 Hin2 Hid2) as (l1 & Hin1 & Hsame1).
  exists l1. split; [exact Hin1|].
  exact (same_learning_trans Hsame1 Hsame2).
Qed.

(** The learnings after a statement that maps some rows through [f] and
    keeps the others. *)
Lemma descends_map (d : Db) (c : MindLearning -> bool)
    (f : MindLearning -> MindLearning) :
  (forall l, same_learning l (f l)) ->
  descends d (set_learnings d
                (map (fun l => if c l then f l else l) (mind_learnings d))).
Proof.
  intros Hf. split; [cbn; lia|].
  cbn [mind_learnings set_learnings]. intros l' Hin _.
  apply in_map_iff in Hin. destruct Hin as (l & Hl & Hin).
  exists l. split; [exact Hin|]. subst l'.
  destruct (c l); [apply Hf | apply same_learning_refl].
Qed.

Lemma descends_filter (d : Db) (c : MindLearning -> bool) :
  descends d (set_learnings d (filter c (mind_learnings d))).
Proof.
  split; [cbn; lia|]. cbn [mind_learnings set_learnings]. intros l' Hin _.
  apply filter_In in Hin. exists l'.
  split; [tauto | apply same_learning_refl].
Qed.

Lemma same_learning_approve (l : MindLearning) : same_learning l (approve l).
Proof. unfold same_learning, approve. cbn. repeat split; auto; lia. Qed.

Lemma same_learning_activate (now : Z) (l : MindLearning) :
  same_learning l (activate now l).
Proof. unfold same_learning, activate. cbn. repeat split; auto; lia. Qed.

Lemma same_learning_decay (l : MindLearning) : same_learning l (decay l).
Proof. unfold same_learning, decay. cbn. repeat split; auto; lia. Qed.

Ltac descends_same :=
  split; [cbn; lia|];
  cbn [mind_learnings seq_learnings]; intros l' Hin Hid;
  exists l'; split; [exact Hin | apply same_learning_refl].

Ltac descends_steps := evolves_steps descends_refl descends_trans.

Lemma descends_addLog (rt : Runtime) c p k :
  evolves descends (addLog rt c p k).
Proof. unfold addLog. descends_steps. descends_same. Qed.

Lemma descends_logAction (rt : Runtime) t a k :
  evolves descends (logAction rt t a k).
Proof.
  unfold logAction. destruct (buildActionSummary rt t a) as [[|c s]|];
    descends_steps. descends_same.
Qed.

Lemma descends_addLearning t c r a : evolves descends (addLearning t c r a).
Proof.
  unfold addLearning. descends_steps. split; [cbn; lia|].
  cbn [mind_learnings seq_learnings]. intros l' Hin Hid.
  apply in_app_or in Hin. destruct Hin as [Hin | [<- | []]].
  - exists l'. split; [exact Hin | apply same_learning_refl].
  - cbn [id] in Hid. lia.
Qed.

Lemma descends_approveLearning i : evolves descends (approveLearning i).
Proof.
  unfold approveLearning. descends_steps.
  apply descends_map. apply same_learning_approve.
Qed.

Lemma descends_rejectLearning i : evolves descends (rejectLearning i).
Proof.
  unfold rejectLearning. descends_steps.
  - apply descends_refl.
  - destruct a as [l|]; descends_steps. descends_same.
  - apply descends_filter.
Qed.

Lemma descends_activateLearning i : evolves descends (activateLearning i).
Proof.
  unfold activateLearning. descends_steps.
  apply descends_map. apply same_learning_activate.
Qed.

Lemma descends_applyDecay : evolves descends applyDecay.
Proof.
  unfold applyDecay. descends_steps.
  - apply descends_map. apply same_learning_decay.
  - apply descends_filter.
Qed.

Lemma descends_recordDream days logCount text :
  evolves descends (recordDream days logCount text).
Proof. unfold recordDream. descends_steps. descends_same. Qed.

(** X8: a learning keeps its identity.  After every sequence of write
    operations, from every store, every learning whose id had already been
    handed out is a learning of before with that id, the same title,
    content, rationale and creation time, at least as many activations,
    and still approved if it was. *)
Theorem learning_history (rt : Runtime) (script : list Step) (w : World) :
  descends (db w) (db (run rt script w)).
Proof.
  apply (run_evolves descends_refl descends_trans);
    [ apply descends_addLog | apply descends_logAction
    | apply descends_addLearning | apply descends_approveLearning
    | apply descends_rejectLearning | apply descends_activateLearning
    | apply descends_applyDecay | apply descends_recordDream ].
Qed.

End StoreHistory.

(** *** Action memory *)

Section StoreFreshIds.
Import Store.

Lemma table_fresh_refl (A : Type) (key : A -> Z) (rows : list A) (seq : Z) :
  table_fresh key rows seq rows seq.
Proof.
  split; [lia|]. intros r Hin _. apply in_map. exact Hin.
Qed.

Lemma table_fresh_trans (A : Type) (key : A -> Z) (r1 r2 r3 : list A)
    (s1 s2 s3 : Z) :
  table_fresh key r1 s1 r2 s2 -> table_fresh key r2 s2 r3 s3 ->
  table_fresh key r1 s1 r3 s3.
Proof.
  intros [H12 F12] [H23 F23]. split; [lia|]. intros r Hin Hle.
  assert (Hin2 : In (key r) (map key r2)) by (apply F23; [exact Hin | lia]).
  apply in_map_iff in Hin2. destruct Hin2 as (x & Hx & Hin2).
  rewrite <- Hx. apply F12; [exact Hin2 | lia].
Qed.

Lemma table_fresh_append (A : Type) (key : A -> Z) (rows : list A) (seq : Z)
    (row : A) :
  key row = seq + 1 -> table_fresh key rows seq (rows ++ [row]) (seq + 1).
Proof.
  intros Hrow. split; [lia|]. intros r Hin Hle.
  apply in_app_or in Hin. destruct Hin as [Hin | [<- | []]];
    [apply in_map; exact Hin | lia].
Qed.

Lemma table_fresh_map (A : Type) (key : A -> Z) (rows : list A) (seq : Z)
    (f : A -> A) :
  (forall r, key (f r) = key r) -> table_fresh key rows seq (map f rows) seq.
Proof.
  intros Hf. split; [lia|]. intros r Hin _.
  apply in_map_iff in Hin. destruct Hin as (x & <- & Hin).
  rewrite Hf. apply in_map. exact Hin.
Qed.

Lemma table_fresh_filter (A : Type) (key : A -> Z) (rows : list A) (seq : Z)
    (c : A -> bool) :
  table_fresh key rows seq (filter c rows) seq.
Proof.
  split; [lia|]. intros r Hin _. apply filter_In in Hin.
  apply in_map. tauto.
Qed.

Lemma ids_fresh_refl (d : Db) : ids_fresh d d.
Proof. repeat split; try lia; intros r Hin _; apply in_map; exact Hin. Qed.

Lemma ids_fresh_trans (d1 d2 d3 : Db) :
  ids_fresh d1 d2 -> ids_fresh d2 d3 -> ids_fresh d1 d3.
Proof.
  intros (A1 & A2 & A3 & A4 & A5) (B1 & B2 & B3 & B4 & B5).
  repeat (split; [eapply table_fresh_trans; eassumption|]).
  eapply table_fresh_trans; eassumption.
Qed.

Ltac fresh_step :=
  unfold ids_fresh;
  cbn [mind_log mind_learnings mind_dreams mind_actions
         mind_rejected_learnings seq_log seq_learnings seq_dreams
         seq_actions seq_rejected set_learnings];
  (split; [|split; [|split; [|split]]]);
  first [ apply table_fresh_refl
        | apply table_fresh_append; reflexivity
        | apply table_fresh_map; intros r; destruct (_ : bool); reflexivity
        | apply table_fresh_filter ].

Ltac fresh_steps := evolves_steps ids_fresh_refl ids_fresh_trans; try fresh_step.

Lemma fresh_addLog (rt : Runtime) c p k : evolves ids_fresh (addLog rt c p k).
Proof. unfold addLog. fresh_steps. Qed.

Lemma fresh_logAction (rt : Runtime) t a k :
  evolves ids_fresh (logAction rt t a k).
Proof.
  unfold logAction. destruct (buildActionSummary rt t a) as [[|c s]|];
    fresh_steps.
Qed.

Lemma fresh_addLearning t c r a : evolves ids_fresh (addLearning t c r a).
Proof. unfold addLearning. fresh_steps. Qed.

Lemma fresh_approveLearning i : evolves ids_fresh (approveLearning i).
Proof. unfold approveLearning. fresh_steps. Qed.

Lemma fresh_rejectLearning i : evolves ids_fresh (rejectLearning i).
Proof.
  unfold rejectLearning. fresh_steps. destruct a as [l|]; fresh_steps.
Qed.

Lemma fresh_activateLearning i : evolves ids_fresh (activateLearning i).
Proof. unfold activateLearning. fresh_steps. Qed.

Lemma fresh_applyDecay : evolves ids_fresh applyDecay.
Proof. unfold applyDecay. fresh_steps. Qed.

Lemma fresh_recordDream days logCount text :
  evolves ids_fresh (recordDream days logCount text).
Proof. unfold recordDream. fresh_steps. Qed.

(** X6: no id is given twice.  At every point of a history of write
    operations on a new store, whatever the storage layer does, in each of
    the five tables the ids are distinct, positive and at most the counter
    of the table; and from that point on the counter never goes back and
    every row whose id is at most the counter of that point carries the id
    of a row of that point; so the id of a learning deleted by then is
    never the id of a learning again. *)
Theorem ids_unique (rt : Runtime) (script script' : list Step)
    (agent : jsstring) (now : Z) (fs : list bool) :
  let w := run rt script (open_store agent now fs) in
  ids_ok (db w)
  /\ ids_fresh (db w) (db (run rt script' w))
  /\ forall i, i <= seq_learnings (db w) ->
                ~ In i (map id (mind_learnings (db w))) ->
                ~ In i (map id (mind_learnings (db (run rt script' w)))).
Proof.
  intros w.
  assert (Hfresh : ids_fresh (db w) (db (run rt script' w))).
  { apply (run_evolves ids_fresh_refl ids_fresh_trans);
      [ apply fresh_addLog | apply fresh_logAction | apply fresh_addLearning
      | apply fresh_approveLearning | apply fresh_rejectLearning
      | apply fresh_activateLearning | apply fresh_applyDecay
      | apply fresh_recordDream ]. }
  split; [apply run_ids_ok; apply ids_ok_empty|]. split; [exact Hfresh|].
  intros i Hi Hout Hin. apply Hout.
  destruct Hfresh as (_ & [_ Hlearn] & _).
  apply in_map_iff in Hin. destruct Hin as (l & <- & Hin).
  apply Hlearn; [exact Hin | exact Hi].
Qed.

End StoreFreshIds.

Section StoreActions.
Import Store.

Lemma summary_not_trivial (rt : Runtime) (toolName : jsstring)
    (args : JsValue) (s : jsstring) :
  buildActionSummary rt toolName args = Some s ->
  has TRIVIAL_TOOLS toolName = false.
Proof.
  unfold buildActionSummary. destruct (has TRIVIAL_TOOLS toolName);
    [discriminate | reflexivity].
Qed.

Ltac actions_same :=
  unfold actions_ok in *; cbn [mind_actions set_learnings]; assumption.

Lemma actions_addLog (rt : Runtime) c p k : keeps actions_ok (addLog rt c p k).
Proof. unfold addLog. keeps_steps. actions_same. Qed.

Lemma actions_logAction (rt : Runtime) t a k :
  keeps actions_ok (logAction rt t a k).
Proof.
  unfold logAction.
  destruct (buildActionSummary rt t a) as [[|c s]|] eqn:E; keeps_steps.
  unfold actions_ok in *. cbn [mind_actions]. apply Forall_app.
  split; [exact Hd|]. constructor; [|constructor].
  split; cbn [summary tool_name]; [discriminate|].
  exact (summary_not_trivial E).
Qed.

Lemma actions_addLearning t c r a : keeps actions_ok (addLearning t c r a).
Proof. unfold addLearning. keeps_steps. actions_same. Qed.

Lemma actions_approveLearning i : keeps actions_ok (approveLearning i).
Proof. unfold approveLearning. keeps_steps. actions_same. Qed.

Lemma actions_rejectLearning i : keeps actions_ok (rejectLearning i).
Proof.
  unfold rejectLearning. keeps_steps; try actions_same.
  destruct a as [l|]; keeps_steps. actions_same.
Qed.

Lemma actions_activateLearning i : keeps actions_ok (activateLearning i).
Proof. unfold activateLearning. keeps_steps. actions_same. Qed.

Lemma actions_applyDecay : keeps actions_ok applyDecay.
Proof. unfold applyDecay. keeps_steps; actions_same. Qed.

Lemma actions_recordDream days logCount text :
  keeps actions_ok (recordDream days logCount text).
Proof. unfold recordDream. keeps_steps. actions_same. Qed.

(** X9: after every sequence of write operations on a new store, every
    action row has a non-empty summary and the name of a tool outside
    [TRIVIAL_TOOLS]. *)
Theorem actions_never_trivial (rt : Runtime) (script : list Step)
    (agent : jsstring) (now : Z) (fs : list bool) :
  Forall action_ok
    (mind_actions (db (run rt script (open_store agent now fs)))).
Proof.
  apply (@run_keeps actions_ok);
    [ apply actions_addLog | apply actions_logAction
    | apply actions_addLearning | apply actions_approveLearning
    | apply actions_rejectLearning | apply actions_activateLearning
    | apply actions_applyDecay | apply actions_recordDream | constructor ].
Qed.

(** X10: on a tool outside [TRIVIAL_TOOLS], when the storage layer runs the
    statement, [logAction] returns the next id of the table and appends
    one row, with the tool, its summary, the session key and the time of
    the call; the other tables stay.  The id is not the sentinel -1 once
    the ids are non-negative. *)
Theorem logAction_logged (rt : Runtime) (toolName : jsstring)
    (args : JsValue) (sessionKey : jsstring) (w : World) :
  faults w = [] ->
  has TRIVIAL_TOOLS toolName = false ->
  exists the_summary w',
    buildActionSummary rt toolName args = Some the_summary
    /\ the_summary <> []
    /\ logAction rt toolName args sessionKey w
       = Returned (seq_actions (db w) + 1) w'
    /\ mind_actions (db w')
       = mind_actions (db w)
         ++ [ {| action_id := seq_actions (db w) + 1;
                 tool_name := toolName; summary := the_summary;
                 args_snapshot := JSON_stringify rt args;
                 action_session_key := sessionKey;
                 action_created_at := clock w |} ]
    /\ mind_log (db w') = mind_log (db w)
    /\ mind_learnings (db w') = mind_learnings (db w)
    /\ mind_dreams (db w') = mind_dreams (db w)
    /\ mind_rejected_learnings (db w') = mind_rejected_learnings (db w)
    /\ (0 <= seq_actions (db w) -> seq_actions (db w) + 1 <> -1).
Proof.
  intros Hq Hno.
  destruct (buildActionSummary_nonempty rt args Hno) as (c & s & Hs).
  exists (c :: s). eexists. split; [exact Hs|]. split; [discriminate|].
  split.
  - unfold logAction. rewrite Hs. unfold bind, Date_now.
    rewrite (statement_runs _ Hq). cbn [fst snd]. reflexivity.
  - cbn [with_db db mind_actions mind_log mind_learnings mind_dreams
           mind_rejected_learnings].
    repeat split. lia.
Qed.

Lemma logAction_logged_read :
  faults (open_store (str "main") 0 []) = []
  /\ has TRIVIAL_TOOLS (str "read") = false
  /\ logAction example_runtime (str "read")
       (JObject [(str "path", JString (str "/tmp/a"))]) []
       (open_store (str "main") 0 [])
     = Returned 1 (store_with_action (str "read") (str "Read file: /tmp/a")).
Proof.
  split; [reflexivity|]. split; [reflexivity|].
  destruct (@logAction_logged example_runtime (str "read")
              (JObject [(str "path", JString (str "/tmp/a"))]) []
              (open_store (str "main") 0 []) eq_refl eq_refl)
    as (s & w' & _ & _ & Hrun & _).
  rewrite Hrun. vm_compute in Hrun. injection Hrun as <-. reflexivity.
Defined.

Lemma truncate_length (s : jsstring) (max : nat) :
  (List.length (truncate s max) <= max + 3)%nat.
Proof.
  unfold truncate. destruct (max <? List.length s)%nat eqn:E.
  - rewrite length_app, length_firstn.
    change (List.length (str "...")) with 3%nat. lia.
  - apply Nat.ltb_ge in E. lia.
Qed.

Ltac decide_branches :=
  repeat match goal with
         | |- context [if ?b then _ else _] =>
             let v := eval vm_compute in b in
             change b with v; cbv iota
         end.

(** X11: the summary of [exec], [bash], [browser], [web_search] and
    [web_fetch] has at most 96 code units, whatever the arguments: the
    argument it embeds is cut at 80 or 60 code units. *)
Theorem summary_bounded (rt : Runtime) (toolName : jsstring) (args : JsValue) :
  In toolName truncating_tools ->
  exists s, buildActionSummary rt toolName args = Some s
            /\ (List.length s <= 96)%nat.
Proof.
  intros Hin. unfold truncating_tools in Hin. cbn [In] in Hin.
  destruct Hin as [<- | [<- | [<- | [<- | [<- | []]]]]];
    unfold buildActionSummary; cbv zeta; decide_branches;
    eexists; (split; [reflexivity|]);
    rewrite ?length_app;
    match goal with
    | |- context [truncate ?x ?m] => pose proof (truncate_length x m)
    end;
    repeat match goal with
           | |- context [List.length (str ?x)] =>
               let v := eval vm_compute in (List.length (str x)) in
               change (List.length (str x)) with v
           end;
    cbn [List.length quote]; lia.
Qed.

Lemma summary_bounded_exec :
  In (str "exec") truncating_tools
  /\ exists s, buildActionSummary example_runtime (str "exec")
                 (JObject [(str "command", JString (str "ls"))]) = Some s
               /\ (List.length s <= 96)%nat.
Proof.
  assert (Hin : In (str "exec") truncating_tools) by (left; reflexivity).
  split; [exact Hin|].
  exact (@summary_bounded example_runtime (str "exec")
           (JObject [(str "command", JString (str "ls"))]) Hin).
Defined.

End StoreActions.

(** *** Reads of the learnings and of the actions *)

Section Sorting.

Variable A : Type.
Variable before : A -> A -> bool.

Lemma insert_by_perm (x : A) (l : list A) :
  Permutation (insert_by before x l) (x :: l).
Proof.
  induction l as [|y l IH]; cbn [insert_by]; [reflexivity|].
  destruct (before y x); [|reflexivity].
  rewrite IH. apply perm_swap.
Qed.

Lemma order_by_desc_perm (l : list A) : Permutation (order_by_desc before l) l.
Proof.
  unfold order_by_desc. rewrite (Permutation_rev l) at 2.
  induction (rev l) as [|x r IH]; cbn [fold_right]; [reflexivity|].
  rewrite insert_by_perm. now constructor.
Qed.

Hypothesis before_total : forall a b, before a b = true \/ before b a = true.
Hypothesis before_trans :
  forall a b c, before a b = true -> before b c = true -> before a c = true.

Lemma insert_by_sorted (x : A) (l : list A) :
  StronglySorted (fun a b => before a b = true) l ->
  StronglySorted (fun a b => before a b = true) (insert_by before x l).
Proof.
  intros H. induction H as [|y l Hl IH Hy]; cbn [insert_by].
  - repeat constructor.
  - destruct (before y x) eqn:E.
    + constructor; [exact IH|].
      apply Forall_forall. intros z Hz.
      apply (Permutation_in _ (insert_by_perm x l)) in Hz.
      destruct Hz as [<- | Hz]; [exact E|].
      rewrite Forall_forall in Hy. now apply Hy.
    + assert (Hxy : before x y = true)
        by (destruct (before_total x y) as [H | H]; congruence).
      constructor; [constructor; assumption|].
      constructor; [exact Hxy|].
      eapply Forall_impl; [|exact Hy]. cbv beta. intros z Hz.
      exact (before_trans Hxy Hz).
Qed.

Lemma order_by_desc_sorted (l : list A) :
  StronglySorted (fun a b => before a b = true) (order_by_desc before l).
Proof.
  unfold order_by_desc.
  induction (rev l) as [|x r IH]; cbn [fold_right]; [constructor|].
  now apply insert_by_sorted.
Qed.

End Sorting.

Lemma StronglySorted_weaken (A : Type) (R R' : A -> A -> Prop) (l : list A) :
  (forall a b, R a b -> R' a b) -> StronglySorted R l -> StronglySorted R' l.
Proof.
  intros HR H. induction H as [|x l Hl IH Hx]; constructor; [exact IH|].
  eapply Forall_impl; [|exact Hx]. intros y. apply HR.
Qed.

Section StoreReadsOfLearnings.
Import Store.

Lemma with_db_quiet (w : World) : faults w = [] -> with_db w (db w) [] = w.
Proof. destruct w as [d a c f]. cbn. intros ->. reflexivity. Qed.

Lemma set_learnings_same (d : Db) : set_learnings d (mind_learnings d) = d.
Proof. destruct d. reflexivity. Qed.

(** A statement that only reads returns its rows and leaves a quiet store
    as it was. *)
Lemma query_runs (A : Type) (q : Db -> A) (w : World) :
  faults w = [] -> statement (fun d => (q d, d)) w = Returned (q (db w)) w.
Proof.
  intros Hq. rewrite (statement_runs _ Hq). cbn [fst snd].
  now rewrite with_db_quiet.
Qed.

(** X12: on a quiet store [getApprovedLearnings] returns the approved
    learnings, each once, by falling relevance (one that is no number,
    which the column refuses, would come last), and
    [getPendingLearnings] the learnings awaiting approval, newest first;
    neither changes the store. *)
Theorem learnings_sorted (w : World) :
  faults w = [] ->
  (exists ls,
      Store.getApprovedLearnings w = Returned ls w
      /\ Permutation ls
           (filter (fun l => approved l =? 1) (mind_learnings (db w)))
      /\ StronglySorted
           (fun a b =>
              is_nan (relevance_score b) = true
              \/ (relevance_score b <=? relevance_score a)%float = true)
           ls)
  /\ (exists ps,
         getPendingLearnings w = Returned ps w
         /\ Permutation ps
              (filter (fun l => approved l =? 0) (mind_learnings (db w)))
         /\ StronglySorted (fun a b => created_at b <= created_at a) ps).
Proof.
  intros Hq. split; eexists; (split; [apply (query_runs _ Hq)|]);
    (split; [apply order_by_desc_perm|]).
  - eapply StronglySorted_weaken;
      [|apply order_by_desc_sorted].
    + intros a b H. unfold sql_le in H. now apply orb_true_iff.
    + intros a b. apply sql_le_total.
    + intros a b c H1 H2. exact (sql_le_trans H2 H1).
  - eapply StronglySorted_weaken;
      [|apply order_by_desc_sorted].
    + intros a b H. now apply Z.leb_le.
    + intros a b. destruct (Z.le_ge_cases (created_at b) (created_at a));
        [left | right]; now apply Z.leb_le.
    + intros a b c H1 H2. apply Z.leb_le in H1, H2. apply Z.leb_le. lia.
Qed.

(** The two reads of the learnings on a quiet store. *)
Lemma learnings_sorted_lists (w : World) :
  faults w = [] ->
  exists ls ps,
    Store.getApprovedLearnings w = Returned ls w
    /\ getPendingLearnings w = Returned ps w
    /\ Permutation ls
         (filter (fun l => approved l =? 1) (mind_learnings (db w)))
    /\ Permutation ps
         (filter (fun l => approved l =? 0) (mind_learnings (db w))).
Proof.
  intros Hq. eexists. eexists.
  split; [apply (query_runs _ Hq)|]. split; [apply (query_runs _ Hq)|].
  split; apply order_by_desc_perm.
Qed.

Lemma learnings_sorted_two_learnings :
  faults two_learnings = []
  /\ exists ls,
       Store.getApprovedLearnings two_learnings = Returned ls two_learnings
       /\ map id ls = [1].
Proof.
  split; [reflexivity|].
  destruct (proj1 (@learnings_sorted two_learnings eq_refl))
    as (ls & Hrun & _).
  exists ls. split; [exact Hrun|].
  vm_compute in Hrun. injection Hrun as <-. reflexivity.
Defined.

End StoreReadsOfLearnings.

Section StoreRoundTrips.
Import Store.

Lemma jsstring_eqb_eq (a b : jsstring) : jsstring_eqb a b = true -> a = b.
Proof.
  revert b. induction a as [|x a IH]; intros [|y b] H; try discriminate H;
    [reflexivity|].
  cbn [jsstring_eqb] in H. apply andb_prop in H. destruct H as [Hx Hab].
  apply Z.eqb_eq in Hx. subst y. f_equal. now apply IH.
Qed.

Lemma in_firstn (A : Type) (x : A) (n : nat) (l : list A) :
  In x (firstn n l) -> In x l.
Proof.
  revert l. induction n as [|n IH]; intros [|y l] H; cbn [firstn] in H;
    try contradiction.
  destruct H as [-> | H]; [now left | right; now apply IH].
Qed.

(** X13: on a quiet store [getRecentActions] returns the first hundred of
    the actions of the window (and of the session, when one is given)
    sorted newest first; every action it returns is in the window and of
    that session, and the store is unchanged. *)
Theorem getRecentActions_window (w : World) (sinceDaysAgo : Z)
    (sessionKey : option jsstring) :
  faults w = [] ->
  exists acts sorted,
    getRecentActions sinceDaysAgo sessionKey w = Returned acts w
    /\ acts = firstn 100 sorted
    /\ Permutation sorted
         (filter (recent_match w sinceDaysAgo sessionKey) (mind_actions (db w)))
    /\ StronglySorted
         (fun a b => action_created_at b <= action_created_at a) sorted
    /\ (Z.of_nat (List.length acts) <= 100)
    /\ Forall
         (fun a =>
            In a (mind_actions (db w))
            /\ clock w - sinceDaysAgo * 24 * 60 * 60 * 1000
               <= action_created_at a
            /\ forall key, given sessionKey = Some key ->
                           action_session_key a = key)
         acts.
Proof.
  intros Hq.
  set (before := fun a b : MindAction =>
                   action_created_at b <=? action_created_at a).
  set (rows := filter (recent_match w sinceDaysAgo sessionKey)
                 (mind_actions (db w))).
  assert (Hrun : getRecentActions sinceDaysAgo sessionKey w
                 = Returned (firstn 100 (order_by_desc before rows)) w).
  { unfold getRecentActions, bind, Date_now, rows, recent_match.
    destruct (given sessionKey) as [key|];
      rewrite (query_runs _ Hq); cbv beta; [reflexivity|].
    do 3 f_equal. apply filter_ext. intros a. now rewrite andb_true_r. }
  assert (Hperm : Permutation (order_by_desc before rows) rows)
    by apply order_by_desc_perm.
  exists (firstn 100 (order_by_desc before rows)), (order_by_desc before rows).
  split; [exact Hrun|]. split; [reflexivity|]. split; [exact Hperm|].
  split.
  { eapply StronglySorted_weaken; [|apply order_by_desc_sorted].
    - intros a b H. now apply Z.leb_le.
    - intros a b. unfold before.
      destruct (Z.le_ge_cases (action_created_at b) (action_created_at a));
        [left | right]; now apply Z.leb_le.
    - intros a b c H1 H2. unfold before in *.
      apply Z.leb_le in H1, H2. apply Z.leb_le. lia. }
  split.
  { pose proof (firstn_le_length 100 (order_by_desc before rows)) as Hl.
    change 100 with (Z.of_nat 100). apply Nat2Z.inj_le. exact Hl. }
  apply Forall_forall. intros a Hin.
  apply in_firstn in Hin. apply (Permutation_in _ Hperm) in Hin.
  unfold rows in Hin. apply filter_In in Hin. destruct Hin as [Hin Hm].
  unfold recent_match in Hm. apply andb_prop in Hm. destruct Hm as [H1 H2].
  split; [exact Hin|]. split; [now apply Z.leb_le|].
  intros key Hk. rewrite Hk in H2. now apply jsstring_eqb_eq.
Qed.

Lemma getRecentActions_window_one_action :
  faults (store_with_action (str "read") (str "Read file: /tmp/a")) = []
  /\ exists acts,
       getRecentActions 7 None
         (store_with_action (str "read") (str "Read file: /tmp/a"))
       = Returned acts (store_with_action (str "read") (str "Read file: /tmp/a"))
       /\ map tool_name acts = [str "read"].
Proof.
  split; [reflexivity|].
  destruct (@getRecentActions_window
              (store_with_action (str "read") (str "Read file: /tmp/a"))
              7 None eq_refl) as (acts & sorted & Hrun & _).
  exists acts. split; [exact Hrun|].
  vm_compute in Hrun. injection Hrun as <-. reflexivity.
Defined.

Lemma approve_twice (target : Z) (ls : list MindLearning) :
  map (fun l => if id l =? target then approve l else l)
    (map (fun l => if id l =? target then approve l else l) ls)
  = map (fun l => if id l =? target then approve l else l) ls.
Proof.
  rewrite map_map. apply map_ext. intros l.
  destruct (id l =? target) eqn:E; [|now rewrite E].
  cbn [approve id]. now rewrite E.
Qed.

Lemma map_unchanged (c : MindLearning -> bool)
    (f : MindLearning -> MindLearning) (ls : list MindLearning) :
  find c ls = None -> map (fun l => if c l then f l else l) ls = ls.
Proof.
  induction ls as [|l ls IH]; [reflexivity|].
  cbn [find map]. destruct (c l); [discriminate|].
  intros H. f_equal. exact (IH H).
Qed.

(** X14: approving is idempotent, and approving an unknown id does nothing.
    On a quiet store [approveLearning] returns; a second call on the same
    id leaves the store it reached; every learning with that id is then
    approved; and when no learning has that id the store is unchanged. *)
Theorem approveLearning_idempotent (w : World) (target : Z) :
  faults w = [] ->
  exists w1,
    approveLearning target w = Returned tt w1
    /\ approveLearning target w1 = Returned tt w1
    /\ (forall l, In l (mind_learnings (db w1)) -> id l = target ->
                  approved l = 1)
    /\ (find (fun l => id l =? target) (mind_learnings (db w)) = None ->
        w1 = w).
Proof.
  intros Hq. eexists. split.
  { unfold approveLearning. rewrite (statement_runs _ Hq). cbn [fst snd].
    reflexivity. }
  split; [|split].
  - unfold approveLearning. rewrite statement_runs by reflexivity.
    cbn [fst snd with_db db set_learnings mind_learnings agentId clock
           mind_log mind_dreams mind_actions mind_rejected_learnings seq_log
           seq_learnings seq_dreams seq_actions seq_rejected].
    rewrite approve_twice. reflexivity.
  - cbn [with_db db set_learnings mind_learnings]. intros l Hin Hid.
    apply in_map_iff in Hin. destruct Hin as (l0 & Hl & Hin). subst l.
    destruct (id l0 =? target) eqn:E; [reflexivity|].
    apply Z.eqb_neq in E. contradiction.
  - intros Hnone. rewrite (@map_unchanged _ approve _ Hnone).
    rewrite set_learnings_same. now apply with_db_quiet.
Qed.

Lemma approveLearning_idempotent_two_learnings :
  faults two_learnings = []
  /\ exists w1,
       approveLearning 2 two_learnings = Returned tt w1
       /\ approveLearning 2 w1 = Returned tt w1
       /\ map approved (mind_learnings (db w1)) = [1; 1].
Proof.
  split; [reflexivity|].
  destruct (@approveLearning_idempotent two_learnings 2 eq_refl)
    as (w1 & H1 & H2 & _).
  exists w1. split; [exact H1|]. split; [exact H2|].
  vm_compute in H1. injection H1 as <-. reflexivity.
Defined.

(** X15: a saved learning waits for approval.  On a quiet store whose ids
    are at most the last id handed out, [addLearning] without approval
    returns a new id; the learning is then among the pending ones, at
    relevance 1 with no activation, and not among the approved ones;
    after [approveLearning] on that id it is among the approved ones and
    no longer pending. *)
Theorem save_then_approve (w : World) (t c r : jsstring) :
  faults w = [] ->
  Forall (fun l => id l <= seq_learnings (db w)) (mind_learnings (db w)) ->
  let i := seq_learnings (db w) + 1 in
  exists w1 w2 pending1 approved1 pending2 approved2,
    addLearning t c r false w = Returned i w1
    /\ getPendingLearnings w1 = Returned pending1 w1
    /\ Store.getApprovedLearnings w1 = Returned approved1 w1
    /\ In (new_learning i t c r 0 (clock w)) pending1
    /\ (forall l, In l approved1 -> id l <> i)
    /\ approveLearning i w1 = Returned tt w2
    /\ getPendingLearnings w2 = Returned pending2 w2
    /\ Store.getApprovedLearnings w2 = Returned approved2 w2
    /\ In (new_learning i t c r 1 (clock w)) approved2
    /\ (forall l, In l pending2 -> id l <> i).
Proof.
  intros Hq Hids i.
  set (ls := mind_learnings (db w)) in *.
  set (row := new_learning i t c r 0 (clock w)).
  set (w1 := with_db w
               {| mind_log := mind_log (db w);
                  mind_learnings := ls ++ [row];
                  mind_dreams := mind_dreams (db w);
                  mind_actions := mind_actions (db w);
                  mind_rejected_learnings := mind_rejected_learnings (db w);
                  seq_log := seq_log (db w);
                  seq_learnings := i;
                  seq_dreams := seq_dreams (db w);
                  seq_actions := seq_actions (db w);
                  seq_rejected := seq_rejected (db w) |} []).
  assert (Hadd : addLearning t c r false w = Returned i w1).
  { unfold addLearning, bind, Date_now. rewrite (statement_runs _ Hq).
    reflexivity. }
  assert (Hq1 : faults w1 = []) by reflexivity.
  set (w2 := with_db w1
               (set_learnings (db w1)
                  (map (fun l => if id l =? i then approve l else l)
                     (mind_learnings (db w1)))) []).
  assert (Happ : approveLearning i w1 = Returned tt w2).
  { unfold approveLearning. rewrite (statement_runs _ Hq1). reflexivity. }
  assert (Hq2 : faults w2 = []) by reflexivity.
  destruct (@learnings_sorted_lists w1 Hq1) as (a1 & p1 & Ha1 & Hp1 & Pa1 & Pp1).
  destruct (@learnings_sorted_lists w2 Hq2) as (a2 & p2 & Ha2 & Hp2 & Pa2 & Pp2).
  exists w1, w2, p1, a1, p2, a2.
  split; [exact Hadd|]. split; [exact Hp1|]. split; [exact Ha1|].
  assert (Hold : forall l, In l ls -> id l <> i).
  { intros l Hin. rewrite Forall_forall in Hids. specialize (Hids l Hin).
    unfold i. lia. }
  split.
  { apply (Permutation_in _ (Permutation_sym Pp1)). apply filter_In.
    split; [|reflexivity]. cbn. apply in_or_app. right. now left. }
  split.
  { intros l Hin. apply (Permutation_in _ Pa1) in Hin.
    apply filter_In in Hin. destruct Hin as [Hin Happr].
    cbn [w1 with_db db mind_learnings] in Hin. apply in_app_or in Hin.
    destruct Hin as [Hin | [<- | []]]; [now apply Hold|].
    discriminate Happr. }
  split; [exact Happ|]. split; [exact Hp2|]. split; [exact Ha2|].
  split.
  { apply (Permutation_in _ (Permutation_sym Pa2)). apply filter_In.
    split; [|reflexivity].
    cbn [w2 w1 with_db db set_learnings mind_learnings].
    apply in_map_iff. exists row. split.
    - cbn [row new_learning id]. rewrite Z.eqb_refl. reflexivity.
    - apply in_or_app. right. now left. }
  intros l Hin. apply (Permutation_in _ Pp2) in Hin.
  apply filter_In in Hin. destruct Hin as [Hin Hpend].
  cbn [w2 w1 with_db db set_learnings mind_learnings] in Hin.
  apply in_map_iff in Hin. destruct Hin as (l0 & Hl & Hin). subst l.
  destruct (id l0 =? i) eqn:E.
  - discriminate Hpend.
  - now apply Z.eqb_neq.
Qed.

Lemma save_then_approve_new_store :
  faults (open_store (str "main") 0 []) = []
  /\ exists w1 w2 approved2,
       addLearning (str "Be terse") (str "Keep replies short") [] false
         (open_store (str "main") 0 []) = Returned 1 w1
       /\ approveLearning 1 w1 = Returned tt w2
       /\ Store.getApprovedLearnings w2 = Returned approved2 w2
       /\ map title approved2 = [str "Be terse"].
Proof.
  split; [reflexivity|].
  destruct (@save_then_approve (open_store (str "main") 0 [])
              (str "Be terse") (str "Keep replies short") [] eq_refl
              (Forall_nil _))
    as (w1 & w2 & p1 & a1 & p2 & a2 & H1 & _ & _ & _ & _ & H2 & _ & H3 & _).
  exists w1, w2, a2. split; [exact H1|]. split; [exact H2|].
  split; [exact H3|].
  vm_compute in H1. injection H1 as <-.
  vm_compute in H2. injection H2 as <-.
  vm_compute in H3. injection H3 as <-. reflexivity.
Defined.

End StoreRoundTrips.

(** *** Decay over dream cycles *)

Section StoreDecay.
Import Store.

Lemma applyDecay_state (w : World) :
  faults w = [] ->
  state_of (applyDecay w)
  = with_db w
      (set_learnings (db w)
         (filter (fun l => negb (below_floor l))
            (decayed (mind_learnings (db w))))) [].
Proof. intros Hq. now rewrite (applyDecay_runs Hq). Qed.

Lemma decays_quiet (n : nat) :
  forall w, faults w = [] -> faults (decays n w) = [].
Proof.
  induction n as [|n IH]; intros w Hq; [exact Hq|].
  cbn [decays]. apply IH. now rewrite (applyDecay_state Hq).
Qed.

Lemma decays_last (n : nat) :
  forall w, decays (S n) w = state_of (applyDecay (decays n w)).
Proof.
  induction n as [|n IH]; intros w; [reflexivity|].
  cbn [decays] in *. now rewrite IH.
Qed.

Lemma in_decayed_state (w : World) (l' : MindLearning) :
  faults w = [] ->
  In l' (mind_learnings (db (state_of (applyDecay w)))) ->
  below_floor l' = false
  /\ exists l, In l (mind_learnings (db w))
               /\ l' = (if approved l =? 1 then decay l else l).
Proof.
  intros Hq Hin. rewrite (applyDecay_state Hq) in Hin.
  cbn [with_db db set_learnings mind_learnings] in Hin.
  apply filter_In in Hin. destruct Hin as [Hin Hk].
  apply negb_true_iff in Hk. split; [exact Hk|].
  apply in_map_iff in Hin. destruct Hin as (l & Hl & Hin).
  exists l. split; [exact Hin | now symmetry].
Qed.

Lemma ceilings_ok_step (n j : nat) :
  ceilings_ok n = true -> (j < n)%nat ->
  product_below (ceiling j) (ceiling (S j)) = true.
Proof.
  induction n as [|n IH]; intros Hok Hj; [lia|].
  cbn [ceilings_ok] in Hok. apply andb_prop in Hok. destruct Hok as [H1 H2].
  destruct (Nat.eq_dec j n) as [->|Hne]; [exact H1|].
  apply IH; [exact H2 | lia].
Qed.

(** After [n] more decays every approved learning is under the ceiling
    [n] places further. *)
Lemma decays_bound (n : nat) :
  forall (k : nat) (w : World),
    faults w = [] ->
    ceilings_ok (k + n) = true ->
    (forall l, In l (mind_learnings (db w)) -> approved l = 1 ->
               (relevance_score l <=? ceiling k)%float = true) ->
    forall l, In l (mind_learnings (db (decays n w))) -> approved l = 1 ->
              (relevance_score l <=? ceiling (k + n))%float = true.
Proof.
  induction n as [|n IH]; intros k w Hq Hok Hb l Hin Happ.
  - rewrite Nat.add_0_r. exact (Hb l Hin Happ).
  - cbn [decays] in Hin.
    assert (Hq1 : faults (state_of (applyDecay w)) = [])
      by (now rewrite (applyDecay_state Hq)).
    replace (k + S n)%nat with (S k + n)%nat in * by lia.
    apply (IH (S k) (state_of (applyDecay w)) Hq1 Hok); [|exact Hin|exact Happ].
    intros l1 Hin1 Happ1.
    destruct (in_decayed_state Hq Hin1) as (_ & l0 & Hin0 & ->).
    destruct (approved l0 =? 1) eqn:E.
    + apply Z.eqb_eq in E. cbn [decay relevance_score]. unfold DECAY_FACTOR.
      apply mul_095_below with (x := ceiling k); [|exact (Hb l0 Hin0 E)].
      apply (@ceilings_ok_step (S k + n) k Hok). lia.
    + rewrite Happ1 in E. discriminate E.
Qed.

(** A learning that stays above the floor for [n] decays is still there,
    at the relevance those decays leave. *)
Lemma decays_survivor (n : nat) :
  forall (w : World) (l : MindLearning),
    faults w = [] ->
    In l (mind_learnings (db w)) -> approved l = 1 ->
    stays n (relevance_score l) = true ->
    exists l', In l' (mind_learnings (db (decays n w)))
               /\ id l' = id l /\ approved l' = 1
               /\ relevance_score l' = faded n (relevance_score l).
Proof.
  induction n as [|n IH]; intros w l Hq Hin Happ Hstay.
  - exists l. cbn [decays faded]. repeat split; auto.
  - cbn [decays faded stays] in *.
    apply andb_prop in Hstay. destruct Hstay as [Hkeep Hstay].
    apply negb_true_iff in Hkeep.
    assert (Hq1 : faults (state_of (applyDecay w)) = [])
      by (now rewrite (applyDecay_state Hq)).
    assert (Hin1 : In (decay l) (mind_learnings (db (state_of (applyDecay w))))).
    { rewrite (applyDecay_state Hq).
      cbn [with_db db set_learnings mind_learnings]. apply filter_In. split.
      - apply in_map_iff. exists l. rewrite Happ. split; [reflexivity|exact Hin].
      - apply negb_true_iff. unfold below_floor.
        cbn [decay approved relevance_score].
        unfold DECAY_FACTOR, MIN_RELEVANCE. rewrite Hkeep. apply andb_false_r. }
    destruct (IH (state_of (applyDecay w)) (decay l) Hq1 Hin1 Happ Hstay)
      as (l' & Hin' & Hid & Happ' & Hrel).
    exists l'. split; [exact Hin'|]. split; [exact Hid|].
    split; [exact Happ' | exact Hrel].
Qed.

(** X16: the life of a learning that is never activated, in binary64.  On
    a quiet store whose approved learnings have relevance at most 1, no
    approved learning is left after 45 runs of [applyDecay]; an approved
    learning at relevance 1, as [addLearning] writes it, is still there
    after 44. *)
Theorem decay_lifetime (w : World) :
  faults w = [] ->
  (forall l, In l (mind_learnings (db w)) -> approved l = 1 ->
             (relevance_score l <=? 1)%float = true) ->
  (forall l, In l (mind_learnings (db (decays 45 w))) -> approved l <> 1)
  /\ (forall l, In l (mind_learnings (db w)) -> approved l = 1 ->
                relevance_score l = 1%float ->
                exists l', In l' (mind_learnings (db (decays 44 w)))
                           /\ id l' = id l /\ approved l' = 1).
Proof.
  intros Hq Hb. split.
  - intros l Hin Happ.
    rewrite decays_last in Hin.
    destruct (in_decayed_state (decays_quiet 44 Hq) Hin)
      as (Hfloor & l0 & Hin0 & ->).
    destruct (approved l0 =? 1) eqn:E;
      [|rewrite Happ in E; discriminate E].
    apply Z.eqb_eq in E.
    assert (Hok : ceilings_ok (0 + 44) = true) by (vm_compute; reflexivity).
    pose proof (@decays_bound 44 0 w Hq Hok Hb l0 Hin0 E) as Hle.
    assert (Hlow : (relevance_score l0 * 0.95 <=? 0.0995)%float = true).
    { apply mul_095_below with (x := ceiling (0 + 44)); [|exact Hle].
      vm_compute. reflexivity. }
    unfold below_floor in Hfloor. cbn [decay approved relevance_score] in Hfloor.
    rewrite E in Hfloor. cbn [Z.eqb Pos.eqb andb] in Hfloor.
    unfold DECAY_FACTOR, MIN_RELEVANCE in Hfloor.
    destruct (leb_not_nan Hlow) as [Hnum _].
    pose proof (@leb_of_not_ltb _ 0.1%float Hnum eq_refl Hfloor) as Hge.
    pose proof (leb_trans Hge Hlow) as C. vm_compute in C. discriminate C.
  - intros l Hin Happ Hone.
    destruct (@decays_survivor 44 w l Hq Hin Happ) as (l' & H1 & H2 & H3 & _).
    + rewrite Hone. vm_compute. reflexivity.
    + exists l'. split; [exact H1|]. split; [exact H2 | exact H3].
Qed.

(** One approved learning at relevance 1. *)
Lemma decay_lifetime_one_learning :
  let w := run example_runtime
             [ {| call := call_addLearning (str "Be terse")
                            (str "Keep replies short") [] true;
                  at_time := 0; storage_faults := [] |} ]
             (open_store (str "main") 0 []) in
  faults w = []
  /\ (forall l, In l (mind_learnings (db (decays 45 w))) -> approved l <> 1)
  /\ exists l', In l' (mind_learnings (db (decays 44 w))) /\ id l' = 1.
Proof.
  intros w.
  assert (Hb : forall l, In l (mind_learnings (db w)) -> approved l = 1 ->
                         (relevance_score l <=? 1)%float = true).
  { intros l [<- | []] _. reflexivity. }
  destruct (@decay_lifetime w eq_refl Hb) as [Hgone Hstays].
  split; [reflexivity|]. split; [exact Hgone|].
  destruct (Hstays (new_learning 1 (str "Be terse") (str "Keep replies short")
                      [] 1 0) (or_introl eq_refl) eq_refl)
    as (l' & Hin & Hid & _).
  { reflexivity. }
  exists l'. split; [exact Hin | exact Hid].
Defined.




End StoreDecay.

(** *** Rejection, further *)

Section StoreRejection.
Import Store.

(** The tombstone [rejectLearning] writes for [l]. *)
Lemma rejectLearning_runs (w : World) (target : Z) (l : MindLearning) :
  faults w = [] ->
  find (fun x => id x =? target) (mind_learnings (db w)) = Some l ->
  rejectLearning target w
  = Returned tt
      (with_db w
         {| mind_log := mind_log (db w);
            mind_learnings :=
              filter (fun x => negb (id x =? target)) (mind_learnings (db w));
            mind_dreams := mind_dreams (db w);
            mind_actions := mind_actions (db w);
            mind_rejected_learnings :=
              mind_rejected_learnings (db w)
              ++ [tombstone (seq_rejected (db w) + 1) l (clock w)];
            seq_log := seq_log (db w);
            seq_learnings := seq_learnings (db w);
            seq_dreams := seq_dreams (db w);
            seq_actions := seq_actions (db w);
            seq_rejected := seq_rejected (db w) + 1 |} []).
Proof.
  intros Hq Hfind. unfold rejectLearning, bind.
  rewrite (statement_runs _ Hq). cbn [fst snd]. rewrite Hfind.
  unfold Date_now. rewrite statement_runs by reflexivity. cbn [fst snd].
  rewrite statement_runs by reflexivity. reflexivity.
Qed.

(** X18: a rejected learning is remembered.  On a quiet store with fewer
    than a hundred tombstones, after [rejectLearning] on the id of a
    learning, [getRejectedTitles] returns the title of that learning among
    the titles, and approving the id again changes nothing. *)
Theorem rejected_title_listed (w : World) (target : Z) (l : MindLearning) :
  faults w = [] ->
  find (fun x => id x =? target) (mind_learnings (db w)) = Some l ->
  (List.length (mind_rejected_learnings (db w)) < 100)%nat ->
  exists w' titles,
    rejectLearning target w = Returned tt w'
    /\ getRejectedTitles w' = Returned titles w'
    /\ In (title l) titles
    /\ approveLearning target w' = Returned tt w'.
Proof.
  intros Hq Hfind Hlen. eexists. eexists.
  split; [apply (rejectLearning_runs Hq Hfind)|].
  split; [unfold getRejectedTitles; apply query_runs; reflexivity|].
  cbn [with_db db mind_rejected_learnings]. split.
  - set (rows := mind_rejected_learnings (db w)
                 ++ [tombstone (seq_rejected (db w) + 1) l (clock w)]).
    set (before := fun a b : RejectedLearning => rejected_at b <=? rejected_at a).
    assert (Hperm : Permutation (order_by_desc before rows) rows)
      by apply order_by_desc_perm.
    rewrite firstn_all2.
    + apply in_map_iff.
      exists (tombstone (seq_rejected (db w) + 1) l (clock w)).
      split; [reflexivity|].
      apply (Permutation_in _ (Permutation_sym Hperm)).
      unfold rows. apply in_or_app. right. now left.
    + rewrite (Permutation_length Hperm). unfold rows.
      rewrite length_app. cbn [List.length]. lia.
  - unfold approveLearning. rewrite statement_runs by reflexivity.
    cbn [fst snd with_db db set_learnings mind_learnings agentId clock
           mind_log mind_dreams mind_actions mind_rejected_learnings seq_log
           seq_learnings seq_dreams seq_actions seq_rejected].
    rewrite (@map_unchanged (fun x => id x =? target) approve).
    + reflexivity.
    + destruct (find (fun x => id x =? target)
                  (filter (fun x => negb (id x =? target))
                     (mind_learnings (db w)))) as [y|] eqn:F; [|reflexivity].
      apply find_some in F. destruct F as [Hy Hid].
      apply filter_In in Hy. destruct Hy as [_ Hne].
      rewrite Hid in Hne. discriminate Hne.
Qed.

Lemma rejected_title_listed_two_learnings :
  faults two_learnings = []
  /\ exists w' titles,
       rejectLearning 2 two_learnings = Returned tt w'
       /\ getRejectedTitles w' = Returned titles w'
       /\ In (str "Ask first") titles.
Proof.
  split; [reflexivity|].
  destruct (@rejected_title_listed two_learnings 2
              (nth 1 (mind_learnings (db two_learnings))
                 (new_learning 0 [] [] [] 0 0)) eq_refl eq_refl)
    as (w' & titles & H1 & H2 & H3 & _).
  { cbn. lia. }
  exists w', titles. split; [exact H1|]. split; [exact H2 | exact H3].
Defined.

(** X19: [rejectLearning] is not atomic.  When the storage layer runs the
    SELECT and the INSERT and refuses the DELETE, the call throws with the
    tombstone written and the learning still in the store. *)
Theorem rejectLearning_torn (w : World) (target : Z) (l : MindLearning)
    (rest : list bool) :
  faults w = false :: false :: true :: rest ->
  find (fun x => id x =? target) (mind_learnings (db w)) = Some l ->
  exists w',
    rejectLearning target w = Threw w'
    /\ mind_rejected_learnings (db w')
       = mind_rejected_learnings (db w)
         ++ [tombstone (seq_rejected (db w) + 1) l (clock w)]
    /\ mind_learnings (db w') = mind_learnings (db w)
    /\ faults w' = rest.
Proof.
  intros Hf Hfind. eexists. split.
  - unfold rejectLearning, bind, statement at 1. rewrite Hf.
    cbn [with_db db faults]. rewrite Hfind.
    unfold Date_now, statement. cbn [with_db db faults]. reflexivity.
  - cbn [with_db db mind_rejected_learnings mind_learnings faults clock].
    repeat split.
Qed.

Lemma rejectLearning_torn_two_learnings :
  let w := with_db two_learnings (db two_learnings) [false; false; true] in
  faults w = [false; false; true]
  /\ exists w',
       rejectLearning 2 w = Threw w'
       /\ map rejected_title (mind_rejected_learnings (db w'))
          = [str "Ask first"]
       /\ map id (mind_learnings (db w')) = [1; 2].
Proof.
  intros w. split; [reflexivity|].
  destruct (@rejectLearning_torn w 2
              (nth 1 (mind_learnings (db two_learnings))
                 (new_learning 0 [] [] [] 0 0)) [] eq_refl eq_refl)
    as (w' & H1 & H2 & H3 & _).
  exists w'. split; [exact H1|]. rewrite H2, H3. split; reflexivity.
Defined.

End StoreRejection.

(** ** The paths of the stress detector *)

Section StressPaths.
Import Regex StressDetection.

(** X20: the verdicts of [detectStress].  The answer is one of three records:
    detected at intensity 3 by the regex stage, exactly when
    [detectStressRegex] holds of the text, detected at intensity 2 by the
    semantic stage, or not detected at intensity 0.  On a regex hit the
    embedding callable is not called and the cache is left as it was. *)
Theorem detectStress_verdicts (text : jsstring) (embed : option EmbeddingFn)
    (providerKey : option jsstring) (c : EmbeddingsCache) :
  let '(r, c', calls) := detectStress text embed providerKey c in
  (r = regex_verdict
   \/ r = {| detected := true; intensity := 2; method := semantic_method |}
   \/ r = none_verdict)
  /\ (r = regex_verdict <-> detectStressRegex text = true)
  /\ (detectStressRegex text = true -> c' = c /\ calls = [])
  /\ (embed = None -> c' = c /\ calls = []).
Proof.
  unfold detectStress.
  destruct (detectStressRegex text) eqn:Hre.
  - repeat split; auto.
  - destruct embed as [e|].
    + destruct (detectStressSemantic text e _ 0.75 c) as [[semantic c'] calls].
      destruct semantic; repeat split; auto; try discriminate;
        intros H; discriminate H.
    + repeat split; auto; try discriminate; intros H; discriminate H.
Qed.

(** X21: a failing embedding provider never changes the verdict.  When the
    embedding of the text is rejected, or the reference phrases have to be
    embedded and one of them is rejected, [detectStressSemantic] answers
    what [detectStressRegex] answers, and [detectStress] answers the regex
    verdict or not detected, never the semantic verdict. *)
Theorem detectStress_embedding_fails (text : jsstring) (embed : EmbeddingFn)
    (providerKey : jsstring) (threshold : float) (c : EmbeddingsCache) :
  embedding_fails embed providerKey text c ->
  fst (fst (detectStressSemantic text embed providerKey threshold c))
  = detectStressRegex text
  /\ fst (fst (detectStress text (Some embed) (Some providerKey) c))
     = if detectStressRegex text then regex_verdict else none_verdict.
Proof.
  intros Hfail.
  assert (Hsem : forall th,
             fst (fst (detectStressSemantic text embed providerKey th c))
             = detectStressRegex text).
  { intros th. unfold detectStressSemantic.
    destruct Hfail as [Htext | [Hkey Hrefs]].
    - destruct (negb (cache_is_for c providerKey)).
      + destruct (all_resolved (map embed STRESS_REFERENCE_PHRASES));
          [rewrite Htext|]; reflexivity.
      + rewrite Htext. reflexivity.
    - rewrite Hkey. cbn [negb]. rewrite Hrefs. reflexivity. }
  split; [apply Hsem|].
  unfold detectStress. destruct (detectStressRegex text) eqn:Hre;
    [reflexivity|].
  specialize (Hsem 0.75%float).
  destruct (detectStressSemantic text embed providerKey 0.75 c)
    as [[semantic c'] calls].
  cbn [fst] in Hsem. rewrite Hsem. reflexivity.
Qed.

(** A provider that rejects every text. *)
Lemma detectStress_embedding_fails_offline :
  embedding_fails (fun _ => None) (str "default") great_thanks no_embeddings
  /\ fst (fst (detectStress great_thanks (Some (fun _ => None))
                 (Some (str "default")) no_embeddings))
     = none_verdict.
Proof.
  split; [left; reflexivity|].
  exact (proj2 (@detectStress_embedding_fails great_thanks (fun _ => None)
                  (str "default") 0.75%float no_embeddings
                  (or_introl eq_refl))).
Defined.




End StressPaths.

(** ** The identity module, further *)

Section IdentityRelations.
Import Store Identity.

Variable R : Db -> Db -> Prop.
Hypothesis R_refl : forall d, R d d.
Hypothesis R_trans : forall d1 d2 d3, R d1 d2 -> R d2 d3 -> R d1 d3.

Lemma env_evolves_ret (A : Type) (a : A) : env_evolves R (ret a).
Proof. intros e. apply R_refl. Qed.

Lemma env_evolves_bind (A B : Type) (m : M Env A) (k : A -> M Env B) :
  env_evolves R m -> (forall a, env_evolves R (k a)) ->
  env_evolves R (bind m k).
Proof.
  intros Hm Hk e. unfold bind. specialize (Hm e).
  destruct (m e) as [a e1 | e1]; cbn [state_of] in *.
  - eapply R_trans; [exact Hm | apply Hk].
  - exact Hm.
Qed.

Lemma env_evolves_try_catch (A : Type) (m handler : M Env A) :
  env_evolves R m -> env_evolves R handler ->
  env_evolves R (try_catch m handler).
Proof.
  intros Hm Hh e. unfold try_catch. specialize (Hm e).
  destruct (m e) as [a e1 | e1]; cbn [state_of] in *.
  - exact Hm.
  - eapply R_trans; [exact Hm | apply Hh].
Qed.

Lemma env_evolves_on_store (A : Type) (m : M World A) :
  evolves R m -> env_evolves R (on_store m).
Proof.
  intros Hm e. unfold on_store. specialize (Hm (mindStore e)).
  destruct (m (mindStore e)); exact Hm.
Qed.

Lemma env_evolves_for_each (A : Type) (xs : list A) (body : A -> M Env unit) :
  (forall x, env_evolves R (body x)) -> env_evolves R (for_each xs body).
Proof.
  intros Hb. induction xs as [|x xs IH]; cbn [for_each].
  - apply env_evolves_ret.
  - apply env_evolves_bind; [apply Hb | intros _; exact IH].
Qed.

Lemma env_evolves_get_cache : env_evolves R get_cache.
Proof. intros e. apply R_refl. Qed.

Lemma env_evolves_get_agentId : env_evolves R get_agentId.
Proof. intros e. apply R_refl. Qed.

Lemma env_evolves_set_cache c : env_evolves R (set_cache c).
Proof. intros e. apply R_refl. Qed.

Hypothesis R_activateLearning : forall i, evolves R (activateLearning i).

Lemma evolves_query (A : Type) (q : Db -> A) :
  evolves R (statement (fun d => (q d, d))).
Proof. apply (evolves_statement R_refl). intros d. apply R_refl. Qed.

Lemma evolves_getRecentActions days key :
  evolves R (getRecentActions days key).
Proof.
  unfold getRecentActions.
  apply (evolves_bind R_trans); [apply (evolves_Date_now R_refl)|].
  intros now. destruct (given key); apply evolves_query.
Qed.

Lemma evolves_formatRecentActions (rt : Runtime) key limit :
  evolves R (formatRecentActions rt key limit).
Proof.
  unfold formatRecentActions.
  apply (evolves_bind R_trans); [apply evolves_getRecentActions|].
  intros recent. destruct (firstn limit recent); apply (evolves_ret R_refl).
Qed.

Lemma evolves_formatApprovedLearnings (rt : Runtime) :
  evolves R (formatApprovedLearnings rt).
Proof.
  unfold formatApprovedLearnings.
  apply (evolves_bind R_trans); [apply evolves_query|].
  intros [|l ls]; apply (evolves_ret R_refl).
Qed.

Lemma env_evolves_refreshLearningsCache (rt : Runtime) key :
  env_evolves R (refreshLearningsCache rt key).
Proof.
  unfold refreshLearningsCache.
  apply env_evolves_bind; [apply env_evolves_on_store, evolves_query|].
  intros approved_learnings. apply env_evolves_bind.
  - destruct (given key); [|apply env_evolves_ret].
    apply env_evolves_bind;
      [apply env_evolves_on_store, evolves_getRecentActions|].
    intros recent. apply env_evolves_for_each. intros learning.
    match goal with |- context [if ?b then _ else _] => destruct b end;
      [apply env_evolves_on_store, R_activateLearning | apply env_evolves_ret].
  - intros _.
    apply env_evolves_bind;
      [apply env_evolves_on_store, evolves_formatApprovedLearnings|].
    intros text.
    apply env_evolves_bind;
      [apply env_evolves_on_store, (evolves_Date_now R_refl)|].
    intros now.
    apply env_evolves_bind; [apply env_evolves_get_agentId|]. intros agent.
    apply env_evolves_bind; [apply env_evolves_set_cache|]. intros _.
    apply env_evolves_ret.
Qed.

Lemma env_evolves_getApprovedLearnings (rt : Runtime) key :
  env_evolves R (Identity.getApprovedLearnings rt key).
Proof.
  unfold Identity.getApprovedLearnings.
  apply env_evolves_bind;
    [apply env_evolves_on_store, (evolves_Date_now R_refl)|].
  intros now.
  apply env_evolves_bind; [apply env_evolves_get_cache|]. intros cache.
  apply env_evolves_bind; [apply env_evolves_get_agentId|]. intros agent.
  destruct cache as [c|]; [|apply env_evolves_refreshLearningsCache].
  match goal with |- context [if ?b then _ else _] => destruct b end;
    [apply env_evolves_ret | apply env_evolves_refreshLearningsCache].
Qed.

Lemma env_evolves_getRecentActionsContext (rt : Runtime) key :
  env_evolves R (getRecentActionsContext rt key).
Proof.
  unfold getRecentActionsContext.
  apply env_evolves_try_catch;
    [apply env_evolves_on_store, evolves_formatRecentActions
    | apply env_evolves_ret].
Qed.

Lemma env_evolves_buildMindPromptSection (rt : Runtime) key :
  env_evolves R (buildMindPromptSection rt key).
Proof.
  unfold buildMindPromptSection.
  apply env_evolves_bind; [apply env_evolves_getApprovedLearnings|].
  intros learnings.
  apply env_evolves_bind; [apply env_evolves_getRecentActionsContext|].
  intros ctx. apply env_evolves_ret.
Qed.

End IdentityRelations.

Section IdentityExtras.
Import Store Identity.

Lemma same_row_refl (l : MindLearning) : same_row l l.
Proof. unfold same_row. repeat split; lia. Qed.

Lemma same_row_trans (l1 l2 l3 : MindLearning) :
  same_row l1 l2 -> same_row l2 l3 -> same_row l1 l3.
Proof. unfold same_row. intros H1 H2. repeat split; try lia; intuition congruence. Qed.

Lemma Forall2_same_row_refl (ls : list MindLearning) : Forall2 same_row ls ls.
Proof. induction ls; constructor; [apply same_row_refl | assumption]. Qed.

Lemma Forall2_same_row_trans (l1 l2 l3 : list MindLearning) :
  Forall2 same_row l1 l2 -> Forall2 same_row l2 l3 -> Forall2 same_row l1 l3.
Proof.
  intros H1. revert l3. induction H1 as [|a b l1 l2 Hab _ IH]; intros l3 H2.
  - inversion H2. constructor.
  - inversion H2 as [|b' c l2' l3' Hbc Hrest]; subst.
    constructor; [exact (same_row_trans Hab Hbc) | apply IH, Hrest].
Qed.

Lemma only_activated_refl (d : Db) : only_activated d d.
Proof.
  unfold only_activated. split; [apply Forall2_same_row_refl|].
  repeat split.
Qed.

Lemma only_activated_trans (d1 d2 d3 : Db) :
  only_activated d1 d2 -> only_activated d2 d3 -> only_activated d1 d3.
Proof.
  unfold only_activated. intros [H1 E1] [H2 E2].
  split; [exact (Forall2_same_row_trans H1 H2)|].
  intuition congruence.
Qed.

Lemma only_activated_activateLearning target :
  evolves only_activated (activateLearning target).
Proof.
  unfold activateLearning.
  apply (evolves_bind only_activated_trans);
    [apply (evolves_Date_now only_activated_refl)|].
  intros now. apply (evolves_statement only_activated_refl). intros d.
  cbn [snd]. unfold only_activated. destruct d as [lg ls dr ac rj s1 s2 s3 s4 s5].
  cbn. split; [|repeat split].
  induction ls as [|l ls IH]; cbn [map]; constructor; [|exact IH].
  destruct (id l =? target); [|apply same_row_refl].
  unfold same_row, activate. cbn. repeat split; lia.
Qed.

(** X23: building the prompt section touches nothing but the bookkeeping of
    activation.  Whatever the storage layer does, and whether
    [buildMindPromptSection] returns or throws, the learnings it leaves
    are the same rows in the same order, with their ids, texts, approval
    and creation time, and at least as many activations, and every other
    table and id counter is as it was. *)
Theorem buildMindPromptSection_only_activates (rt : Runtime)
    (sessionKey : option jsstring) (e : Env) :
  only_activated (db (mindStore e))
    (db (mindStore (state_of (buildMindPromptSection rt sessionKey e)))).
Proof.
  apply (env_evolves_buildMindPromptSection only_activated_refl
           only_activated_trans only_activated_activateLearning).
Qed.

Lemma Date_now_on_store (e : Env) :
  on_store Date_now e = Returned (clock (mindStore e)) e.
Proof. destruct e. reflexivity. Qed.

Lemma getApprovedLearnings_fresh (rt : Runtime) (key : option jsstring)
    (w : World) (c : LearningsCache) :
  fresh c w ->
  Identity.getApprovedLearnings rt key (serving w c)
  = Returned (formatted c) (serving w c).
Proof.
  intros [Hagent Hage]. unfold Identity.getApprovedLearnings, bind.
  rewrite Date_now_on_store. unfold get_cache, get_agentId, serving.
  cbn [learningsCache mindStore].
  rewrite Hagent, jsstring_eqb_refl.
  apply Z.ltb_lt in Hage. rewrite Hage. reflexivity.
Qed.

(** X24: a fresh cache entry shields the prompt from the storage layer.  With
    a cache entry of the agent of the store that is less than five minutes
    old, [buildMindPromptSection] returns whatever the storage layer does
    and whatever the store holds: the line under the heading of the
    tactical learnings is the cached text, the cache entry stays, and the
    database is as it was. *)
Theorem buildMindPromptSection_fresh_cache (rt : Runtime)
    (sessionKey : option jsstring) (w : World) (c : LearningsCache) :
  fresh c w ->
  exists lines w',
    buildMindPromptSection rt sessionKey (serving w c)
    = Returned lines (serving w' c)
    /\ nth 6 lines [] = formatted c
    /\ db w' = db w.
Proof.
  intros Hfresh. unfold buildMindPromptSection, bind at 1.
  rewrite (getApprovedLearnings_fresh rt sessionKey Hfresh).
  pose proof (@env_evolves_getRecentActionsContext eq (@eq_refl Db)
                (@eq_trans Db) rt sessionKey (serving w c)) as Hdb.
  unfold bind.
  assert (Hcache : learningsCache
                     (state_of (getRecentActionsContext rt sessionKey
                                  (serving w c))) = Some c
                   /\ exists ctx e',
                        getRecentActionsContext rt sessionKey (serving w c)
                        = Returned ctx e').
  { unfold getRecentActionsContext, try_catch, on_store, serving.
    cbn [mindStore learningsCache].
    destruct (formatRecentActions rt sessionKey 10 w) as [ctx w1 | w1];
      cbn [state_of learningsCache ret]; split; try reflexivity;
      eexists; eexists; reflexivity. }
  destruct Hcache as [Hcache (ctx & e' & Hrun)].
  rewrite Hrun in *. cbn [state_of] in *.
  destruct e' as [w' cache']. cbn [learningsCache mindStore serving] in *.
  subst cache'. eexists. exists w'. unfold ret, serving.
  split; [reflexivity|]. split; [|symmetry; exact Hdb].
  destruct ctx; reflexivity.
Qed.

End IdentityExtras.

Section IdentityCache.
Import Store Identity.

(** A cache entry of time 0 and a store that refuses its next statement. *)
Lemma buildMindPromptSection_fresh_cache_refusing :
  fresh cached_text refusing_store
  /\ exists lines w',
       buildMindPromptSection example_runtime None
         (serving refusing_store cached_text)
       = Returned lines (serving w' cached_text)
       /\ nth 6 lines [] = str "- **Be terse**".
Proof.
  assert (Hfresh : fresh cached_text refusing_store)
    by (split; [reflexivity | vm_compute; reflexivity]).
  split; [exact Hfresh|].
  destruct (@buildMindPromptSection_fresh_cache example_runtime None
              refusing_store cached_text Hfresh) as (lines & w' & H1 & H2 & _).
  exists lines, w'. split; [exact H1 | exact H2].
Defined.

Lemma bind_returned (S A B : Type) (m : M S A) (k : A -> M S B) (s s' : S)
    (b : B) :
  bind m k s = Returned b s' ->
  exists a s1, m s = Returned a s1 /\ k a s1 = Returned b s'.
Proof.
  unfold bind. destruct (m s) as [a s1 | s1]; [|discriminate].
  intros H. exists a, s1. split; [reflexivity | exact H].
Qed.

(** X25: what [refreshLearningsCache] returns is served for five minutes.
    When it returns a text, the cache entry it leaves holds that text, the
    time of the store and the agent of the store; and with that entry
    [getApprovedLearnings] of the module returns the same text, without a
    statement, for every store of that agent whose time is less than five
    minutes later, whatever that store holds. *)
Theorem refreshLearningsCache_served (rt : Runtime)
    (sessionKey : option jsstring) (e e' : Env) (text : jsstring) :
  refreshLearningsCache rt sessionKey e = Returned text e' ->
  exists c,
    learningsCache e' = Some c
    /\ c = {| formatted := text; timestamp := clock (mindStore e');
              cache_agentId := agentId (mindStore e') |}
    /\ forall (key : option jsstring) (w : World),
         agentId w = agentId (mindStore e') ->
         clock w - clock (mindStore e') < CACHE_TTL_MS ->
         Identity.getApprovedLearnings rt key (serving w c)
         = Returned text (serving w c).
Proof.
  intros H. unfold refreshLearningsCache in H.
  apply bind_returned in H. destruct H as (approved_learnings & e1 & _ & H).
  apply bind_returned in H. destruct H as (u & e2 & _ & H).
  apply bind_returned in H. destruct H as (the_text & e3 & _ & H).
  apply bind_returned in H. destruct H as (now & e4 & Hnow & H).
  rewrite Date_now_on_store in Hnow. injection Hnow as <- <-.
  unfold bind, get_agentId, set_cache, ret in H. injection H as <- <-.
  eexists. split; [reflexivity|]. cbn [mindStore]. split; [reflexivity|].
  intros key w Hagent Hclock.
  apply getApprovedLearnings_fresh. split; cbn; [now symmetry | exact Hclock].
Qed.

(** The first call of the module on the store of two learnings. *)
Lemma refreshLearningsCache_served_two_learnings :
  exists text e' c,
    refreshLearningsCache example_runtime None (cold two_learnings)
    = Returned text e'
    /\ learningsCache e' = Some c
    /\ Identity.getApprovedLearnings example_runtime None
         (serving (mindStore e') c)
       = Returned text (serving (mindStore e') c).
Proof.
  destruct (@runs_refreshLearningsCache example_runtime None
              (cold two_learnings) eq_refl) as (text & e' & Hrun & _).
  destruct (@refreshLearningsCache_served example_runtime None
              (cold two_learnings) e' text Hrun) as (c & Hc & _ & Hserved).
  exists text, e', c. split; [exact Hrun|]. split; [exact Hc|].
  apply Hserved; [reflexivity | rewrite Z.sub_diag; reflexivity].
Defined.

(** X26: without a fresh cache entry the storage layer decides.  When the
    module has no cache entry, or one that is not fresh, and the storage
    layer refuses the next statement, [buildMindPromptSection] throws:
    the query of the approved learnings is outside every [try]. *)
Theorem buildMindPromptSection_throws (rt : Runtime)
    (sessionKey : option jsstring) (e : Env) (rest : list bool) :
  (forall c, learningsCache e = Some c -> ~ fresh c (mindStore e)) ->
  faults (mindStore e) = true :: rest ->
  buildMindPromptSection rt sessionKey e
  = Threw {| mindStore := with_db (mindStore e) (db (mindStore e)) rest;
             learningsCache := learningsCache e |}.
Proof.
  intros Hstale Hf.
  assert (Hrefresh : refreshLearningsCache rt sessionKey e
                     = Threw {| mindStore := with_db (mindStore e)
                                               (db (mindStore e)) rest;
                                learningsCache := learningsCache e |}).
  { unfold refreshLearningsCache, bind at 1, on_store,
      Store.getApprovedLearnings.
    rewrite (statement_refused _ Hf). reflexivity. }
  unfold buildMindPromptSection, bind at 1.
  unfold Identity.getApprovedLearnings, bind.
  rewrite Date_now_on_store. unfold get_cache, get_agentId.
  destruct (learningsCache e) as [c|] eqn:Hc.
  - destruct (jsstring_eqb (cache_agentId c) (agentId (mindStore e))
              && (clock (mindStore e) - timestamp c <? CACHE_TTL_MS)) eqn:Hhit.
    + exfalso. apply (Hstale c eq_refl).
      apply andb_prop in Hhit. destruct Hhit as [H1 H2].
      split; [now apply jsstring_eqb_eq | now apply Z.ltb_lt].
    + rewrite Hrefresh. reflexivity.
  - rewrite Hrefresh. reflexivity.
Qed.

Lemma buildMindPromptSection_throws_refusing :
  faults (mindStore (cold refusing_store)) = [true]
  /\ buildMindPromptSection example_runtime None (cold refusing_store)
     = Threw (cold (open_store (str "main") 0 [])).
Proof.
  split; [reflexivity|].
  refine (@buildMindPromptSection_throws example_runtime None
            (cold refusing_store) [] _ eq_refl).
  intros c Hc. discriminate Hc.
Defined.

Lemma getRecentActions_rows (w : World) (sinceDaysAgo : Z)
    (sessionKey : option jsstring) :
  faults w = [] ->
  getRecentActions sinceDaysAgo sessionKey w
  = Returned
      (firstn 100
         (order_by_desc
            (fun a b => action_created_at b <=? action_created_at a)
            (filter (recent_match w sinceDaysAgo sessionKey)
               (mind_actions (db w))))) w.
Proof.
  intros Hq. unfold getRecentActions, bind, Date_now, recent_match.
  destruct (given sessionKey) as [key|];
    rewrite (query_runs _ Hq); cbv beta; [reflexivity|].
  do 3 f_equal. apply filter_ext. intros a. now rewrite andb_true_r.
Qed.

Lemma firstn_nil_inv (A : Type) (n : nat) (l : list A) :
  firstn (S n) l = [] -> l = [].
Proof. destruct l; [reflexivity | discriminate]. Qed.

Lemma filter_nil (A : Type) (f : A -> bool) (l : list A) :
  filter f l = [] <-> forall a, In a l -> f a = false.
Proof.
  induction l as [|x l IH]; cbn [filter].
  - split; [intros _ a [] | reflexivity].
  - destruct (f x) eqn:E.
    + split; [discriminate|]. intros H. rewrite (H x (or_introl eq_refl)) in E.
      discriminate E.
    + rewrite IH. split.
      * intros H a [<- | Ha]; [exact E | now apply H].
      * intros H a Ha. apply H. now right.
Qed.

(** X27: the action context never throws.  [getRecentActionsContext] returns
    whatever the storage layer does: the empty string when its statement
    is refused; and on a quiet store it leaves the module as it was and
    returns the empty string exactly when no action of the last seven days
    (of the session, when one is given) is in the store. *)
Theorem getRecentActionsContext_returns (rt : Runtime)
    (sessionKey : option jsstring) (e : Env) :
  exists ctx e',
    getRecentActionsContext rt sessionKey e = Returned ctx e'
    /\ (forall rest, faults (mindStore e) = true :: rest -> ctx = [])
    /\ (faults (mindStore e) = [] ->
        e' = e
        /\ (ctx = [] <->
            forall a, In a (mind_actions (db (mindStore e))) ->
                      recent_match (mindStore e) 7 sessionKey a = false)).
Proof.
  unfold getRecentActionsContext, try_catch, on_store.
  destruct (formatRecentActions rt sessionKey 10 (mindStore e))
    as [ctx w1 | w1] eqn:Hrun.
  - eexists. eexists. split; [reflexivity|]. split.
    + intros rest Hf.
      unfold formatRecentActions, getRecentActions, bind, Date_now in Hrun.
      destruct (given sessionKey);
        rewrite (statement_refused _ Hf) in Hrun; discriminate Hrun.
    + intros Hq. unfold formatRecentActions, bind in Hrun.
      rewrite (getRecentActions_rows 7 sessionKey Hq) in Hrun.
      set (before := fun a b : MindAction =>
                       action_created_at b <=? action_created_at a) in *.
      set (rows := filter (recent_match (mindStore e) 7 sessionKey)
                     (mind_actions (db (mindStore e)))) in *.
      assert (Hrows : firstn 10 (firstn 100 (order_by_desc before rows)) = []
                      <-> rows = []).
      { split.
        - intros H. apply firstn_nil_inv in H. apply firstn_nil_inv in H.
          pose proof (order_by_desc_perm before rows) as Hperm.
          rewrite H in Hperm. now apply Permutation_nil.
        - intros ->. reflexivity. }
      destruct (firstn 10 (firstn 100 (order_by_desc before rows)))
        as [|a acts] eqn:Hfirst.
      * unfold ret in Hrun. injection Hrun as <- <-.
        split; [destruct e; reflexivity|].
        split; [intros _|reflexivity].
        apply filter_nil. apply Hrows. reflexivity.
      * unfold ret in Hrun. injection Hrun as <- <-.
        split; [destruct e; reflexivity|].
        split.
        -- cbn [map join]. destruct acts; discriminate.
        -- intros H. apply filter_nil in H. apply Hrows in H. discriminate H.
  - eexists. eexists. split; [reflexivity|]. split; [reflexivity|].
    intros Hq. exfalso.
    destruct (@runs_formatRecentActions rt sessionKey 10 (mindStore e) Hq)
      as (a & w' & Hret & _).
    rewrite Hret in Hrun. discriminate Hrun.
Qed.

End IdentityCache.

(** ** The count of the logs and the recent dreams *)

Section StoreFurtherReads.
Import Store.

(** X28: a log written is a log counted.  On a quiet store, for a window of
    zero or more days, [getLogCount] after [addLog] returns one more than
    before it, and [addLog] returns the id of the new row, one more than
    the last id handed out. *)
Theorem addLog_counted (rt : Runtime) (w : World) (category : MindLogCategory)
    (payload : JsValue) (sessionKey : jsstring) (days : Z) :
  faults w = [] ->
  0 <= days ->
  exists w' n,
    addLog rt category payload sessionKey w
    = Returned (seq_log (db w) + 1) w'
    /\ getLogCount days w = Returned n w
    /\ getLogCount days w' = Returned (n + 1) w'
    /\ 0 <= n <= Z.of_nat (List.length (mind_log (db w))).
Proof.
  intros Hq Hdays. eexists. eexists. split.
  { unfold addLog, bind, Date_now. rewrite (statement_runs _ Hq).
    cbn [fst snd]. reflexivity. }
  split.
  { unfold getLogCount, bind, Date_now. apply (query_runs _ Hq). }
  split.
  { unfold getLogCount, bind, Date_now. rewrite query_runs by reflexivity.
    cbn [with_db db clock mind_log]. f_equal.
    rewrite filter_app, length_app, Nat2Z.inj_add. f_equal.
    cbn [filter log_created_at].
    replace (clock w - days * 24 * 60 * 60 * 1000 <=? clock w) with true
      by (symmetry; apply Z.leb_le; lia).
    reflexivity. }
  split; [lia|]. apply Nat2Z.inj_le. apply filter_length_le.
Qed.

Lemma addLog_counted_new_store :
  faults (open_store (str "main") 0 []) = []
  /\ exists w',
       addLog example_runtime stress (JObject []) [] (open_store (str "main") 0 [])
       = Returned 1 w'
       /\ getLogCount 7 w' = Returned 1 w'.
Proof.
  split; [reflexivity|].
  destruct (@addLog_counted example_runtime (open_store (str "main") 0 [])
              stress (JObject []) [] 7 eq_refl) as (w' & n & H1 & H2 & H3 & _).
  { lia. }
  exists w'. split; [exact H1|].
  vm_compute in H2. injection H2 as <-. exact H3.
Defined.

(** X29: a dream recorded is a dream listed.  On a quiet store with fewer
    dreams than the limit, [getRecentDreams] after [recordDream] returns
    every dream of the store, the new one among them, newest first. *)
Theorem recordDream_listed (w : World) (daysAnalyzed logCount : Z)
    (text : jsstring) (limit : nat) :
  faults w = [] ->
  (List.length (mind_dreams (db w)) < limit)%nat ->
  exists w' dreams,
    recordDream daysAnalyzed logCount text w
    = Returned (seq_dreams (db w) + 1) w'
    /\ getRecentDreams limit w' = Returned dreams w'
    /\ Permutation dreams
         (new_dream (seq_dreams (db w) + 1) daysAnalyzed logCount text (clock w)
          :: mind_dreams (db w))
    /\ StronglySorted
         (fun a b => dream_created_at b <= dream_created_at a) dreams.
Proof.
  intros Hq Hlen. eexists. eexists. split.
  { unfold recordDream, bind, Date_now. rewrite (statement_runs _ Hq).
    cbn [fst snd]. reflexivity. }
  split.
  { unfold getRecentDreams. apply query_runs. reflexivity. }
  cbn [with_db db mind_dreams].
  set (before := fun a b : DreamResult =>
                   dream_created_at b <=? dream_created_at a).
  set (rows := mind_dreams (db w) ++ _).
  assert (Hperm : Permutation (order_by_desc before rows) rows)
    by apply order_by_desc_perm.
  rewrite firstn_all2.
  - split.
    + rewrite Hperm. unfold rows. rewrite Permutation_app_comm. reflexivity.
    + eapply StronglySorted_weaken; [|apply order_by_desc_sorted].
      * intros a b H. now apply Z.leb_le.
      * intros a b. unfold before.
        destruct (Z.le_ge_cases (dream_created_at b) (dream_created_at a));
          [left | right]; now apply Z.leb_le.
      * intros a b c H1 H2. unfold before in *.
        apply Z.leb_le in H1, H2. apply Z.leb_le. lia.
  - rewrite (Permutation_length Hperm). unfold rows.
    rewrite length_app. cbn [List.length]. lia.
Qed.

Lemma recordDream_listed_new_store :
  faults (open_store (str "main") 0 []) = []
  /\ exists w' dreams,
       recordDream 7 12 (str "[]") (open_store (str "main") 0 []) = Returned 1 w'
       /\ getRecentDreams 5 w' = Returned dreams w'
       /\ map proposals dreams = [str "[]"].
Proof.
  split; [reflexivity|].
  destruct (@recordDream_listed (open_store (str "main") 0 []) 7 12 (str "[]")
              5 eq_refl) as (w' & dreams & H1 & H2 & H3 & _).
  { cbn. lia. }
  exists w', dreams. split; [exact H1|]. split; [exact H2|].
  apply Permutation_sym, Permutation_length_1_inv in H3. subst dreams.
  reflexivity.
Defined.

End StoreFurtherReads.
